(** * Feature auditor (scripts/audit_feature.py): shallow embedding and
      verification of its rule checks, aggregation and report.

    Python [str] values are modelled by [string]; a character is a code
    point below 256 (Latin-1), which covers every literal the auditor
    searches for.  Python dictionaries with a fixed key set ([stats],
    [mandate_checks], [performance_checks]) are records; their [items()]
    order is the insertion order of [__init__].  The first part of the
    file holds the embedding and the vocabulary of the statements, the
    second part the properties. *)

From Stdlib Require Import Bool Arith List Lia Ascii String DecimalString Permutation.
Import ListNotations.
Local Open Scope list_scope.
Local Open Scope string_scope.
Local Open Scope nat_scope.

(** List concatenation, kept apart from the concatenation of strings. *)
Local Notation "l1 +++ l2" := (@app _ l1 l2) (at level 60, right associativity).

(* ================================================================== *)
(** * The embedding *)
(* ================================================================== *)

(* ================================================================== *)
(** ** Python string primitives *)
(* ================================================================== *)

Module PyStr.

Definition code (c : ascii) : nat := nat_of_ascii c.

Definition in_range (lo hi : nat) (c : ascii) : bool :=
  (lo <=? code c) && (code c <=? hi).

(** [a-z], [A-Z], [0-9] as the regular expressions of the script spell them. *)
Definition is_az (c : ascii) : bool := in_range 97 122 c.
Definition is_AZ (c : ascii) : bool := in_range 65 90 c.
Definition is_09 (c : ascii) : bool := in_range 48 57 c.
Definition is_az09_ (c : ascii) : bool := is_az c || is_09 c || Ascii.eqb c "_".
Definition is_alnum (c : ascii) : bool := is_AZ c || is_az c || is_09 c.

(** Unicode white space below 256: what [str.strip] removes and what [\s]
    matches in a [str] pattern (TAB..CR, FS..US, SPACE, NEL, NBSP). *)
Definition is_space (c : ascii) : bool :=
  in_range 9 13 c || in_range 28 32 c || (code c =? 133) || (code c =? 160).

(** Line boundaries of [str.splitlines] below 256. *)
Definition is_linebreak (c : ascii) : bool :=
  in_range 10 13 c || in_range 28 30 c || (code c =? 133).

Definition newline : ascii := "010".
Definition is_newline (c : ascii) : bool := Ascii.eqb c newline.

(** [str.lower] on one character: A-Z, and the upper-case letters of
    Latin-1 (all of 0xC0..0xDE but the multiplication sign 0xD7). *)
Definition lower_char (c : ascii) : ascii :=
  if is_AZ c || (in_range 192 222 c && negb (code c =? 215))
  then ascii_of_nat (code c + 32)
  else c.

Definition upper_char (c : ascii) : ascii :=
  if is_az c then ascii_of_nat (code c - 32) else c.

Fixpoint lower (s : string) : string :=
  match s with
  | EmptyString => EmptyString
  | String c s' => String (lower_char c) (lower s')
  end.

(** [s.startswith(p)] *)
Fixpoint startswith (p s : string) : bool :=
  match p with
  | EmptyString => true
  | String a p' =>
      match s with
      | String b s' => Ascii.eqb a b && startswith p' s'
      | EmptyString => false
      end
  end.

(** [sub in s] *)
Fixpoint contains (sub s : string) : bool :=
  startswith sub s ||
  match s with
  | EmptyString => false
  | String _ s' => contains sub s'
  end.

(** [s.endswith(suf)] *)
Fixpoint endswith (suf s : string) : bool :=
  String.eqb suf s ||
  match s with
  | EmptyString => false
  | String _ s' => endswith suf s'
  end.

Fixpoint lstrip (s : string) : string :=
  match s with
  | String c s' => if is_space c then lstrip s' else s
  | EmptyString => EmptyString
  end.

Fixpoint rstrip (s : string) : string :=
  match s with
  | EmptyString => EmptyString
  | String c s' =>
      match rstrip s' with
      | EmptyString => if is_space c then EmptyString else String c EmptyString
      | r => String c r
      end
  end.

(** [s.strip()] *)
Definition strip (s : string) : string := rstrip (lstrip s).

(** [s.splitlines()]: the pending line [cur] is closed at every line
    boundary (CR LF counting as one) and, when not empty, at the end. *)
Fixpoint splitlines_from (cur s : string) : list string :=
  match s with
  | EmptyString => match cur with EmptyString => [] | _ => [cur] end
  | String c s' =>
      if is_linebreak c then
        match s' with
        | String c' s'' =>
            if (code c =? 13) && (code c' =? 10)
            then cur :: splitlines_from EmptyString s''
            else cur :: splitlines_from EmptyString s'
        | EmptyString => cur :: splitlines_from EmptyString s'
        end
      else splitlines_from (cur ++ String c EmptyString) s'
  end.

Definition splitlines (s : string) : list string := splitlines_from EmptyString s.

(** [s.split(sep)] for a non-empty [sep]: cut at every occurrence of [sep],
    scanning left to right without overlap.  [skip] counts characters of an
    occurrence still to be dropped. *)
Fixpoint split_from (sep : string) (skip : nat) (cur s : string) : list string :=
  match s with
  | EmptyString => [cur]
  | String c s' =>
      match skip with
      | S k => split_from sep k cur s'
      | O =>
          if startswith sep s
          then cur :: split_from sep (String.length sep - 1) EmptyString s'
          else split_from sep 0 (cur ++ String c EmptyString) s'
      end
  end.

Definition split (sep s : string) : list string := split_from sep 0 EmptyString s.

(** [s.replace(old, new)] for a one-character [old]. *)
Fixpoint replace_char (old : ascii) (new s : string) : string :=
  match s with
  | EmptyString => EmptyString
  | String c s' =>
      if Ascii.eqb c old then new ++ replace_char old new s'
      else String c (replace_char old new s')
  end.

(** [s.title()]: a cased character is upper-cased when the previous
    character is not cased and lower-cased when it is.  The script applies
    it to the keys of [mandate_checks] only, which are ASCII. *)
Fixpoint title_from (previous_is_cased : bool) (s : string) : string :=
  match s with
  | EmptyString => EmptyString
  | String c s' =>
      if is_az c then
        String (if previous_is_cased then c else upper_char c) (title_from true s')
      else if is_AZ c then
        String (if previous_is_cased then lower_char c else c) (title_from true s')
      else String c (title_from false s')
  end.

Definition title (s : string) : string := title_from false s.

(** [sep.join(l)] *)
Definition join (sep : string) (l : list string) : string := String.concat sep l.

(** [str(n)] for a non-negative integer. *)
Definition str_of_nat (n : nat) : string := NilZero.string_of_uint (Nat.to_uint n).

(** ['%0*d' % (width, n)] *)
Fixpoint zeros (n : nat) : string :=
  match n with O => EmptyString | S k => String "0" (zeros k) end.

Definition zfill (width n : nat) : string :=
  let d := str_of_nat n in zeros (width - String.length d) ++ d.

(** [os.path.dirname] (posixpath): the text up to the last slash, with
    trailing slashes removed unless it consists of slashes only. *)
Definition is_slash (c : ascii) : bool := Ascii.eqb c "/".

Fixpoint has_slash (s : string) : bool :=
  match s with
  | EmptyString => false
  | String c s' => is_slash c || has_slash s'
  end.

Fixpoint head_to_last_slash (s : string) : string :=
  match s with
  | EmptyString => EmptyString
  | String c s' => if has_slash s then String c (head_to_last_slash s') else EmptyString
  end.

Fixpoint all_slashes (s : string) : bool :=
  match s with
  | EmptyString => true
  | String c s' => is_slash c && all_slashes s'
  end.

Fixpoint rstrip_slash (s : string) : string :=
  match s with
  | EmptyString => EmptyString
  | String c s' =>
      match rstrip_slash s' with
      | EmptyString => if is_slash c then EmptyString else String c EmptyString
      | r => String c r
      end
  end.

Definition dirname (p : string) : string :=
  let head := head_to_last_slash p in
  if all_slashes head then head else rstrip_slash head.

End PyStr.

Import PyStr.

(* ================================================================== *)
(** ** The three regular expressions of the script

    Each pattern is matched by the backtracking engine of [re]; for these
    three patterns every greedy repetition is followed by a character
    outside its class, so giving back characters never helps and the
    engine's answer is the one of a left-to-right longest-run scanner. *)
(* ================================================================== *)

Module Regex.

(** Longest run of characters in a class, and what follows it. *)
Fixpoint span (p : ascii -> bool) (s : string) : string * string :=
  match s with
  | String c s' =>
      if p c then let (a, b) := span p s' in (String c a, b) else (EmptyString, s)
  | EmptyString => (EmptyString, EmptyString)
  end.

Fixpoint strip_prefix (p s : string) : option string :=
  match p with
  | EmptyString => Some s
  | String a p' =>
      match s with
      | String b s' => if Ascii.eqb a b then strip_prefix p' s' else None
      | EmptyString => None
      end
  end.

(** One attempt, at a line start, of the naming pattern of
    [audit_variable_entity_registry] (written here with blanks between its
    parts): [^  \s*  ( [a-z]+ _ [a-z0-9_]* )  \??  \s*  :].  The result
    is the captured group and the text after the colon. *)
Definition skip_question (s : string) : string :=
  match s with
  | String c t => if Ascii.eqb c "?" then t else s
  | EmptyString => s
  end.

Definition match_snake_prop (s : string) : option (string * string) :=
  let (_, s1) := span is_space s in
  let (a, s2) := span is_az s1 in
  match a, s2 with
  | String _ _, String u s3 =>
      if Ascii.eqb u "_" then
        let (b, s4) := span is_az09_ s3 in
        let (_, s6) := span is_space (skip_question s4) in
        match s6 with
        | String c s7 =>
            if Ascii.eqb c ":" then Some (a ++ String "_" b, s7) else None
        | EmptyString => None
        end
      else None
  | _, _ => None
  end.

(** [re.findall(pattern, content, re.MULTILINE)]: attempts are made at the
    start of the text and after every newline ([bol]); after a match the
    search resumes where the match ended. *)
Fixpoint findall_snake_fuel (fuel : nat) (bol : bool) (s : string) : list string :=
  match fuel with
  | O => []
  | S fuel' =>
      match s with
      | EmptyString => []
      | String c s' =>
          match (if bol then match_snake_prop s else None) with
          | Some (prop, rest) => prop :: findall_snake_fuel fuel' false rest
          | None => findall_snake_fuel fuel' (is_newline c) s'
          end
      end
  end.

Definition findall_snake_from (bol : bool) (s : string) : list string :=
  findall_snake_fuel (String.length s) bol s.

Definition findall_snake (content : string) : list string :=
  findall_snake_from true content.

(** One attempt of [(export )?(interface|type|class) ([A-Za-z0-9]+)]. *)
Definition match_kind (s : string) : option (string * string) :=
  match strip_prefix "interface" s with
  | Some r => Some ("interface", r)
  | None =>
      match strip_prefix "type" s with
      | Some r => Some ("type", r)
      | None =>
          match strip_prefix "class" s with
          | Some r => Some ("class", r)
          | None => None
          end
      end
  end.

Definition match_entity (s : string) : option ((string * string * string) * string) :=
  let (export, s1) :=
    match strip_prefix "export " s with
    | Some r => ("export ", r)
    | None => (EmptyString, s)
    end in
  match match_kind s1 with
  | Some (kind, String b s2) =>
      if Ascii.eqb b " " then
        match span is_alnum s2 with
        | (String c n, s3) => Some ((export, kind, String c n), s3)
        | _ => None
        end
      else None
  | _ => None
  end.

Fixpoint findall_entity_fuel (fuel : nat) (s : string) : list (string * string * string) :=
  match fuel with
  | O => []
  | S fuel' =>
      match s with
      | EmptyString => []
      | String _ s' =>
          match match_entity s with
          | Some (m, rest) => m :: findall_entity_fuel fuel' rest
          | None => findall_entity_fuel fuel' s'
          end
      end
  end.

Definition findall_entity (content : string) : list (string * string * string) :=
  findall_entity_fuel (String.length content) content.

(** [re.search] of the import pattern of [audit_dependencies] in a line:
    the word from, a blank, a quote (single or double), one or more
    characters that are not quotes (group 1), a quote.  The result is
    group 1 of the leftmost match. *)
Definition dquote : ascii := "034".
Definition is_quote (c : ascii) : bool := Ascii.eqb c "'" || Ascii.eqb c dquote.

Definition match_from (s : string) : option string :=
  match strip_prefix "from " s with
  | Some (String q s1) =>
      if is_quote q then
        match span (fun c => negb (is_quote c)) s1 with
        | (String c p, String _ _) => Some (String c p)
        | _ => None
        end
      else None
  | _ => None
  end.

Fixpoint search_from (s : string) : option string :=
  match match_from s with
  | Some p => Some p
  | None =>
      match s with
      | EmptyString => None
      | String _ s' => search_from s'
      end
  end.

End Regex.

Import Regex.

Definition nl : string := String newline EmptyString.
Definition dq : string := String dquote EmptyString.

(* ================================================================== *)
(** ** Data model *)
(* ================================================================== *)

(** The four status strings the script writes into its dictionaries. *)
Inductive Verdict : Type := PASS | FAIL | WARNING | NA.

Definition verdict_str (v : Verdict) : string :=
  match v with
  | PASS => "PASS"
  | FAIL => "FAIL"
  | WARNING => "WARNING"
  | NA => "N/A"
  end.

Definition is_FAIL (v : Verdict) : bool :=
  match v with FAIL => true | _ => false end.

(** One entry of [self.files], as [scan_files] builds it.  [path] is
    [PROJECT_ROOT] joined with [rel_path]; the script never reads it
    back. *)
Record SourceFile : Type := mkSourceFile {
  path : string;
  rel_path : string;
  name : string;
  content : string;
  lines : nat;
  line_content : list string
}.

(** One entry of the entity inventory. *)
Record Entity : Type := mkEntity {
  entity_name : string;
  entity_kind : string;
  entity_file : string
}.

(** [self.stats] *)
Record Stats : Type := mkStats {
  entity_registry : Verdict;
  dependency_manifest : Verdict;
  sacred_mandate : Verdict;
  performance : Verdict;
  naming : Verdict;
  feature_bleed : list string
}.

(** [self.mandate_checks] *)
Record MandateChecks : Type := mkMandateChecks {
  integer_cents : Verdict;
  sync_integrity : Verdict;
  soft_deletes : Verdict;
  auth_abstraction : Verdict
}.

(** [self.mandate_checks.items()] *)
Definition mandate_items (m : MandateChecks) : list (string * Verdict) :=
  [ ("integer_cents", integer_cents m);
    ("sync_integrity", sync_integrity m);
    ("soft_deletes", soft_deletes m);
    ("auth_abstraction", auth_abstraction m) ].

(** [self.performance_checks] *)
Record PerformanceChecks : Type := mkPerformanceChecks {
  react_compiler : Verdict;
  re_render : Verdict
}.

(** The auditor object.  Its [inventory] attribute is set to an empty
    dictionary by [__init__] and never used again; it is left out. *)
Record FeatureAuditor : Type := mkFeatureAuditor {
  feature_name : string;
  feature_path : string;
  files : list SourceFile;
  issues : list string;
  stats : Stats;
  mandate_checks : MandateChecks;
  performance_checks : PerformanceChecks
}.

Definition set_files (self : FeatureAuditor) (fs : list SourceFile) : FeatureAuditor :=
  mkFeatureAuditor (feature_name self) (feature_path self) fs (issues self)
    (stats self) (mandate_checks self) (performance_checks self).

Definition set_issues (self : FeatureAuditor) (l : list string) : FeatureAuditor :=
  mkFeatureAuditor (feature_name self) (feature_path self) (files self) l
    (stats self) (mandate_checks self) (performance_checks self).

Definition set_stats (self : FeatureAuditor) (st : Stats) : FeatureAuditor :=
  mkFeatureAuditor (feature_name self) (feature_path self) (files self) (issues self)
    st (mandate_checks self) (performance_checks self).

Definition set_mandate_checks (self : FeatureAuditor) (m : MandateChecks) : FeatureAuditor :=
  mkFeatureAuditor (feature_name self) (feature_path self) (files self) (issues self)
    (stats self) m (performance_checks self).

Definition set_performance_checks (self : FeatureAuditor) (p : PerformanceChecks) : FeatureAuditor :=
  mkFeatureAuditor (feature_name self) (feature_path self) (files self) (issues self)
    (stats self) (mandate_checks self) p.

(** [self.issues.extend(l)] *)
Definition extend_issues (self : FeatureAuditor) (l : list string) : FeatureAuditor :=
  set_issues self (issues self +++ l).

Definition set_naming (st : Stats) (v : Verdict) : Stats :=
  mkStats (entity_registry st) (dependency_manifest st) (sacred_mandate st)
    (performance st) v (feature_bleed st).

Definition set_dependency_manifest (st : Stats) (v : Verdict) : Stats :=
  mkStats (entity_registry st) v (sacred_mandate st)
    (performance st) (naming st) (feature_bleed st).

Definition set_feature_bleed (st : Stats) (l : list string) : Stats :=
  mkStats (entity_registry st) (dependency_manifest st) (sacred_mandate st)
    (performance st) (naming st) l.

Definition set_integer_cents (m : MandateChecks) (v : Verdict) : MandateChecks :=
  mkMandateChecks v (sync_integrity m) (soft_deletes m) (auth_abstraction m).

Definition set_soft_deletes (m : MandateChecks) (v : Verdict) : MandateChecks :=
  mkMandateChecks (integer_cents m) (sync_integrity m) v (auth_abstraction m).

Definition set_auth_abstraction (m : MandateChecks) (v : Verdict) : MandateChecks :=
  mkMandateChecks (integer_cents m) (sync_integrity m) (soft_deletes m) v.

Definition set_react_compiler (p : PerformanceChecks) (v : Verdict) : PerformanceChecks :=
  mkPerformanceChecks v (re_render p).

(** [FeatureAuditor.__init__]; [FEATURES_DIR] is [PROJECT_ROOT / "features"].
    [feature_path] is kept relative to [PROJECT_ROOT], for a feature name
    that is one path component: [FEATURES_DIR / feature_name] is then the
    two joined by a slash.  pathlib treats other names differently (an
    absolute name replaces [FEATURES_DIR]; an empty name, a dot and a
    doubled or trailing slash are dropped); the statements on scans and
    runs that depend on it take such a name as a hypothesis. *)
Definition init (feature : string) : FeatureAuditor :=
  {| feature_name := feature;
     feature_path := "features/" ++ feature;
     files := [];
     issues := [];
     stats := {| entity_registry := PASS;
                 dependency_manifest := PASS;
                 sacred_mandate := PASS;
                 performance := PASS;
                 naming := PASS;
                 feature_bleed := [] |};
     mandate_checks := {| integer_cents := NA;
                          sync_integrity := NA;
                          soft_deletes := NA;
                          auth_abstraction := NA |};
     performance_checks := {| react_compiler := PASS; re_render := PASS |} |}.

(** A Python list is true when it is not empty. *)
Definition nonempty {A : Type} (l : list A) : bool :=
  match l with [] => false | _ :: _ => true end.

(** [enumerate(l)] *)
Definition enumerate {A : Type} (l : list A) : list (nat * A) :=
  combine (seq 0 (List.length l)) l.

(** *** audit_variable_entity_registry *)

Definition naming_message (prop rel : string) : string :=
  "Snake_case property '" ++ prop ++ "' in domain file " ++ rel.

Definition entity_of_match (rel : string) (m : string * string * string) : Entity :=
  let '(_, kind, nm) := m in
  {| entity_name := nm; entity_kind := kind; entity_file := rel |}.

(** Body of the loop over [self.files]; the accumulator holds the local
    lists [entities] and [naming_violations]. *)
Definition registry_body (acc : list Entity * list string) (file : SourceFile)
  : list Entity * list string :=
  let (entities, naming_violations) := acc in
  let is_domain := contains "domain" (rel_path file) in
  let naming_violations :=
    if is_domain then
      (naming_violations
         +++ map (fun prop => naming_message prop (rel_path file))
                (findall_snake (content file)))
    else naming_violations in
  let entities :=
    (entities +++ map (entity_of_match (rel_path file)) (findall_entity (content file))) in
  (entities, naming_violations).

Definition audit_variable_entity_registry (self : FeatureAuditor)
  : list Entity * FeatureAuditor :=
  let (entities, naming_violations) := fold_left registry_body (files self) ([], []) in
  let self :=
    if nonempty naming_violations then
      extend_issues (set_stats self (set_naming (stats self) FAIL)) naming_violations
    else self in
  (entities, self).

(** *** audit_dependencies *)

Definition bleed_message (target rel : string) (i : nat) : string :=
  "Import from " ++ target ++ " in " ++ rel ++ ":" ++ str_of_nat (i + 1).

Definition transformer_message (rel : string) (i : nat) : string :=
  "Uses data-transformers in " ++ rel ++ ":" ++ str_of_nat (i + 1).

(** [path_str.split("features/")[1].split("/")[0]]; both indices exist
    when [path_str] starts with one of the two guarded prefixes. *)
Definition target_feature_of (path_str : string) : string :=
  hd EmptyString (split "/" (nth 1 (split "features/" path_str) EmptyString)).

(** Body of the inner loop over [enumerate(lines)]; the accumulator holds
    [feature_bleed] and [transformers]. *)
Definition dependency_line (feature rel : string)
    (acc : list string * list string) (il : nat * string)
  : list string * list string :=
  let (bleed, transformers) := acc in
  let (i, line) := il in
  if startswith "import " (strip line) then
    match search_from line with
    | Some path_str =>
        let bleed :=
          if startswith "@/features/" path_str || startswith "../../features/" path_str then
            let target_feature := target_feature_of path_str in
            if negb (String.eqb target_feature feature)
               && negb (String.eqb target_feature "shared")
            then (bleed +++ [bleed_message target_feature rel i])
            else bleed
          else bleed in
        let transformers :=
          if contains "types/data-transformers" path_str
             || contains "data/data-transformers" path_str
          then (transformers +++ [transformer_message rel i])
          else transformers in
        (bleed, transformers)
    | None => acc
    end
  else acc.

Definition dependency_body (feature : string)
    (acc : list string * list string) (file : SourceFile)
  : list string * list string :=
  fold_left (dependency_line feature (rel_path file)) (enumerate (line_content file)) acc.

Definition audit_dependencies (self : FeatureAuditor) : list string * FeatureAuditor :=
  let (bleed, transformers) :=
    fold_left (dependency_body (feature_name self)) (files self) ([], []) in
  let self :=
    if nonempty bleed then
      extend_issues
        (set_stats self
           (set_feature_bleed (set_dependency_manifest (stats self) FAIL) bleed))
        bleed
    else self in
  (transformers, self).

(** *** audit_sacred_mandate *)

Definition float_message (rel : string) : string := "Potential float usage in " ++ rel.
Definition delete_message (rel : string) : string :=
  "Potential hard delete verification needed in " ++ rel.
Definition auth_message (rel : string) : string := "Direct supabase.auth usage in " ++ rel.

Definition mentions_financial (c : string) : bool :=
  contains "balance" (lower c) || contains "amount" (lower c) || contains "price" (lower c).

Definition mentions_float (c : string) : bool :=
  contains "number" c && (contains "float" (lower c) || contains "double" (lower c)).

(** Integer cents: the accumulator is ([has_financial], [float_violations]). *)
Definition integer_cents_body (acc : bool * list string) (file : SourceFile)
  : bool * list string :=
  let (has_financial, float_violations) := acc in
  if mentions_financial (content file) then
    (true,
     if mentions_float (content file)
     then (float_violations +++ [float_message (rel_path file)])
     else float_violations)
  else (has_financial, float_violations).

(** Soft deletes: the accumulator is ([has_delete], [delete_violations]). *)
Definition soft_delete_body (acc : bool * list string) (file : SourceFile)
  : bool * list string :=
  let (has_delete, delete_violations) := acc in
  if contains "delete" (lower (content file)) then
    if negb (contains "deleted_at" (content file))
       && negb (contains "deletedAt" (content file)) then
      if contains "repository" (rel_path file) then
        (true, (delete_violations +++ [delete_message (rel_path file)]))
      else (has_delete, delete_violations)
    else (has_delete, delete_violations)
  else (has_delete, delete_violations).

(** Auth abstraction: the accumulator is [auth_violations]. *)
Definition auth_body (feature : string) (auth_violations : list string) (file : SourceFile)
  : list string :=
  if contains "supabase.auth." (content file) then
    if negb (String.eqb feature "auth")
    then (auth_violations +++ [auth_message (rel_path file)])
    else auth_violations
  else auth_violations.

Definition audit_integer_cents (self : FeatureAuditor) : FeatureAuditor :=
  let (has_financial, float_violations) :=
    fold_left integer_cents_body (files self) (false, []) in
  if has_financial then
    let self :=
      set_mandate_checks self
        (set_integer_cents (mandate_checks self)
           (if nonempty float_violations then FAIL else PASS)) in
    if nonempty float_violations then extend_issues self float_violations else self
  else self.

Definition audit_soft_deletes (self : FeatureAuditor) : FeatureAuditor :=
  let (has_delete, delete_violations) :=
    fold_left soft_delete_body (files self) (false, []) in
  if has_delete then
    let self :=
      set_mandate_checks self
        (set_soft_deletes (mandate_checks self)
           (if nonempty delete_violations then WARNING else PASS)) in
    if nonempty delete_violations then extend_issues self delete_violations else self
  else self.

Definition audit_auth_abstraction (self : FeatureAuditor) : FeatureAuditor :=
  let auth_violations := fold_left (auth_body (feature_name self)) (files self) [] in
  if nonempty auth_violations then
    extend_issues
      (set_mandate_checks self (set_auth_abstraction (mandate_checks self) FAIL))
      auth_violations
  else set_mandate_checks self (set_auth_abstraction (mandate_checks self) PASS).

(** The three parts of [audit_sacred_mandate], in the order of the source. *)
Definition audit_sacred_mandate (self : FeatureAuditor) : FeatureAuditor :=
  audit_auth_abstraction (audit_soft_deletes (audit_integer_cents self)).

(** *** audit_performance *)

Definition watch_message (rel : string) : string :=
  "Usage of watch() instead of useWatch in " ++ rel.

Definition performance_body (watch_violations : list string) (file : SourceFile)
  : list string :=
  if contains "watch(" (content file) && negb (contains "useWatch" (content file)) then
    if contains "react-hook-form" (content file)
    then (watch_violations +++ [watch_message (rel_path file)])
    else watch_violations
  else watch_violations.

Definition audit_performance (self : FeatureAuditor) : FeatureAuditor :=
  let watch_violations := fold_left performance_body (files self) [] in
  if nonempty watch_violations then
    extend_issues
      (set_performance_checks self (set_react_compiler (performance_checks self) FAIL))
      watch_violations
  else self.

(** The four calls that open [generate_markdown]: the entity list, the
    transformer notes and the auditor after the last check. *)
Definition run_checks (self : FeatureAuditor)
  : list Entity * list string * FeatureAuditor :=
  let (entities, self) := audit_variable_entity_registry self in
  let (transformers, self) := audit_dependencies self in
  let self := audit_sacred_mandate self in
  let self := audit_performance self in
  (entities, transformers, self).

(* ================================================================== *)
(** ** The report: generate_markdown *)
(* ================================================================== *)

(** [datetime.date], and [date.isoformat()] (the format YYYY-MM-DD). *)
Record Date : Type := mkDate { year : nat; month : nat; day : nat }.

Definition isoformat (d : Date) : string :=
  zfill 4 (year d) ++ "-" ++ zfill 2 (month d) ++ "-" ++ zfill 2 (day d).

(** [files_by_folder]: a dictionary from folder to the files in it, in
    insertion order. *)
Fixpoint folder_add (folder : string) (f : SourceFile)
    (d : list (string * list SourceFile)) : list (string * list SourceFile) :=
  match d with
  | [] => [(folder, [f])]
  | (k, fs) :: d' =>
      if String.eqb k folder then (k, (fs +++ [f])) :: d'
      else (k, fs) :: folder_add folder f d'
  end.

Definition files_by_folder (fs : list SourceFile) : list (string * list SourceFile) :=
  fold_left (fun d f => folder_add (dirname (rel_path f)) f d) fs [].

Definition generated_line (today : Date) : string :=
  "> **Generated**: " ++ isoformat today.

Definition header_lines (self : FeatureAuditor) (today : Date) : list string :=
  [ "# Composable Manifest: features/" ++ feature_name self;
    EmptyString;
    generated_line today;
    "> **Auditor**: Automated Construction Agent";
    "> **Scope**: `/features/" ++ feature_name self ++ "/` folder";
    EmptyString;
    "---";
    EmptyString ].

Definition summary_lines (self : FeatureAuditor) : list string :=
  [ "## Executive Summary";
    EmptyString;
    "| Category | Status | Notes |";
    "|----------|--------|-------|";
    "| Variable & Entity Registry | " ++ verdict_str (naming (stats self)) ++ " | "
      ++ (if is_FAIL (naming (stats self)) then "Issues found" else "Clean") ++ " |";
    "| Dependency Manifest | " ++ verdict_str (dependency_manifest (stats self)) ++ " | "
      ++ str_of_nat (List.length (feature_bleed (stats self))) ++ " violations |";
    "| Sacred Mandate | " ++ verdict_str (sacred_mandate (stats self)) ++ " | Auth: "
      ++ verdict_str (auth_abstraction (mandate_checks self)) ++ " |";
    "| Performance | " ++ verdict_str (performance (stats self)) ++ " | Watch Usage: "
      ++ verdict_str (react_compiler (performance_checks self)) ++ " |";
    EmptyString ].

Definition issue_lines (self : FeatureAuditor) : list string :=
  ((if nonempty (issues self)
    then "**Issues Found:**" :: map (fun issue => "- " ++ issue) (issues self)
    else ["**Overall Result: PASSED**"])
   +++ [EmptyString; "---"; EmptyString]).

Definition folder_lines (entry : string * list SourceFile) : list string :=
  let (folder, fs) := entry in
  ([ "#### " ++ folder; "| File | Lines |"; "|------|-------|" ]
   +++ map (fun f => "| `" ++ name f ++ "` | " ++ str_of_nat (lines f) ++ " |") fs
   +++ [EmptyString]).

Definition inventory_lines (self : FeatureAuditor) : list string :=
  ([ "## 1. Variable & Entity Registry";
     EmptyString;
     "### 1.1 Feature File Inventory";
     "**Total Files**: " ++ str_of_nat (List.length (files self));
     EmptyString ]
   +++ flat_map folder_lines (files_by_folder (files self))).

Definition entity_lines (entities : list Entity) : list string :=
  ([ "### 1.2 Entity Inventory"; "| Name | Kind | File |"; "|------|------|------|" ]
   +++ map (fun e => "| `" ++ entity_name e ++ "` | " ++ entity_kind e
                    ++ " | `" ++ entity_file e ++ "` |") entities
   +++ [EmptyString]).

Definition dependency_lines (self : FeatureAuditor) (transformers : list string)
  : list string :=
  ([ "## 2. Dependency Manifest"; EmptyString; "### 2.1 Feature Bleed Check" ]
   +++ (if nonempty (feature_bleed (stats self))
       then "**Result: FAIL**" :: EmptyString
              :: map (fun violation => "- " ++ violation) (feature_bleed (stats self))
       else ["**Result: PASS**"; "No prohibited cross-feature imports detected."])
   +++ [EmptyString; "### 2.2 Transformer Usage"]
   +++ (if nonempty transformers
       then "| File | Usage |" :: "|------|-------|"
              :: map (fun t => "| " ++ t ++ " |") transformers
       else ["No explicit transformer imports found."])
   +++ [EmptyString]).

(** Body of the loop over [self.mandate_checks.items()]. *)
Definition mandate_check_lines (self : FeatureAuditor) (entry : string * Verdict)
  : list string :=
  let (check, status) := entry in
  let display_name := title (replace_char "_" " " check) in
  ([ "### 3.x " ++ display_name; "**Status: " ++ verdict_str status ++ "**" ]
   +++ (if is_FAIL status
       then map (fun r => "- " ++ r)
                (filter (fun i => contains check (lower i)) (issues self))
       else [])
   +++ [EmptyString]).

Definition mandate_lines (self : FeatureAuditor) : list string :=
  ([ "## 3. Sacred Mandate Compliance"; EmptyString ]
   +++ flat_map (mandate_check_lines self) (mandate_items (mandate_checks self))).

Definition performance_lines (self : FeatureAuditor) : list string :=
  ([ "## 4. Performance & Scalability";
     EmptyString;
     "### 4.1 React Compiler Check";
     "**Status: " ++ verdict_str (react_compiler (performance_checks self)) ++ "**" ]
   +++ (if is_FAIL (react_compiler (performance_checks self))
       then map (fun r => "- " ++ r)
                (filter (fun i => contains "watch" (lower i)) (issues self))
       else [])).

(** The list [out] at the end of [generate_markdown]. *)
Definition report_lines (today : Date) (self : FeatureAuditor)
    (entities : list Entity) (transformers : list string) : list string :=
  (header_lines self today
   +++ summary_lines self
   +++ issue_lines self
   +++ inventory_lines self
   +++ entity_lines entities
   +++ dependency_lines self transformers
   +++ mandate_lines self
   +++ performance_lines self).

(** [generate_markdown]: the report text and the auditor it leaves. *)
Definition generate_markdown (today : Date) (self : FeatureAuditor)
  : string * FeatureAuditor :=
  let '(entities, transformers, self) := run_checks self in
  (join nl (report_lines today self entities transformers), self).

(* ================================================================== *)
(** ** The file system, scan_files and the command line *)
(* ================================================================== *)

(** A node of the file system under [FEATURES_DIR].  A file carries what
    [open(path).read()] returns, or nothing when opening or decoding it
    raises; a directory carries its entries in the order [os.scandir]
    lists them, or nothing when it cannot be listed. *)
#[local] Set Warnings "-register-all".

Inductive FsNode : Type :=
| FsFile (text : option string)
| FsDir (listing : option (list (string * FsNode))).

Definition dir_names (entries : list (string * FsNode)) : list string :=
  flat_map (fun e => match snd e with FsDir _ => [fst e] | FsFile _ => [] end) entries.

Definition file_entries (entries : list (string * FsNode)) : list (string * option string) :=
  flat_map (fun e => match snd e with FsFile t => [(fst e, t)] | FsDir _ => [] end) entries.

(** [os.walk(top)], top-down and with its default [onerror=None]: a
    directory that cannot be listed (missing, not a directory, no
    permission) yields nothing and the walk goes on.  Each item is
    [(root, dirs, files)]; a file comes with what reading it will give. *)
Fixpoint walk (top : string) (node : FsNode) {struct node}
  : list (string * list string * list (string * option string)) :=
  match node with
  | FsDir (Some entries) =>
      (top, dir_names entries, file_entries entries)
      :: (fix walk_children (l : list (string * FsNode)) :=
            match l with
            | [] => []
            | (d, child) :: l' => walk (top ++ "/" ++ d) child +++ walk_children l'
            end) entries
  | _ => []
  end.

Definition os_walk (top : string) (node : option FsNode)
  : list (string * list string * list (string * option string)) :=
  match node with
  | Some n => walk top n
  | None => []
  end.

(** [file.endswith((".ts", ".tsx"))] *)
Definition is_source_name (file : string) : bool :=
  endswith ".ts" file || endswith ".tsx" file.

(** The dictionary [scan_files] appends for the file [file] of the
    directory [root] (a path relative to [PROJECT_ROOT]) once its text is
    read.  [root] comes from the walk of the feature directory and [file]
    from its listing, so [Path(root) / file] joins the two with a slash
    and [relative_to(PROJECT_ROOT)] does not raise. *)
Definition load_source (cwd root file text : string) : SourceFile :=
  let ls := splitlines text in
  {| path := cwd ++ "/" ++ root ++ "/" ++ file;
     rel_path := root ++ "/" ++ file;
     name := file;
     content := text;
     lines := List.length ls;
     line_content := ls |}.

(** The inner loop of [scan_files] over the files of one directory;
    [None] when [open] or [read] raises. *)
Fixpoint scan_dir (cwd root : string) (entries : list (string * option string))
    (acc : list SourceFile) : option (list SourceFile) :=
  match entries with
  | [] => Some acc
  | (file, text) :: rest =>
      if is_source_name file then
        match text with
        | Some c => scan_dir cwd root rest (acc +++ [load_source cwd root file c])
        | None => None
        end
      else scan_dir cwd root rest acc
  end.

Fixpoint scan_walk (cwd : string)
    (items : list (string * list string * list (string * option string)))
    (acc : list SourceFile) : option (list SourceFile) :=
  match items with
  | [] => Some acc
  | (root, _, fs) :: rest =>
      match scan_dir cwd root fs acc with
      | Some acc' => scan_walk cwd rest acc'
      | None => None
      end
  end.

(** What the script sees of the world: the working directory
    ([PROJECT_ROOT]), today's date, what [FEATURES_DIR / name] resolves to
    for each name, the files of [DOCS_DIR] (nothing when a file cannot be
    created there) and the lines printed so far. *)
Record World : Type := mkWorld {
  cwd : string;
  today : Date;
  features_dir : list (string * FsNode);
  docs_dir : option (list (string * string));
  stdout : list string
}.

Fixpoint lookup {A : Type} (k : string) (d : list (string * A)) : option A :=
  match d with
  | [] => None
  | (k', v) :: d' => if String.eqb k' k then Some v else lookup k d'
  end.

(** [FeatureAuditor.scan_files].  The directories of the walk lie under
    [feature_path], which for a feature name of one path component lies
    under [PROJECT_ROOT]: [relative_to] then gives the path the walk
    yields, and the only call that can raise is the reading of a file. *)
Definition scan_files (w : World) (self : FeatureAuditor) : option FeatureAuditor :=
  match scan_walk (cwd w)
          (os_walk (feature_path self) (lookup (feature_name self) (features_dir w)))
          (files self) with
  | Some fs => Some (set_files self fs)
  | None => None
  end.

(** How a run of the script ends: [sys.exit(status)] or falling off the
    end (status 0), or an exception nobody catches. *)
Inductive Outcome : Type :=
| Exit (status : nat)
| Uncaught.

(** [open(output_path, "w")] followed by [write]. *)
Definition write_file (file text : string) (d : list (string * string))
  : list (string * string) :=
  (file, text) :: filter (fun e => negb (String.eqb (fst e) file)) d.

Definition print (line : string) (w : World) : World :=
  mkWorld (cwd w) (today w) (features_dir w) (docs_dir w) (stdout w +++ [line]).

Definition set_docs_dir (w : World) (d : list (string * string)) : World :=
  mkWorld (cwd w) (today w) (features_dir w) (Some d) (stdout w).

Definition report_name (feature : string) : string := "audit-" ++ feature ++ ".md".

(** The [__main__] block; [argv] is [sys.argv].  Opening the report
    file and writing it are one step: [docs_dir = None] stands for a file
    that cannot be created, and a write that fails after the file was
    created is not modelled. *)
Definition main (argv : list string) (w : World) : Outcome * World :=
  match argv with
  | _ :: feature :: _ =>
      let auditor := init feature in
      match scan_files w auditor with
      | None => (Uncaught, w)
      | Some auditor =>
          let (report, _) := generate_markdown (today w) auditor in
          match docs_dir w with
          | None => (Uncaught, w)
          | Some d =>
              let w := set_docs_dir w (write_file (report_name feature) report d) in
              (Exit 0,
               print ("Report written to " ++ cwd w ++ "/docs/documentation/"
                      ++ report_name feature) w)
          end
      end
  | _ => (Exit 1, print "Usage: python audit_feature.py <feature_name>" w)
  end.

(** The report a run leaves in [DOCS_DIR], if any. *)
Definition written_report (feature : string) (w : World) : option string :=
  match docs_dir w with
  | Some d => lookup (report_name feature) d
  | None => None
  end.

(* ================================================================== *)
(** ** What the loops compute *)
(* ================================================================== *)

(** The findings of each check, file by file. *)
Definition file_naming_violations (f : SourceFile) : list string :=
  if contains "domain" (rel_path f)
  then map (fun prop => naming_message prop (rel_path f)) (findall_snake (content f))
  else [].

Definition naming_violations_of (fs : list SourceFile) : list string :=
  flat_map file_naming_violations fs.

Definition entities_of (fs : list SourceFile) : list Entity :=
  flat_map (fun f => map (entity_of_match (rel_path f)) (findall_entity (content f))) fs.

Definition line_bleed (feature rel : string) (il : nat * string) : list string :=
  fst (dependency_line feature rel ([], []) il).

Definition line_transformers (feature rel : string) (il : nat * string) : list string :=
  snd (dependency_line feature rel ([], []) il).

Definition file_bleed (feature : string) (f : SourceFile) : list string :=
  flat_map (line_bleed feature (rel_path f)) (enumerate (line_content f)).

Definition file_transformers (feature : string) (f : SourceFile) : list string :=
  flat_map (line_transformers feature (rel_path f)) (enumerate (line_content f)).

Definition bleed_of (feature : string) (fs : list SourceFile) : list string :=
  flat_map (file_bleed feature) fs.

Definition transformers_of (feature : string) (fs : list SourceFile) : list string :=
  flat_map (file_transformers feature) fs.

Definition float_flagged (f : SourceFile) : bool :=
  mentions_financial (content f) && mentions_float (content f).

Definition float_violations_of (fs : list SourceFile) : list string :=
  map (fun f => float_message (rel_path f)) (filter float_flagged fs).

Definition has_financial_of (fs : list SourceFile) : bool :=
  existsb (fun f => mentions_financial (content f)) fs.

Definition has_marker (f : SourceFile) : bool :=
  contains "deleted_at" (content f) || contains "deletedAt" (content f).

(** A file the soft-delete rule is about: it mentions delete and lives
    under a repository path. *)
Definition delete_repository_file (f : SourceFile) : bool :=
  contains "delete" (lower (content f)) && contains "repository" (rel_path f).

Definition delete_flagged (f : SourceFile) : bool :=
  delete_repository_file f && negb (has_marker f).

Definition delete_violations_of (fs : list SourceFile) : list string :=
  map (fun f => delete_message (rel_path f)) (filter delete_flagged fs).

Definition uses_supabase_auth (f : SourceFile) : bool :=
  contains "supabase.auth." (content f).

Definition auth_violations_of (feature : string) (fs : list SourceFile) : list string :=
  if String.eqb feature "auth" then []
  else map (fun f => auth_message (rel_path f)) (filter uses_supabase_auth fs).

Definition watch_flagged (f : SourceFile) : bool :=
  contains "watch(" (content f) && negb (contains "useWatch" (content f))
  && contains "react-hook-form" (content f).

Definition watch_violations_of (fs : list SourceFile) : list string :=
  map (fun f => watch_message (rel_path f)) (filter watch_flagged fs).

(* ================================================================== *)
(** ** The auditor after the four checks *)
(* ================================================================== *)

(** The state the checks leave when they start from [__init__] with the
    scanned files: every field written out. *)
Definition audited_state (feature : string) (fs : list SourceFile) : FeatureAuditor :=
  {| feature_name := feature;
     feature_path := "features/" ++ feature;
     files := fs;
     issues := naming_violations_of fs +++ bleed_of feature fs
               +++ float_violations_of fs +++ delete_violations_of fs
               +++ auth_violations_of feature fs +++ watch_violations_of fs;
     stats := {| entity_registry := PASS;
                 dependency_manifest :=
                   if nonempty (bleed_of feature fs) then FAIL else PASS;
                 sacred_mandate := PASS;
                 performance := PASS;
                 naming := if nonempty (naming_violations_of fs) then FAIL else PASS;
                 feature_bleed := bleed_of feature fs |};
     mandate_checks :=
       {| integer_cents :=
            if has_financial_of fs
            then (if nonempty (float_violations_of fs) then FAIL else PASS)
            else NA;
          sync_integrity := NA;
          soft_deletes := if nonempty (delete_violations_of fs) then WARNING else NA;
          auth_abstraction :=
            if nonempty (auth_violations_of feature fs) then FAIL else PASS |};
     performance_checks :=
       {| react_compiler := if nonempty (watch_violations_of fs) then FAIL else PASS;
          re_render := PASS |} |}.

(** The auditor as [generate_markdown] leaves it for a freshly built
    object whose [files] were filled by [scan_files]. *)
Definition audit (feature : string) (fs : list SourceFile) : FeatureAuditor :=
  snd (run_checks (set_files (init feature) fs)).

(* ================================================================== *)
(** ** Vocabulary of the statements on runs and reports *)
(* ================================================================== *)

(** The names of all files the directory walk of a feature lists. *)
Definition walked_files (w : World) (feature : string) : list string :=
  flat_map (fun item => map fst (snd item))
    (os_walk ("features/" ++ feature) (lookup feature (features_dir w))).

(** Every verdict an auditor holds: the five of [stats], the four of
    [mandate_checks], the two of [performance_checks]. *)
Definition all_verdicts (a : FeatureAuditor) : list Verdict :=
  [ entity_registry (stats a); dependency_manifest (stats a); sacred_mandate (stats a);
    performance (stats a); naming (stats a);
    integer_cents (mandate_checks a); sync_integrity (mandate_checks a);
    soft_deletes (mandate_checks a); auth_abstraction (mandate_checks a);
    react_compiler (performance_checks a); re_render (performance_checks a) ].

(** Whether [FEATURES_DIR / feature] is a directory that can be listed. *)
Definition feature_dir_listable (w : World) (feature : string) : bool :=
  match lookup feature (features_dir w) with
  | Some (FsDir (Some _)) => true
  | _ => false
  end.

Definition report_path (w : World) (feature : string) : string :=
  cwd w ++ "/docs/documentation/" ++ report_name feature.



(* ================================================================== *)
(** ** Vocabulary of the statements on the naming scanner *)
(* ================================================================== *)

Module Scanner.

Fixpoint allb (p : ascii -> bool) (s : string) : bool :=
  match s with
  | EmptyString => true
  | String c s' => p c && allb p s'
  end.

(** Whether a text ends with a newline. *)
Fixpoint ends_nl (s : string) : bool :=
  match s with
  | EmptyString => false
  | String c s' =>
      match s' with
      | EmptyString => is_newline c
      | _ => ends_nl s'
      end
  end.

(** A position where the multi-line anchor of the pattern holds: the start
    of the text or right after a newline. *)
Definition at_line_start (before : string) : bool :=
  match before with
  | EmptyString => true
  | _ => ends_nl before
  end.

Definition no_newline (s : string) : bool := allb (fun c => negb (is_newline c)) s.

(** The text the naming pattern matches, with the group it captures:
    white space, one or more of a-z, an underscore, any of a-z 0-9 _, an
    optional question mark, white space, a colon. *)
Inductive snake_decl : string -> string -> Prop :=
| SnakeDecl (ws a b q ws' : string) :
    allb is_space ws = true ->
    allb is_az a = true ->
    a <> EmptyString ->
    allb is_az09_ b = true ->
    q = EmptyString \/ q = "?" ->
    allb is_space ws' = true ->
    snake_decl (ws ++ a ++ String "_" (b ++ q ++ ws' ++ ":")) (a ++ String "_" b).

Definition stops (p : ascii -> bool) (s : string) : Prop :=
  match s with
  | EmptyString => True
  | String c _ => p c = false
  end.

End Scanner.

Import Scanner.

(** What follows a line in a text: nothing, or a newline and more text. *)
Definition starts_next_line (after : string) : bool :=
  match after with
  | EmptyString => true
  | String c _ => is_newline c
  end.

Definition next_lines (after : string) : string :=
  match after with
  | EmptyString => EmptyString
  | String _ s => s
  end.

(* ================================================================== *)
(** ** Vocabulary of the statements on import paths *)
(* ================================================================== *)

(** The claim's words for the target of an import path: the path segment
    that comes right after the leading "@/features/" or "../../features/",
    that is, the text up to the next slash. *)
Fixpoint upto_slash (s : string) : string :=
  match s with
  | EmptyString => EmptyString
  | String c s' => if is_slash c then EmptyString else String c (upto_slash s')
  end.

Definition segment_after_features (path_str : string) : option string :=
  match strip_prefix "@/features/" path_str with
  | Some r => Some (upto_slash r)
  | None =>
      match strip_prefix "../../features/" path_str with
      | Some r => Some (upto_slash r)
      | None => None
      end
  end.

(* ================================================================== *)
(** ** Features and worlds used as concrete inputs *)
(* ================================================================== *)

Definition session_ts : SourceFile :=
  load_source "/proj" "features/accounts/api" "session.ts"
    "const user = await supabase.auth.getUser();".

Definition form_tsx : SourceFile :=
  load_source "/proj" "features/accounts/ui" "form.tsx"
    "import { useForm } from 'react-hook-form'; const v = watch('name');".

Definition account_repository_ts : SourceFile :=
  load_source "/proj" "features/accounts/repository" "accountRepository.ts"
    "async delete(id) { return db.update({ deleted_at: now() }); }".

Definition ledger_ts : SourceFile :=
  load_source "/proj" "features/accounts/domain" "ledger.ts"
    "export const openingBalance = 0;".

Definition ratio_ts : SourceFile :=
  load_source "/proj" "features/accounts/utils" "ratio.ts"
    "export function ratio(a: number, b: number) { return parseFloat(a / b); }".

Definition user_ts : SourceFile :=
  load_source "/proj" "features/accounts/domain" "user.ts"
    ("export interface User {" ++ nl ++ "  user_id: string;" ++ nl
     ++ "  displayName: string;" ++ nl ++ "}").

(** A domain file that declares two snake_case fields, neither at the
    start of its line: one inside a one-line interface, one after the
    modifier readonly. *)
Definition inline_user_ts : SourceFile :=
  load_source "/proj" "features/accounts/domain" "inlineUser.ts"
    ("export interface User { user_id: string; }" ++ nl
     ++ "export class Account {" ++ nl
     ++ "  readonly account_id: string;" ++ nl ++ "}").

Definition client_ts : SourceFile :=
  load_source "/proj" "features/billing/api" "client.ts"
    ("import { Button } from " ++ dq ++ "@/features/sharedfeatures/Button" ++ dq ++ ";").

Definition docs_only_world : World :=
  {| cwd := "/proj";
     today := mkDate 2024 3 9;
     features_dir :=
       [ ("notes", FsDir (Some [ ("README.md", FsFile (Some "Notes"));
                                 ("assets", FsDir (Some [("logo.svg", FsFile None)])) ])) ];
     docs_dir := Some [];
     stdout := [] |}.

(* ================================================================== *)
(** ** to_camel_case *)
(* ================================================================== *)

(** [s[1:]] *)
Definition drop_first (s : string) : string :=
  match s with
  | EmptyString => EmptyString
  | String _ s' => s'
  end.

(** [to_camel_case(s)]: [s[0].lower() + s.replace("_", "").replace("-", "")[1:]].
    [None] stands for the [IndexError] that [s[0]] raises on the empty
    string.  [s[0].lower()] is [lower] of the one-character text: over the
    Latin-1 characters of the embedding it is one character again, which
    Python does not promise for every code point. *)
Definition to_camel_case (s : string) : option string :=
  match s with
  | EmptyString => None
  | String c _ =>
      Some (lower (String c EmptyString)
            ++ drop_first (replace_char "-" EmptyString
                             (replace_char "_" EmptyString s)))
  end.

(** The two characters [to_camel_case] removes. *)
Definition is_separator (c : ascii) : bool := Ascii.eqb c "_" || Ascii.eqb c "-".

(** A text with every underscore and hyphen left out. *)
Fixpoint without_separators (s : string) : string :=
  match s with
  | EmptyString => EmptyString
  | String c s' =>
      if is_separator c then without_separators s' else String c (without_separators s')
  end.

Fixpoint count_separators (s : string) : nat :=
  match s with
  | EmptyString => 0
  | String c s' => (if is_separator c then 1 else 0) + count_separators s'
  end.

(* ================================================================== *)
(** ** Vocabulary of the statements on the order of the checks *)
(* ================================================================== *)

(** The four check methods [generate_markdown] calls. *)
Inductive Check : Type :=
| CheckRegistry
| CheckDependencies
| CheckMandate
| CheckPerformance.

(** The auditor a check method leaves (what it returns is dropped). *)
Definition run_check (c : Check) (self : FeatureAuditor) : FeatureAuditor :=
  match c with
  | CheckRegistry => snd (audit_variable_entity_registry self)
  | CheckDependencies => snd (audit_dependencies self)
  | CheckMandate => audit_sacred_mandate self
  | CheckPerformance => audit_performance self
  end.

Definition run_in_order (l : list Check) (self : FeatureAuditor) : FeatureAuditor :=
  fold_left (fun s c => run_check c s) l self.

(** The order of the calls in [generate_markdown]. *)
Definition source_order : list Check :=
  [CheckRegistry; CheckDependencies; CheckMandate; CheckPerformance].

(** What a check appends to [issues]. *)
Definition check_findings (c : Check) (feature : string) (fs : list SourceFile)
  : list string :=
  match c with
  | CheckRegistry => naming_violations_of fs
  | CheckDependencies => bleed_of feature fs
  | CheckMandate =>
      float_violations_of fs +++ delete_violations_of fs +++ auth_violations_of feature fs
  | CheckPerformance => watch_violations_of fs
  end.

(** What a check does to the three dictionaries. *)
Definition check_stats (c : Check) (feature : string) (fs : list SourceFile) (st : Stats)
  : Stats :=
  match c with
  | CheckRegistry => if nonempty (naming_violations_of fs) then set_naming st FAIL else st
  | CheckDependencies =>
      if nonempty (bleed_of feature fs)
      then set_feature_bleed (set_dependency_manifest st FAIL) (bleed_of feature fs)
      else st
  | _ => st
  end.

Definition check_mandate (c : Check) (feature : string) (fs : list SourceFile)
    (m : MandateChecks) : MandateChecks :=
  match c with
  | CheckMandate =>
      let m1 :=
        if has_financial_of fs
        then set_integer_cents m (if nonempty (float_violations_of fs) then FAIL else PASS)
        else m in
      let m2 :=
        if nonempty (delete_violations_of fs) then set_soft_deletes m1 WARNING else m1 in
      set_auth_abstraction m2
        (if nonempty (auth_violations_of feature fs) then FAIL else PASS)
  | _ => m
  end.

Definition check_performance (c : Check) (fs : list SourceFile) (p : PerformanceChecks)
  : PerformanceChecks :=
  match c with
  | CheckPerformance =>
      if nonempty (watch_violations_of fs) then set_react_compiler p FAIL else p
  | _ => p
  end.

(** Two auditors that agree on everything but the order of [issues]. *)
Definition same_up_to_issue_order (a b : FeatureAuditor) : Prop :=
  feature_name a = feature_name b
  /\ feature_path a = feature_path b
  /\ files a = files b
  /\ stats a = stats b
  /\ mandate_checks a = mandate_checks b
  /\ performance_checks a = performance_checks b
  /\ Permutation (issues a) (issues b).

(* ================================================================== *)
(** ** Vocabulary of the statements on scan_files *)
(* ================================================================== *)

(** The files a walk lists, each as (directory, name, what reading gives),
    in the order [scan_files] meets them. *)
Definition walk_entries
    (items : list (string * list string * list (string * option string)))
  : list (string * string * option string) :=
  flat_map (fun item => map (fun e => (fst (fst item), fst e, snd e)) (snd item)) items.

Definition is_source_entry (e : string * string * option string) : bool :=
  is_source_name (snd (fst e)).

Definition is_readable (e : string * string * option string) : bool :=
  match snd e with
  | Some _ => true
  | None => false
  end.

Definition load_entry (cwd : string) (e : string * string * option string)
  : list SourceFile :=
  match snd e with
  | Some text => [load_source cwd (fst (fst e)) (snd (fst e)) text]
  | None => []
  end.

(** The feature names the statements on [scan_files] and on runs are
    about: one path component.  For such a name [FEATURES_DIR / name] is
    [PROJECT_ROOT/features/<name>] as written and every path below it is
    relative to [PROJECT_ROOT].  Left out are the empty name and the dot
    (which pathlib drops), a name with a slash (an absolute name replaces
    [FEATURES_DIR], and [relative_to] then raises; a doubled or trailing
    slash is normalised away) and a name with a NUL character. *)
Definition plain_name (s : string) : bool :=
  negb (String.eqb s EmptyString) && negb (String.eqb s ".")
  && allb (fun c => negb (Ascii.eqb c "/") && negb (Ascii.eqb c zero)) s.

(** An auditor as [__init__] names it, in any later state. *)
Definition well_named (self : FeatureAuditor) : Prop :=
  plain_name (feature_name self) = true
  /\ feature_path self = "features/" ++ feature_name self.

(** The walk [scan_files] makes for an auditor. *)
Definition feature_walk (w : World) (self : FeatureAuditor)
  : list (string * list string * list (string * option string)) :=
  os_walk (feature_path self) (lookup (feature_name self) (features_dir w)).

(** What every entry built by [scan_files] for a feature satisfies. *)
Definition scanned_file_ok (feature : string) (f : SourceFile) : Prop :=
  is_source_name (name f) = true
  /\ line_content f = splitlines (content f)
  /\ lines f = List.length (line_content f)
  /\ startswith ("features/" ++ feature ++ "/") (rel_path f) = true
  /\ exists root, rel_path f = root ++ "/" ++ name f.

(** A project with the feature accounts (two source files, a text file
    that cannot be read, a folder that cannot be listed) and the feature
    domain-events, whose name contains the word domain. *)
Definition accounts_world : World :=
  {| cwd := "/proj";
     today := mkDate 2024 3 9;
     features_dir :=
       [ ("accounts",
          FsDir (Some
            [ ("README.md", FsFile None);
              ("domain", FsDir (Some
                 [ ("user.ts",
                    FsFile (Some ("export interface User {" ++ nl ++ "  user_id: string;"
                                  ++ nl ++ "}"))) ]));
              ("api", FsDir (Some
                 [ ("session.ts",
                    FsFile (Some "const user = await supabase.auth.getUser();")) ]));
              ("ui", FsDir None) ]));
         ("domain-events",
          FsDir (Some
            [ ("api", FsDir (Some
                 [ ("payload.ts",
                    FsFile (Some ("export type Payload = {" ++ nl ++ "  event_id: string;"
                                  ++ nl ++ "}"))) ])) ]));
         ("broken",
          FsDir (Some [ ("index.ts", FsFile None) ])) ];
     docs_dir := Some [("audit-accounts.md", "old report"); ("README.md", "docs")];
     stdout := [] |}.

(** The auditor a scan gives, or a new auditor when the scan raises. *)
Definition scanned (w : World) (feature : string) : FeatureAuditor :=
  match scan_files w (init feature) with
  | Some a => a
  | None => init feature
  end.

(** What every row of the entity inventory satisfies for a file list. *)
Definition entity_ok (fs : list SourceFile) (e : Entity) : Prop :=
  (entity_kind e = "interface" \/ entity_kind e = "type" \/ entity_kind e = "class")
  /\ entity_name e <> EmptyString
  /\ allb is_alnum (entity_name e) = true
  /\ exists f, In f fs /\ entity_file e = rel_path f
               /\ contains (entity_kind e ++ " " ++ entity_name e) (content f) = true.

(** A list of messages that all start with the words [tag]. *)
Definition tagged (tag : string) (l : list string) : Prop :=
  Forall (fun m => exists x, m = tag ++ x) l.

Definition orders_ts : SourceFile :=
  load_source "/proj" "features/billing/api" "orders.ts"
    ("// orders" ++ nl
     ++ "import { Order } from " ++ dq ++ "@/features/orders/domain/order" ++ dq ++ ";" ++ nl
     ++ "import { money } from " ++ dq ++ "@/features/shared/money" ++ dq ++ ";").

(** A domain file whose path contains the word watch, and a file that
    mentions a price and a float. *)
Definition watchlist_ts : SourceFile :=
  load_source "/proj" "features/accounts/domain" "watchlist.ts"
    ("export interface Watchlist {" ++ nl ++ "  list_id: string;" ++ nl ++ "}").

Definition price_ts : SourceFile :=
  load_source "/proj" "features/accounts/utils" "price.ts"
    "const price: number = parseFloat(raw);".

(* ================================================================== *)
(** ** Vocabulary of the statements on two runs *)
(* ================================================================== *)






(* ================================================================== *)
(** * Properties *)
(* ================================================================== *)

(* ================================================================== *)
(** ** The string primitives on concrete inputs *)
(* ================================================================== *)

Example lower_ex : lower "Total BALANCE" = "total balance".
Proof. reflexivity. Qed.

Example splitlines_ex :
  splitlines (String "a" (String "013" (String "010" (String "b" (String "010" (String "010" EmptyString))))))
  = ["a"; "b"; EmptyString].
Proof. reflexivity. Qed.

Example split_ex :
  split "features/" "@/features/sharedfeatures/x" = ["@/"; "shared"; "x"].
Proof. reflexivity. Qed.

Example title_ex : title (replace_char "_" " " "sync_integrity") = "Sync Integrity".
Proof. reflexivity. Qed.

Example strip_ex : strip "   import x  " = "import x".
Proof. reflexivity. Qed.

Example dirname_ex : dirname "features/accounts/domain/types.ts" = "features/accounts/domain".
Proof. reflexivity. Qed.

Example str_of_nat_ex : str_of_nat 120 = "120" /\ zfill 2 7 = "07" /\ str_of_nat 0 = "0".
Proof. repeat split. Qed.

(* ================================================================== *)
(** ** The scanners on concrete inputs *)
(* ================================================================== *)

Example findall_snake_ex :
  findall_snake ("export interface User {" ++ nl ++ "  user_id: string;" ++ nl
                 ++ "  displayName?: string;" ++ nl ++ "  created_at? : number;" ++ nl ++ "}")
  = ["user_id"; "created_at"].
Proof. reflexivity. Qed.

Example findall_snake_inline :
  findall_snake "interface X { user_id: string }" = [].
Proof. reflexivity. Qed.

Example findall_entity_ex :
  findall_entity ("export interface User {}" ++ nl ++ "type Id = string; class A1 {}")
  = [("export ", "interface", "User"); (EmptyString, "type", "Id"); (EmptyString, "class", "A1")].
Proof. reflexivity. Qed.

Example search_from_ex :
  search_from ("import { X } from " ++ dq ++ "@/features/billing/api" ++ dq ++ ";")
  = Some "@/features/billing/api"
  /\ search_from ("import " ++ dq ++ "@/features/billing/styles.css" ++ dq ++ ";") = None.
Proof. split; reflexivity. Qed.

(* ================================================================== *)
(** ** What the loops compute *)
(* ================================================================== *)

Lemma registry_loop (fs : list SourceFile) :
  forall entities violations,
    fold_left registry_body fs (entities, violations)
    = (entities +++ entities_of fs, violations +++ naming_violations_of fs).
Proof.
  induction fs as [|f fs IH]; intros entities violations; simpl.
  - now rewrite !app_nil_r.
  - unfold file_naming_violations.
    destruct (contains "domain" (rel_path f)); rewrite IH.
    + now rewrite <- !app_assoc.
    + now rewrite <- !app_assoc.
Qed.

Lemma dependency_line_acc (feature rel : string) (il : nat * string) :
  forall bleed transformers,
    dependency_line feature rel (bleed, transformers) il
    = (bleed +++ line_bleed feature rel il,
       transformers +++ line_transformers feature rel il).
Proof.
  intros bleed transformers.
  unfold line_bleed, line_transformers, dependency_line.
  destruct il as [i line].
  destruct (startswith "import " (strip line)); [|now rewrite !app_nil_r].
  destruct (search_from line) as [path_str|]; [|now rewrite !app_nil_r].
  repeat match goal with
         | |- context [if ?b then _ else _] => destruct b
         end; simpl; now rewrite ?app_nil_r.
Qed.

Lemma dependency_lines_loop (feature rel : string) (ils : list (nat * string)) :
  forall bleed transformers,
    fold_left (dependency_line feature rel) ils (bleed, transformers)
    = (bleed +++ flat_map (line_bleed feature rel) ils,
       transformers +++ flat_map (line_transformers feature rel) ils).
Proof.
  induction ils as [|il ils IH]; intros bleed transformers; cbn [fold_left flat_map].
  - now rewrite !app_nil_r.
  - destruct (dependency_line feature rel (bleed, transformers) il) as [b t] eqn:E.
    rewrite dependency_line_acc in E. injection E as <- <-.
    rewrite IH. now rewrite <- !app_assoc.
Qed.

Lemma dependency_loop (feature : string) (fs : list SourceFile) :
  forall bleed transformers,
    fold_left (dependency_body feature) fs (bleed, transformers)
    = (bleed +++ bleed_of feature fs, transformers +++ transformers_of feature fs).
Proof.
  induction fs as [|f fs IH]; intros bleed transformers;
    cbn [fold_left flat_map bleed_of transformers_of].
  - now rewrite !app_nil_r.
  - unfold dependency_body at 2. rewrite dependency_lines_loop, IH.
    unfold bleed_of, transformers_of, file_bleed, file_transformers.
    now rewrite <- !app_assoc.
Qed.

Lemma integer_cents_loop (fs : list SourceFile) :
  forall has_financial violations,
    fold_left integer_cents_body fs (has_financial, violations)
    = (has_financial || has_financial_of fs, violations +++ float_violations_of fs).
Proof.
  induction fs as [|f fs IH]; intros h v; simpl.
  - now rewrite orb_false_r, app_nil_r.
  - unfold float_violations_of, float_flagged in *. simpl.
    destruct (mentions_financial (content f)); simpl.
    + destruct (mentions_float (content f)); simpl; rewrite IH; simpl;
        rewrite ?orb_true_r, <- ?app_assoc; reflexivity.
    + now rewrite IH.
Qed.

Lemma soft_delete_loop (fs : list SourceFile) :
  forall has_delete violations,
    fold_left soft_delete_body fs (has_delete, violations)
    = (has_delete || nonempty (delete_violations_of fs),
       violations +++ delete_violations_of fs).
Proof.
  induction fs as [|f fs IH]; intros h v; simpl.
  - now rewrite orb_false_r, app_nil_r.
  - unfold delete_violations_of, delete_flagged, delete_repository_file, has_marker in *.
    simpl.
    destruct (contains "delete" (lower (content f))); simpl; [|now rewrite IH].
    destruct (contains "deleted_at" (content f)); simpl;
      [rewrite andb_false_r; now rewrite IH|].
    destruct (contains "deletedAt" (content f)); simpl;
      [rewrite andb_false_r; now rewrite IH|].
    destruct (contains "repository" (rel_path f)); simpl; rewrite IH; simpl;
      rewrite ?orb_true_r, <- ?app_assoc; reflexivity.
Qed.

Lemma auth_loop (feature : string) (fs : list SourceFile) :
  forall violations,
    fold_left (auth_body feature) fs violations
    = violations +++ auth_violations_of feature fs.
Proof.
  unfold auth_violations_of.
  induction fs as [|f fs IH]; intros v; cbn [fold_left filter].
  - destruct (String.eqb feature "auth"); now rewrite app_nil_r.
  - rewrite IH. unfold auth_body, uses_supabase_auth.
    destruct (contains "supabase.auth." (content f)); [|reflexivity].
    destruct (String.eqb feature "auth"); simpl;
      rewrite <- ?app_assoc; reflexivity.
Qed.

Lemma performance_loop (fs : list SourceFile) :
  forall violations,
    fold_left performance_body fs violations = violations +++ watch_violations_of fs.
Proof.
  unfold watch_violations_of.
  induction fs as [|f fs IH]; intros v; cbn [fold_left filter].
  - now rewrite app_nil_r.
  - rewrite IH. unfold performance_body, watch_flagged.
    destruct (contains "watch(" (content f)); simpl; [|reflexivity].
    destruct (contains "useWatch" (content f)); simpl; [reflexivity|].
    destruct (contains "react-hook-form" (content f)); simpl;
      rewrite <- ?app_assoc; reflexivity.
Qed.

(* ================================================================== *)
(** ** The auditor after the four checks *)
(* ================================================================== *)

(** Unfold the attribute updates and read the fields back. *)
Ltac auditor_simpl :=
  unfold extend_issues, set_issues, set_stats, set_mandate_checks,
    set_performance_checks, set_files, set_naming, set_dependency_manifest,
    set_feature_bleed, set_integer_cents, set_soft_deletes, set_auth_abstraction,
    set_react_compiler;
  cbn [feature_name feature_path files issues stats mandate_checks performance_checks
       entity_registry dependency_manifest sacred_mandate performance naming
       feature_bleed integer_cents sync_integrity soft_deletes auth_abstraction
       react_compiler re_render nonempty];
  rewrite ?app_nil_r, <- ?app_assoc.

Lemma float_violations_need_financial (fs : list SourceFile) :
  has_financial_of fs = false -> float_violations_of fs = [].
Proof.
  unfold has_financial_of, float_violations_of, float_flagged.
  induction fs as [|f fs IH]; cbn [existsb filter map]; [reflexivity|].
  intros H. apply orb_false_iff in H. destruct H as [Hf Hfs].
  rewrite Hf. cbn [andb]. now apply IH.
Qed.

Lemma run_checks_spec (feature : string) (fs : list SourceFile) :
  run_checks (set_files (init feature) fs)
  = (entities_of fs, transformers_of feature fs, audited_state feature fs).
Proof.
  unfold run_checks, audit_variable_entity_registry.
  cbn [files set_files init].
  rewrite registry_loop. cbn [app].
  set (a1 := if nonempty (naming_violations_of fs) then _ else _).
  assert (H1 : a1 = mkFeatureAuditor feature ("features/" ++ feature) fs
                      (naming_violations_of fs)
                      (mkStats PASS PASS PASS PASS
                         (if nonempty (naming_violations_of fs) then FAIL else PASS) [])
                      (mkMandateChecks NA NA NA NA) (mkPerformanceChecks PASS PASS)).
  { subst a1. destruct (naming_violations_of fs); auditor_simpl; reflexivity. }
  rewrite H1. clear a1 H1.
  unfold audit_dependencies. cbn [files feature_name].
  rewrite dependency_loop. cbn [app].
  set (a2 := if nonempty (bleed_of feature fs) then _ else _).
  assert (H2 : a2 = mkFeatureAuditor feature ("features/" ++ feature) fs
                      (naming_violations_of fs +++ bleed_of feature fs)
                      (mkStats PASS
                         (if nonempty (bleed_of feature fs) then FAIL else PASS)
                         PASS PASS
                         (if nonempty (naming_violations_of fs) then FAIL else PASS)
                         (bleed_of feature fs))
                      (mkMandateChecks NA NA NA NA) (mkPerformanceChecks PASS PASS)).
  { subst a2. destruct (bleed_of feature fs); auditor_simpl; reflexivity. }
  rewrite H2. clear a2 H2.
  unfold audit_sacred_mandate, audit_integer_cents. cbn [files].
  rewrite integer_cents_loop. cbn [orb app].
  set (a3 := if has_financial_of fs then _ else _).
  assert (H3 : a3 = mkFeatureAuditor feature ("features/" ++ feature) fs
                      (naming_violations_of fs +++ bleed_of feature fs
                       +++ float_violations_of fs)
                      (mkStats PASS
                         (if nonempty (bleed_of feature fs) then FAIL else PASS)
                         PASS PASS
                         (if nonempty (naming_violations_of fs) then FAIL else PASS)
                         (bleed_of feature fs))
                      (mkMandateChecks
                         (if has_financial_of fs
                          then (if nonempty (float_violations_of fs) then FAIL else PASS)
                          else NA) NA NA NA)
                      (mkPerformanceChecks PASS PASS)).
  { subst a3. destruct (has_financial_of fs) eqn:Hfin.
    - destruct (float_violations_of fs); auditor_simpl; reflexivity.
    - rewrite (float_violations_need_financial fs Hfin). auditor_simpl. reflexivity. }
  rewrite H3. clear a3 H3.
  unfold audit_soft_deletes. cbn [files].
  rewrite soft_delete_loop. cbn [orb app].
  set (a4 := if nonempty (delete_violations_of fs) then _ else _).
  assert (H4 : a4 = mkFeatureAuditor feature ("features/" ++ feature) fs
                      (naming_violations_of fs +++ bleed_of feature fs
                       +++ float_violations_of fs +++ delete_violations_of fs)
                      (mkStats PASS
                         (if nonempty (bleed_of feature fs) then FAIL else PASS)
                         PASS PASS
                         (if nonempty (naming_violations_of fs) then FAIL else PASS)
                         (bleed_of feature fs))
                      (mkMandateChecks
                         (if has_financial_of fs
                          then (if nonempty (float_violations_of fs) then FAIL else PASS)
                          else NA) NA
                         (if nonempty (delete_violations_of fs) then WARNING else NA) NA)
                      (mkPerformanceChecks PASS PASS)).
  { subst a4. destruct (delete_violations_of fs); auditor_simpl;
      reflexivity. }
  rewrite H4. clear a4 H4.
  unfold audit_auth_abstraction. cbn [files feature_name].
  rewrite auth_loop. cbn [app].
  set (a5 := if nonempty (auth_violations_of feature fs) then _ else _).
  assert (H5 : a5 = mkFeatureAuditor feature ("features/" ++ feature) fs
                      (naming_violations_of fs +++ bleed_of feature fs
                       +++ float_violations_of fs +++ delete_violations_of fs
                       +++ auth_violations_of feature fs)
                      (mkStats PASS
                         (if nonempty (bleed_of feature fs) then FAIL else PASS)
                         PASS PASS
                         (if nonempty (naming_violations_of fs) then FAIL else PASS)
                         (bleed_of feature fs))
                      (mkMandateChecks
                         (if has_financial_of fs
                          then (if nonempty (float_violations_of fs) then FAIL else PASS)
                          else NA) NA
                         (if nonempty (delete_violations_of fs) then WARNING else NA)
                         (if nonempty (auth_violations_of feature fs) then FAIL else PASS))
                      (mkPerformanceChecks PASS PASS)).
  { subst a5. destruct (auth_violations_of feature fs); auditor_simpl;
      reflexivity. }
  rewrite H5. clear a5 H5.
  unfold audit_performance. cbn [files].
  rewrite performance_loop. cbn [app].
  unfold audited_state.
  destruct (watch_violations_of fs); auditor_simpl; reflexivity.
Qed.

Lemma audit_eq (feature : string) (fs : list SourceFile) :
  audit feature fs = audited_state feature fs.
Proof. unfold audit. now rewrite run_checks_spec. Qed.

Lemma generate_markdown_eq (today : Date) (feature : string) (fs : list SourceFile) :
  generate_markdown today (set_files (init feature) fs)
  = (join nl (report_lines today (audit feature fs)
                (entities_of fs) (transformers_of feature fs)),
     audit feature fs).
Proof.
  unfold generate_markdown, audit. now rewrite run_checks_spec.
Qed.

(** Membership in a filtered and mapped list of findings. *)
Lemma nonempty_map_filter {A B : Type} (g : A -> B) (p : A -> bool) (l : list A) :
  nonempty (map g (filter p l)) = existsb p l.
Proof.
  induction l as [|x l IH]; cbn [filter existsb]; [reflexivity|].
  destruct (p x); cbn [map nonempty orb]; [reflexivity | exact IH].
Qed.

(** The category verdicts of the summary table: two of them follow the
    findings, two are never written after [__init__]. *)
Lemma naming_verdict (feature : string) (fs : list SourceFile) :
  naming (stats (audit feature fs))
  = if nonempty (naming_violations_of fs) then FAIL else PASS.
Proof. now rewrite audit_eq. Qed.

Lemma dependency_verdict (feature : string) (fs : list SourceFile) :
  dependency_manifest (stats (audit feature fs))
  = if nonempty (bleed_of feature fs) then FAIL else PASS.
Proof. now rewrite audit_eq. Qed.

Lemma untouched_category_verdicts (feature : string) (fs : list SourceFile) :
  sacred_mandate (stats (audit feature fs)) = PASS
  /\ performance (stats (audit feature fs)) = PASS
  /\ entity_registry (stats (audit feature fs)) = PASS.
Proof. now rewrite audit_eq. Qed.

Lemma issues_audit (feature : string) (fs : list SourceFile) :
  issues (audit feature fs)
  = naming_violations_of fs +++ bleed_of feature fs
    +++ float_violations_of fs +++ delete_violations_of fs
    +++ auth_violations_of feature fs +++ watch_violations_of fs.
Proof. now rewrite audit_eq. Qed.

(* ================================================================== *)
(** ** Category verdicts of the summary (C1) *)
(* ================================================================== *)

(** C1.  A category verdict should be FAIL exactly when a finding was
    recorded for the category.  [audit_variable_entity_registry] and
    [audit_dependencies] write their category verdict; [audit_sacred_mandate]
    and [audit_performance] do not.  For the feature accounts with one file
    calling [supabase.auth.] and one file calling [watch(] of
    react-hook-form, both findings are recorded and both sub-check verdicts
    are FAIL, yet the category verdicts [sacred_mandate] and [performance]
    of the summary are still PASS. *)
Theorem C1_mandate_and_performance_categories_stay_PASS :
  let a := audit "accounts" [session_ts; form_tsx] in
  issues a = [ "Direct supabase.auth usage in features/accounts/api/session.ts";
               "Usage of watch() instead of useWatch in features/accounts/ui/form.tsx" ]
  /\ auth_abstraction (mandate_checks a) = FAIL
  /\ react_compiler (performance_checks a) = FAIL
  /\ sacred_mandate (stats a) = PASS
  /\ performance (stats a) = PASS.
Proof. vm_compute. repeat split. Qed.

(* ================================================================== *)
(** ** Sacred mandate: soft deletes (C3) *)
(* ================================================================== *)

Lemma soft_deletes_verdict (feature : string) (fs : list SourceFile) :
  soft_deletes (mandate_checks (audit feature fs))
  = if existsb delete_flagged fs then WARNING else NA.
Proof.
  rewrite audit_eq. cbn [soft_deletes mandate_checks audited_state].
  unfold delete_violations_of. now rewrite nonempty_map_filter.
Qed.

(** The verdict is WARNING exactly when a delete-mentioning repository
    file lacks both markers, and N/A in every other case. *)
Lemma soft_deletes_WARNING_iff (feature : string) (fs : list SourceFile) :
  soft_deletes (mandate_checks (audit feature fs)) = WARNING
  <-> exists f, In f fs /\ delete_repository_file f = true /\ has_marker f = false.
Proof.
  rewrite soft_deletes_verdict.
  destruct (existsb delete_flagged fs) eqn:E.
  - split; [intros _|reflexivity].
    apply existsb_exists in E. destruct E as [f [Hin Hf]].
    unfold delete_flagged in Hf. apply andb_true_iff in Hf. destruct Hf as [H1 H2].
    exists f. repeat split; auto. now apply negb_true_iff.
  - split; [discriminate|].
    intros [f [Hin [H1 H2]]].
    assert (existsb delete_flagged fs = true) as E'.
    { apply existsb_exists. exists f. split; auto.
      unfold delete_flagged. now rewrite H1, H2. }
    congruence.
Qed.

Lemma soft_deletes_never_PASS (feature : string) (fs : list SourceFile) :
  soft_deletes (mandate_checks (audit feature fs)) <> PASS
  /\ soft_deletes (mandate_checks (audit feature fs)) <> FAIL.
Proof.
  rewrite soft_deletes_verdict.
  destruct (existsb delete_flagged fs); split; discriminate.
Qed.

(** C3.  The soft-delete verdict should be PASS when delete-mentioning
    repository files exist and each of them contains a marker.  The loop
    sets [has_delete] only where it appends a violation, so the branch
    that writes PASS is never taken: for a feature whose only file is a
    repository file that mentions delete and contains deleted_at, the
    verdict stays N/A and nothing is recorded. *)
Theorem C3_marked_repository_file_gives_NA :
  let a := audit "accounts" [account_repository_ts] in
  delete_repository_file account_repository_ts = true
  /\ has_marker account_repository_ts = true
  /\ soft_deletes (mandate_checks a) = NA
  /\ issues a = [].
Proof. vm_compute. repeat split. Qed.

(* ================================================================== *)
(** ** Sacred mandate: integer cents (C4) *)
(* ================================================================== *)

Lemma integer_cents_verdict (feature : string) (fs : list SourceFile) :
  integer_cents (mandate_checks (audit feature fs))
  = if has_financial_of fs
    then (if existsb float_flagged fs then FAIL else PASS)
    else NA.
Proof.
  rewrite audit_eq. cbn [integer_cents mandate_checks audited_state].
  unfold float_violations_of. now rewrite nonempty_map_filter.
Qed.

(** C4, as stated, fails: one file mentions a financial term, another
    file references number and mentions float without any financial
    term; the verdict is PASS, and the claim says FAIL. *)
Lemma C4_flagged_file_without_financial_term :
  mentions_financial (content ledger_ts) = true
  /\ mentions_financial (content ratio_ts) = false
  /\ mentions_float (content ratio_ts) = true
  /\ integer_cents (mandate_checks (audit "accounts" [ledger_ts; ratio_ts])) = PASS
  /\ ~ (integer_cents (mandate_checks (audit "accounts" [ledger_ts; ratio_ts])) = FAIL
        <-> exists f, In f [ledger_ts; ratio_ts] /\ mentions_float (content f) = true).
Proof.
  assert (E : integer_cents (mandate_checks (audit "accounts" [ledger_ts; ratio_ts])) = PASS)
    by (vm_compute; reflexivity).
  repeat split; try (vm_compute; reflexivity).
  rewrite E. intros [_ H].
  assert (PASS = FAIL) by (apply H; exists ratio_ts; split;
                           [right; left; reflexivity | vm_compute; reflexivity]).
  discriminate.
Qed.

(** C4, amended.  The integer-cents verdict is N/A exactly when no file
    mentions a financial term; otherwise it is FAIL exactly when some file
    that itself mentions a financial term also references number and
    mentions float or double, and PASS when there is no such file. *)
Theorem C4_integer_cents_verdict (feature : string) (fs : list SourceFile) :
  let v := integer_cents (mandate_checks (audit feature fs)) in
  let flagged :=
    exists f, In f fs /\ mentions_financial (content f) = true
              /\ mentions_float (content f) = true in
  (v = NA <-> forall f, In f fs -> mentions_financial (content f) = false)
  /\ (v = FAIL <-> flagged)
  /\ (v = PASS <->
      (exists f, In f fs /\ mentions_financial (content f) = true) /\ ~ flagged).
Proof.
  cbv zeta. rewrite integer_cents_verdict.
  assert (Hfin : has_financial_of fs = true
                 <-> exists f, In f fs /\ mentions_financial (content f) = true).
  { unfold has_financial_of. rewrite existsb_exists. reflexivity. }
  assert (Hflag : existsb float_flagged fs = true
                  <-> exists f, In f fs /\ mentions_financial (content f) = true
                                /\ mentions_float (content f) = true).
  { rewrite existsb_exists. unfold float_flagged.
    split; intros [f [Hin H]]; exists f; split; auto.
    - now apply andb_true_iff in H.
    - now apply andb_true_iff. }
  assert (Himp : existsb float_flagged fs = true -> has_financial_of fs = true).
  { intros H. apply Hflag in H. destruct H as [f [Hin [H1 _]]].
    apply Hfin. now exists f. }
  destruct (has_financial_of fs) eqn:Efin; destruct (existsb float_flagged fs) eqn:Eflag.
  - split; [|split].
    + split; [discriminate|]. intros H. destruct (proj1 Hfin eq_refl) as [f [Hin Hf]].
      rewrite (H f Hin) in Hf. discriminate.
    + split; [intros _; now apply Hflag | reflexivity].
    + split; [discriminate|]. intros [_ Hn]. exfalso. apply Hn. now apply Hflag.
  - split; [|split].
    + split; [discriminate|]. intros H. destruct (proj1 Hfin eq_refl) as [f [Hin Hf]].
      rewrite (H f Hin) in Hf. discriminate.
    + split; [discriminate|]. intros H. apply Hflag in H. discriminate.
    + split; [intros _|reflexivity]. split; [now apply Hfin|].
      intros H. apply Hflag in H. discriminate.
  - specialize (Himp eq_refl). discriminate.
  - split; [|split].
    + split; [intros _|reflexivity]. intros f Hin.
      destruct (mentions_financial (content f)) eqn:E; [|reflexivity].
      assert (false = true) by (apply Hfin; now exists f).
      discriminate.
    + split; [discriminate|]. intros H. apply Hflag in H. discriminate.
    + split; [discriminate|]. intros [H _]. apply Hfin in H. discriminate.
Qed.

(* ================================================================== *)
(** ** Sacred mandate: auth abstraction (C5) *)
(* ================================================================== *)

(** C5.  The auth-abstraction verdict is never N/A after a run.  It is
    FAIL exactly when the feature is not named auth and some file contains
    the text supabase.auth., and PASS otherwise; the violations the loop
    collects are one message per such file, in file order, all of them
    recorded in [issues]; for the feature auth the list is empty and the
    verdict PASS whatever the files contain. *)
Theorem C5_auth_abstraction (feature : string) (fs : list SourceFile) :
  let a := audit feature fs in
  let v := auth_abstraction (mandate_checks a) in
  let auth_violations := fold_left (auth_body feature) fs [] in
  v <> NA
  /\ (v = FAIL <->
      feature <> "auth"
      /\ exists f, In f fs /\ contains "supabase.auth." (content f) = true)
  /\ (v = FAIL \/ v = PASS)
  /\ auth_violations
     = (if String.eqb feature "auth" then []
        else map (fun f => auth_message (rel_path f))
                 (filter (fun f => contains "supabase.auth." (content f)) fs))
  /\ incl auth_violations (issues a)
  /\ auth_abstraction (mandate_checks (audit "auth" fs)) = PASS
  /\ fold_left (auth_body "auth") fs [] = [].
Proof.
  cbv zeta. rewrite !auth_loop. cbn [app].
  rewrite !audit_eq. cbn [auth_abstraction mandate_checks audited_state issues].
  assert (Hauth : auth_violations_of "auth" fs = []) by reflexivity.
  rewrite Hauth. cbn [nonempty]. clear Hauth.
  unfold auth_violations_of.
  destruct (String.eqb_spec feature "auth") as [Heq|Hne].
  - cbn [nonempty].
    refine (conj _ (conj _ (conj _ (conj _ (conj _ (conj _ _)))))); auto; try discriminate.
    + split; [discriminate|]. intros [Hn _]. contradiction.
    + intros x [].
  - change (fun f => contains "supabase.auth." (content f)) with uses_supabase_auth.
    rewrite nonempty_map_filter.
    assert (Hex : existsb uses_supabase_auth fs = true
                  <-> exists f, In f fs /\ contains "supabase.auth." (content f) = true).
    { rewrite existsb_exists. reflexivity. }
    refine (conj _ (conj _ (conj _ (conj _ (conj _ (conj _ _)))))).
    + destruct (existsb uses_supabase_auth fs); discriminate.
    + destruct (existsb uses_supabase_auth fs).
      * split; [intros _; split; [exact Hne | now apply Hex] | reflexivity].
      * split; [discriminate|]. intros [_ H]. apply Hex in H. discriminate.
    + destruct (existsb uses_supabase_auth fs); auto.
    + reflexivity.
    + intros x Hx. do 4 (apply in_or_app; right). apply in_or_app. now left.
    + reflexivity.
    + reflexivity.
Qed.

(* ================================================================== *)
(** ** The sync-integrity entry (C10) *)
(* ================================================================== *)

(** C10.  After every run the mandate-check map has four entries, one of
    them sync_integrity with the verdict N/A it was given by [__init__],
    and the section of the report on the sacred mandate has, right after
    the integer-cents subsection, the subsection Sync Integrity with the
    status N/A. *)
Theorem C10_sync_integrity_is_NA (today : Date) (feature : string) (fs : list SourceFile) :
  let a := audit feature fs in
  sync_integrity (mandate_checks (init feature)) = NA
  /\ sync_integrity (mandate_checks a) = NA
  /\ List.length (mandate_items (mandate_checks a)) = 4
  /\ In ("sync_integrity", NA) (mandate_items (mandate_checks a))
  /\ exists before integer_section rest,
       fst (generate_markdown today (set_files (init feature) fs))
       = join nl (before
                  +++ "## 3. Sacred Mandate Compliance" :: EmptyString
                  :: integer_section
                  +++ "### 3.x Sync Integrity" :: "**Status: N/A**" :: EmptyString
                  :: rest).
Proof.
  cbv zeta. rewrite generate_markdown_eq. cbn [fst].
  assert (Hs : sync_integrity (mandate_checks (audit feature fs)) = NA)
    by now rewrite audit_eq.
  refine (conj eq_refl (conj Hs (conj eq_refl (conj _ _)))).
  - unfold mandate_items. rewrite Hs. right. left. reflexivity.
  - set (a := audit feature fs) in *.
    exists (header_lines a today +++ summary_lines a +++ issue_lines a
            +++ inventory_lines a +++ entity_lines (entities_of fs)
            +++ dependency_lines a (transformers_of feature fs)).
    exists (mandate_check_lines a ("integer_cents", integer_cents (mandate_checks a))).
    exists (mandate_check_lines a ("soft_deletes", soft_deletes (mandate_checks a))
            +++ mandate_check_lines a
                  ("auth_abstraction", auth_abstraction (mandate_checks a))
            +++ performance_lines a).
    f_equal. unfold report_lines, mandate_lines, mandate_items.
    rewrite Hs. cbn [flat_map].
    change (mandate_check_lines a ("sync_integrity", NA))
      with ["### 3.x Sync Integrity"; "**Status: N/A**"; EmptyString].
    rewrite <- ?app_assoc. cbn [app]. rewrite <- ?app_assoc. reflexivity.
Qed.

(* ================================================================== *)
(** ** A feature without source files (C8) *)
(* ================================================================== *)

Lemma filter_length_0 {A : Type} (p : A -> bool) (l : list A) :
  List.length (filter p l) = 0 -> Forall (fun x => p x = false) l.
Proof.
  induction l as [|x l IH]; cbn [filter]; intros H; [constructor|].
  destruct (p x) eqn:E; [discriminate|]. constructor; auto.
Qed.

Lemma scan_dir_no_source (cwd root : string) (entries : list (string * option string)) :
  forall acc,
    Forall (fun file => is_source_name file = false) (map fst entries) ->
    scan_dir cwd root entries acc = Some acc.
Proof.
  induction entries as [|[file text] entries IH]; intros acc H; cbn [scan_dir].
  - reflexivity.
  - inversion H as [|? ? Hfile Hrest]; subst. cbn [fst] in Hfile.
    rewrite Hfile. now apply IH.
Qed.

Lemma scan_walk_no_source (cwd : string)
    (items : list (string * list string * list (string * option string))) :
  forall acc,
    Forall (fun file => is_source_name file = false)
           (flat_map (fun item => map fst (snd item)) items) ->
    scan_walk cwd items acc = Some acc.
Proof.
  induction items as [|[[root dirs] fs] items IH]; intros acc H; cbn [scan_walk].
  - reflexivity.
  - cbn [flat_map snd] in H. apply Forall_app in H. destruct H as [H1 H2].
    rewrite scan_dir_no_source by exact H1. now apply IH.
Qed.

Lemma audit_no_files (feature : string) :
  audit feature []
  = mkFeatureAuditor feature ("features/" ++ feature) [] []
      (mkStats PASS PASS PASS PASS PASS [])
      (mkMandateChecks NA NA NA PASS)
      (mkPerformanceChecks PASS PASS).
Proof.
  rewrite audit_eq. unfold audited_state, auth_violations_of.
  destruct (String.eqb feature "auth"); reflexivity.
Qed.

(** C8.  When the walk of the feature directory lists no file whose name
    ends in .ts or .tsx, [scan_files] succeeds with an empty file list,
    the file inventory of the report is empty (no folder table, a total of
    0 files), no finding is recorded and every verdict is PASS or N/A. *)
Theorem C8_no_source_files (w : World) (feature : string) :
  List.length (filter is_source_name (walked_files w feature)) = 0 ->
  exists a,
    scan_files w (init feature) = Some a
    /\ files a = []
    /\ let a' := snd (generate_markdown (today w) a) in
       files a' = []
       /\ files_by_folder (files a') = []
       /\ inventory_lines a'
          = [ "## 1. Variable & Entity Registry"; EmptyString;
              "### 1.1 Feature File Inventory"; "**Total Files**: 0"; EmptyString ]
       /\ issues a' = []
       /\ Forall (fun v => v = PASS \/ v = NA) (all_verdicts a')
       /\ Forall (fun v => v <> FAIL /\ v <> WARNING) (all_verdicts a').
Proof.
  intros H. apply filter_length_0 in H.
  exists (set_files (init feature) []).
  assert (Hscan : scan_files w (init feature) = Some (set_files (init feature) [])).
  { unfold scan_files. cbn [feature_path feature_name files init].
    now rewrite (scan_walk_no_source (cwd w) _ [] H). }
  refine (conj Hscan (conj eq_refl _)).
  cbv zeta. rewrite generate_markdown_eq. cbn [snd]. rewrite audit_no_files.
  cbn [files issues].
  refine (conj eq_refl (conj eq_refl (conj eq_refl (conj eq_refl (conj _ _))))).
  - unfold all_verdicts. cbn.
    repeat (apply Forall_cons; [first [left; reflexivity | right; reflexivity]|]).
    apply Forall_nil.
  - unfold all_verdicts. cbn.
    repeat (apply Forall_cons; [split; discriminate|]).
    apply Forall_nil.
Qed.

(** A feature directory that holds a text file and an image only. *)
Lemma C8_no_source_files_witness :
  List.length (filter is_source_name (walked_files docs_only_world "notes")) = 0
  /\ exists a, scan_files docs_only_world (init "notes") = Some a /\ files a = [].
Proof.
  split; [reflexivity|].
  destruct (C8_no_source_files docs_only_world "notes" eq_refl) as [a [H1 [H2 _]]].
  exists a. split; assumption.
Defined.

(* ================================================================== *)
(** ** A missing or unreadable feature directory (C2) *)
(* ================================================================== *)

(** A run that ends in an uncaught exception writes nothing. *)
Lemma main_uncaught_writes_nothing (argv : list string) (w : World) :
  fst (main argv w) = Uncaught -> snd (main argv w) = w.
Proof.
  unfold main. destruct argv as [|prog [|feature rest]]; cbn [fst snd]; try discriminate.
  destruct (scan_files w (init feature)) as [a|]; [|reflexivity].
  destruct (generate_markdown (today w) a) as [report a'].
  destruct (docs_dir w); cbn [fst snd]; [discriminate | reflexivity].
Qed.

Lemma scan_files_unlistable (w : World) (feature : string) :
  feature_dir_listable w feature = false ->
  scan_files w (init feature) = Some (init feature).
Proof.
  unfold feature_dir_listable, scan_files. cbn [feature_name feature_path files init].
  destruct (lookup feature (features_dir w)) as [[text|[entries|]]|];
    try discriminate; intros _; reflexivity.
Qed.

(** C2, as stated, fails: the feature ghost has no directory, yet the run
    ends with status 0 and leaves a report in the docs directory. *)
Lemma C2_missing_directory_writes_report :
  let run := main ["audit_feature.py"; "ghost"] docs_only_world in
  feature_dir_listable docs_only_world "ghost" = false
  /\ fst run = Exit 0
  /\ written_report "ghost" (snd run)
     = Some (fst (generate_markdown (today docs_only_world) (init "ghost")))
  /\ ~ (fst run = Uncaught /\ written_report "ghost" (snd run) = None).
Proof.
  cbv zeta.
  assert (E : fst (main ["audit_feature.py"; "ghost"] docs_only_world) = Exit 0)
    by (vm_compute; reflexivity).
  refine (conj eq_refl (conj E (conj _ _))).
  - vm_compute. reflexivity.
  - rewrite E. intros [H _]. discriminate.
Qed.

(** C2, amended.  When the feature directory is missing or cannot be
    listed, the walk yields no file and [scan_files] leaves the auditor as
    [__init__] built it; the run then writes the report of an empty
    feature to the docs output path and ends with status 0, unless the
    output file cannot be created: then the run fails and the world is
    left as it was, with no report written. *)
Theorem C2_unlistable_feature_directory
    (w : World) (prog feature : string) (rest : list string) :
  feature_dir_listable w feature = false ->
  scan_files w (init feature) = Some (init feature)
  /\ main (prog :: feature :: rest) w
     = match docs_dir w with
       | Some d =>
           (Exit 0,
            print ("Report written to " ++ report_path w feature)
              (set_docs_dir w
                 (write_file (report_name feature)
                    (fst (generate_markdown (today w) (init feature))) d)))
       | None => (Uncaught, w)
       end.
Proof.
  intros H. pose proof (scan_files_unlistable w feature H) as Hscan.
  split; [exact Hscan|].
  unfold main. rewrite Hscan.
  destruct (generate_markdown (today w) (init feature)) as [report a'].
  destruct (docs_dir w); reflexivity.
Qed.

(** The feature ghost, which has no directory, in a world whose docs
    directory exists. *)
Lemma C2_unlistable_feature_directory_witness :
  feature_dir_listable docs_only_world "ghost" = false
  /\ fst (main ["audit_feature.py"; "ghost"] docs_only_world) = Exit 0.
Proof.
  split; [reflexivity|].
  rewrite (proj2 (C2_unlistable_feature_directory docs_only_world
                    "audit_feature.py" "ghost" [] eq_refl)).
  reflexivity.
Defined.

(* ================================================================== *)
(** ** A run, and a second run in the world it left *)
(* ================================================================== *)




Lemma main_run (prog feature : string) (rest : list string) (w : World) :
  main (prog :: feature :: rest) w
  = match scan_files w (init feature) with
    | Some a =>
        match docs_dir w with
        | Some d =>
            (Exit 0,
             print ("Report written to " ++ report_path w feature)
               (set_docs_dir w
                  (write_file (report_name feature)
                     (fst (generate_markdown (today w) a)) d)))
        | None => (Uncaught, w)
        end
    | None => (Uncaught, w)
    end.
Proof.
  unfold main. destruct (scan_files w (init feature)) as [a|]; [|reflexivity].
  destruct (generate_markdown (today w) a) as [report a'].
  destruct (docs_dir w); reflexivity.
Qed.


(* ================================================================== *)
(** ** The naming scanner on a line that declares a snake_case field *)
(* ================================================================== *)

Module ScannerFacts.

Lemma append_assoc (a b c : string) : (a ++ b) ++ c = a ++ (b ++ c).
Proof. induction a as [|x a IH]; cbn; [reflexivity | now rewrite IH]. Qed.

Lemma append_nil_r (a : string) : a ++ EmptyString = a.
Proof. induction a as [|x a IH]; cbn; [reflexivity | now rewrite IH]. Qed.

Lemma length_append (a b : string) :
  String.length (a ++ b) = String.length a + String.length b.
Proof. induction a as [|x a IH]; cbn; [reflexivity | now rewrite IH]. Qed.

Lemma allb_app (p : ascii -> bool) (a b : string) :
  allb p (a ++ b) = allb p a && allb p b.
Proof.
  induction a as [|x a IH]; cbn; [reflexivity|]. rewrite IH. now rewrite andb_assoc.
Qed.

Lemma ends_nl_app (a b : string) :
  ends_nl (a ++ b) = match b with EmptyString => ends_nl a | _ => ends_nl b end.
Proof.
  induction a as [|x a IH].
  - cbn. now destruct b.
  - destruct b as [|y b]; [now rewrite append_nil_r|].
    cbn [append]. change (ends_nl (String x (a ++ String y b)))
      with (match a ++ String y b with
            | EmptyString => is_newline x
            | _ => ends_nl (a ++ String y b)
            end).
    rewrite IH. now destruct a.
Qed.

Lemma allb_ends_nl (p : ascii -> bool) (s : string) :
  allb p s = true -> ends_nl s = true -> p newline = true.
Proof.
  induction s as [|c s IH]; [discriminate|].
  cbn [allb]. intros H. apply andb_true_iff in H. destruct H as [Hc Hs].
  destruct s as [|d s'].
  - cbn. unfold is_newline. intros E. apply Ascii.eqb_eq in E. now subst.
  - intros E. apply IH; assumption.
Qed.

(** *** Longest runs *)

Lemma span_eq (p : ascii -> bool) (s : string) :
  forall a b, span p s = (a, b) -> s = a ++ b /\ allb p a = true /\ stops p b.
Proof.
  induction s as [|c s IH]; intros a b H; cbn in H.
  - injection H as <- <-. repeat split.
  - destruct (p c) eqn:E.
    + destruct (span p s) as [a' b'] eqn:E'. injection H as <- <-.
      destruct (IH _ _ eq_refl) as [H1 [H2 H3]].
      cbn. rewrite E, H2. repeat split; [now f_equal | assumption].
    + injection H as <- <-. repeat split. exact E.
Qed.

Lemma span_intro (p : ascii -> bool) (a b : string) :
  allb p a = true -> stops p b -> span p (a ++ b) = (a, b).
Proof.
  induction a as [|c a IH]; cbn; intros Ha Hb.
  - destruct b as [|d b]; [reflexivity|]. cbn in Hb. cbn. now rewrite Hb.
  - apply andb_true_iff in Ha. destruct Ha as [Hc Ha].
    rewrite Hc, (IH Ha Hb). reflexivity.
Qed.

(** A run that stops inside [s] is not changed by text added after [s]. *)
Lemma span_app_stopped (p : ascii -> bool) (s t a : string) (c : ascii) (b : string) :
  span p s = (a, String c b) -> span p (s ++ t) = (a, String c b ++ t).
Proof.
  intros H. destruct (span_eq _ _ _ _ H) as [-> [Ha Hc]].
  rewrite append_assoc. apply span_intro; assumption.
Qed.

(** A run that reaches the end of [s] goes on in the text added after. *)
Lemma span_app_through (p : ascii -> bool) (s t a : string) :
  span p s = (a, EmptyString) ->
  span p (s ++ t) = (s ++ fst (span p t), snd (span p t)).
Proof.
  intros H. destruct (span_eq _ _ _ _ H) as [Hs [Ha _]].
  rewrite append_nil_r in Hs. subst a.
  destruct (span p t) as [x y] eqn:E. cbn [fst snd].
  destruct (span_eq _ _ _ _ E) as [-> [Hx Hy]].
  rewrite <- append_assoc. apply span_intro; [|assumption].
  rewrite allb_app, Ha, Hx. reflexivity.
Qed.

(** *** Character classes *)

Lemma az_not_space (c : ascii) : is_az c = true -> is_space c = false.
Proof. destruct c as [[] [] [] [] [] [] [] []]; vm_compute; congruence. Qed.

Lemma space_not_az09_ (c : ascii) : is_space c = true -> is_az09_ c = false.
Proof. destruct c as [[] [] [] [] [] [] [] []]; vm_compute; congruence. Qed.

Lemma space_not_question (c : ascii) : is_space c = true -> c <> "?"%char.
Proof. destruct c as [[] [] [] [] [] [] [] []]; vm_compute; congruence. Qed.

(** *** One attempt of the pattern *)

Lemma match_snake_prop_intro (m prop : string) :
  snake_decl m prop -> forall rest, match_snake_prop (m ++ rest) = Some (prop, rest).
Proof.
  intros H rest. destruct H as [ws a b q ws' Hws Ha Ha0 Hb Hq Hws'].
  destruct a as [|c a']; [congruence|]. clear Ha0.
  assert (Hc : is_az c = true) by (cbn in Ha; now apply andb_true_iff in Ha).
  unfold match_snake_prop.
  repeat first [rewrite append_assoc | progress cbn [append]].
  rewrite (span_intro is_space ws) by (try assumption; cbn; now apply az_not_space).
  change (String c (a' ++ String "_" (b ++ q ++ ws' ++ String ":" rest)))
    with (String c a' ++ String "_" (b ++ q ++ ws' ++ String ":" rest)).
  rewrite (span_intro is_az (String c a')) by (try assumption; reflexivity).
  cbv beta iota. change (Ascii.eqb "_" "_") with true. cbv beta iota.
  assert (Hstop : stops is_az09_ (q ++ ws' ++ String ":" rest)).
  { destruct Hq as [-> | ->]; [|reflexivity].
    destruct ws' as [|d ws'']; [reflexivity|].
    cbn in Hws' |- *. apply andb_true_iff in Hws'. now apply space_not_az09_. }
  rewrite (span_intro is_az09_ b) by assumption.
  assert (Hskip : skip_question (q ++ ws' ++ String ":" rest) = ws' ++ String ":" rest).
  { destruct Hq as [-> | ->]; [|reflexivity].
    destruct ws' as [|d ws'']; [reflexivity|].
    cbn in Hws' |- *. apply andb_true_iff in Hws'. destruct Hws' as [Hd _].
    destruct (Ascii.eqb_spec d "?") as [->|_]; [|reflexivity].
    now apply space_not_question in Hd. }
  rewrite Hskip.
  rewrite (span_intro is_space ws') by (try assumption; reflexivity).
  reflexivity.
Qed.

Lemma match_snake_prop_inv (s prop rest : string) :
  match_snake_prop s = Some (prop, rest) ->
  exists m, snake_decl m prop /\ s = m ++ rest.
Proof.
  unfold match_snake_prop.
  destruct (span is_space s) as [ws s1] eqn:E1.
  destruct (span_eq _ _ _ _ E1) as [-> [Hws _]].
  destruct (span is_az s1) as [a s2] eqn:E2.
  destruct (span_eq _ _ _ _ E2) as [-> [Ha _]].
  destruct a as [|c a']; [discriminate|].
  destruct s2 as [|u s3]; [discriminate|].
  destruct (Ascii.eqb_spec u "_") as [->|_]; [|discriminate].
  destruct (span is_az09_ s3) as [b s4] eqn:E3.
  destruct (span_eq _ _ _ _ E3) as [-> [Hb _]].
  destruct (span is_space (skip_question s4)) as [ws' s6] eqn:E4.
  destruct (span_eq _ _ _ _ E4) as [Hs4 [Hws' _]].
  destruct s6 as [|d s7]; [discriminate|].
  destruct (Ascii.eqb_spec d ":") as [->|_]; [|discriminate].
  intros H. injection H as <- <-.
  assert (Hq : exists q, (q = EmptyString \/ q = "?") /\ s4 = q ++ ws' ++ String ":" s7).
  { destruct s4 as [|e s4']; cbn [skip_question] in Hs4.
    - exists EmptyString. split; [now left | exact Hs4].
    - destruct (Ascii.eqb_spec e "?") as [->|_].
      + exists "?". split; [now right | cbn; now rewrite Hs4].
      + exists EmptyString. split; [now left | exact Hs4]. }
  destruct Hq as [q [Hq ->]].
  exists (ws ++ String c a' ++ String "_" (b ++ q ++ ws' ++ ":")).
  split.
  - constructor; auto. discriminate.
  - repeat first [rewrite append_assoc | progress cbn [append]]. reflexivity.
Qed.

Lemma snake_decl_nonempty (m prop : string) :
  snake_decl m prop -> 0 < String.length m.
Proof.
  intros H. destruct H as [ws a b q ws' _ _ _ _ _ _].
  rewrite !length_append. cbn [String.length]. rewrite !length_append. cbn. lia.
Qed.

(** The matched text ends with the colon, not with a newline. *)
Lemma snake_decl_ends_colon (m prop : string) :
  snake_decl m prop -> exists m0, m = m0 ++ ":".
Proof.
  intros H. destruct H as [ws a b q ws' _ _ _ _ _ _].
  exists (ws ++ a ++ String "_" (b ++ q ++ ws')).
  repeat first [rewrite append_assoc | progress cbn [append]]. reflexivity.
Qed.

Lemma snake_decl_then_line_start (m prop rest : string) :
  snake_decl m prop -> ends_nl (m ++ rest) = true ->
  rest <> EmptyString /\ ends_nl rest = true.
Proof.
  intros H. destruct (snake_decl_ends_colon _ _ H) as [m0 ->].
  rewrite ends_nl_app. destruct rest as [|c rest].
  - rewrite ends_nl_app. discriminate.
  - intros E. split; [discriminate | exact E].
Qed.

Lemma snake_decl_after_space (u m prop : string) :
  allb is_space u = true -> snake_decl m prop -> snake_decl (u ++ m) prop.
Proof.
  intros Hu H. destruct H as [ws a b q ws' Hws Ha Ha0 Hb Hq Hws'].
  rewrite <- append_assoc. constructor; auto.
  rewrite allb_app, Hu, Hws. reflexivity.
Qed.

(** The first character after the leading white space is a letter. *)
Lemma snake_decl_head (m prop rest : string) :
  snake_decl m prop ->
  exists ws c x, m ++ rest = ws ++ String c x /\ allb is_space ws = true /\ is_az c = true.
Proof.
  intros H. destruct H as [ws a b q ws' Hws Ha Ha0 Hb Hq Hws'].
  destruct a as [|c a']; [congruence|].
  exists ws, c, ((a' ++ String "_" (b ++ q ++ ws' ++ ":")) ++ rest).
  split; [|split; [assumption|]].
  - rewrite !append_assoc. reflexivity.
  - cbn in Ha. now apply andb_true_iff in Ha.
Qed.

Lemma match_snake_prop_app (s t prop rest : string) :
  match_snake_prop s = Some (prop, rest) ->
  match_snake_prop (s ++ t) = Some (prop, rest ++ t).
Proof.
  intros H. destruct (match_snake_prop_inv _ _ _ H) as [m [Hm ->]].
  rewrite append_assoc. now apply match_snake_prop_intro.
Qed.

Lemma match_snake_prop_shorter (s prop rest : string) :
  match_snake_prop s = Some (prop, rest) -> String.length rest < String.length s.
Proof.
  intros H. destruct (match_snake_prop_inv _ _ _ H) as [m [Hm ->]].
  rewrite length_append. pose proof (snake_decl_nonempty _ _ Hm). lia.
Qed.

Lemma match_snake_prop_all_space (s : string) :
  allb is_space s = true -> match_snake_prop s = None.
Proof.
  intros H. unfold match_snake_prop.
  rewrite <- (append_nil_r s) at 1.
  rewrite (span_intro is_space s EmptyString H I). reflexivity.
Qed.

(** An attempt that fails before a newline still fails when a line with a
    declaration is added behind, unless everything before was white space. *)
Lemma match_snake_prop_fail_app (before m prop rest : string) :
  snake_decl m prop ->
  match_snake_prop before = None ->
  ends_nl before = true ->
  allb is_space before = false ->
  match_snake_prop (before ++ m ++ rest) = None.
Proof.
  intros Hm Hnone Hnl Hns.
  destruct (snake_decl_head m prop rest Hm) as [ws [c0 [x [-> [Hws Hc0]]]]].
  unfold match_snake_prop in *.
  destruct (span is_space before) as [w s1] eqn:E1.
  destruct (span_eq _ _ _ _ E1) as [Hbefore [Hw _]].
  destruct s1 as [|c1 s1'].
  { rewrite append_nil_r in Hbefore. subst w. congruence. }
  rewrite (span_app_stopped _ _ _ _ _ _ E1). cbv beta iota.
  assert (Hnl1 : ends_nl (String c1 s1') = true).
  { rewrite Hbefore, ends_nl_app in Hnl. exact Hnl. }
  destruct (span is_az (String c1 s1')) as [a s2] eqn:E2.
  destruct (span_eq _ _ _ _ E2) as [Hs1 [Ha _]].
  destruct s2 as [|u s3].
  { rewrite append_nil_r in Hs1. rewrite <- Hs1 in Ha.
    pose proof (allb_ends_nl _ _ Ha Hnl1) as F. discriminate F. }
  rewrite (span_app_stopped _ _ _ _ _ _ E2). cbv beta iota.
  destruct a as [|ca a']; [reflexivity|].
  cbn [append].
  destruct (Ascii.eqb_spec u "_") as [->|_]; [|reflexivity].
  assert (Hnl3 : ends_nl (String "_" s3) = true).
  { rewrite Hs1, ends_nl_app in Hnl1. exact Hnl1. }
  destruct (span is_az09_ s3) as [b s4] eqn:E3.
  destruct (span_eq _ _ _ _ E3) as [Hs3 [Hb _]].
  destruct s4 as [|c4 s4'].
  { rewrite append_nil_r in Hs3. subst b.
    assert (Hall : allb is_az09_ (String "_" s3) = true) by (cbn [allb]; now rewrite Hb).
    pose proof (allb_ends_nl _ _ Hall Hnl3) as F. discriminate F. }
  rewrite (span_app_stopped _ _ _ _ _ _ E3). cbv beta iota.
  assert (Hskip : skip_question (String c4 s4' ++ ws ++ String c0 x)
                  = skip_question (String c4 s4') ++ ws ++ String c0 x).
  { cbn [append skip_question]. now destruct (Ascii.eqb c4 "?"). }
  rewrite Hskip.
  destruct (span is_space (skip_question (String c4 s4'))) as [w' s6] eqn:E4.
  destruct s6 as [|c6 s7].
  - rewrite (span_app_through _ _ _ _ E4).
    rewrite (span_intro is_space ws (String c0 x) Hws (az_not_space _ Hc0)).
    cbn [fst snd].
    destruct (Ascii.eqb_spec c0 ":") as [->|_]; [|reflexivity].
    discriminate Hc0.
  - rewrite (span_app_stopped _ _ _ _ _ _ E4). cbn [append].
    destruct (Ascii.eqb c6 ":"); [discriminate Hnone | reflexivity].
Qed.

(** *** The search over a whole text *)

Lemma findall_snake_fuel_enough (n : nat) :
  forall m bol s,
    String.length s <= n -> String.length s <= m ->
    findall_snake_fuel n bol s = findall_snake_fuel m bol s.
Proof.
  induction n as [|n IH]; intros m bol s Hn Hm.
  - destruct s; [|cbn in Hn; lia]. destruct m; reflexivity.
  - destruct s as [|c s]; [destruct m; reflexivity|].
    destruct m as [|m]; [cbn in Hm; lia|].
    cbn [String.length] in Hn, Hm. cbn [findall_snake_fuel].
    destruct (if bol then match_snake_prop (String c s) else None) as [[prop rest]|] eqn:E.
    + assert (String.length rest < String.length (String c s)).
      { destruct bol; [|discriminate]. now apply match_snake_prop_shorter in E. }
      cbn [String.length] in H. f_equal. apply IH; lia.
    + apply IH; lia.
Qed.

Lemma findall_snake_from_cons (bol : bool) (c : ascii) (s : string) :
  findall_snake_from bol (String c s)
  = match (if bol then match_snake_prop (String c s) else None) with
    | Some (prop, rest) => prop :: findall_snake_from false rest
    | None => findall_snake_from (is_newline c) s
    end.
Proof.
  unfold findall_snake_from. cbn [String.length findall_snake_fuel].
  destruct (if bol then match_snake_prop (String c s) else None) as [[prop rest]|] eqn:E.
  - f_equal. apply findall_snake_fuel_enough; [|lia].
    destruct bol; [|discriminate]. apply match_snake_prop_shorter in E.
    cbn [String.length] in E. lia.
  - reflexivity.
Qed.

Lemma findall_snake_all_space (s : string) :
  forall bol, allb is_space s = true -> findall_snake_from bol s = [].
Proof.
  induction s as [|c s IH]; intros bol H; [reflexivity|].
  rewrite findall_snake_from_cons.
  rewrite (match_snake_prop_all_space _ H).
  cbn [allb] in H. apply andb_true_iff in H.
  destruct bol; apply IH; tauto.
Qed.

(** Away from a line start nothing is found before the next newline. *)
Lemma findall_snake_skip_line (tail : string) :
  forall after,
    no_newline tail = true ->
    findall_snake_from false (tail ++ after) = findall_snake_from false after.
Proof.
  induction tail as [|c tail IH]; intros after H; [reflexivity|].
  cbn [append]. rewrite findall_snake_from_cons.
  unfold no_newline in H. cbn [allb] in H. apply andb_true_iff in H.
  destruct H as [Hc Ht]. apply negb_true_iff in Hc. rewrite Hc.
  now apply IH.
Qed.

Lemma findall_snake_after_newline (after : string) :
  findall_snake_from false (String newline after) = findall_snake_from true after.
Proof. rewrite findall_snake_from_cons. reflexivity. Qed.

(** The matches of a text in which a declaration starts at a line start:
    those of the text before it, the declared name, those of the rest. *)
Lemma findall_snake_decl (m prop rest : string) (Hm : snake_decl m prop) (n : nat) :
  forall before bol,
    String.length before <= n ->
    match before with EmptyString => bol = true | _ => ends_nl before = true end ->
    findall_snake_from bol (before ++ m ++ rest)
    = findall_snake_from bol before +++ prop :: findall_snake_from false rest.
Proof.
  induction n as [|n IH]; intros before bol Hlen Hstart.
  - destruct before; [|cbn in Hlen; lia]. subst bol. cbn [append].
    pose proof (snake_decl_nonempty _ _ Hm) as Hpos.
    destruct (m ++ rest) as [|c s] eqn:E.
    { apply (f_equal String.length) in E. rewrite length_append in E. cbn in E. lia. }
    rewrite findall_snake_from_cons, <- E.
    now rewrite (match_snake_prop_intro _ _ Hm).
  - destruct before as [|c before'].
    + subst bol. cbn [append].
      pose proof (snake_decl_nonempty _ _ Hm) as Hpos.
      destruct (m ++ rest) as [|c s] eqn:E.
      { apply (f_equal String.length) in E. rewrite length_append in E. cbn in E. lia. }
      rewrite findall_snake_from_cons, <- E.
      now rewrite (match_snake_prop_intro _ _ Hm).
    + cbn [String.length] in Hlen.
      assert (Hstep : findall_snake_from (is_newline c) (before' ++ m ++ rest)
                      = findall_snake_from (is_newline c) before'
                        +++ prop :: findall_snake_from false rest).
      { apply IH; [lia|]. destruct before' as [|d before'']; [exact Hstart|].
        exact Hstart. }
      cbn [append]. rewrite !findall_snake_from_cons.
      change (String c (before' ++ m ++ rest)) with (String c before' ++ m ++ rest).
      destruct bol; [|exact Hstep].
      destruct (match_snake_prop (String c before')) as [[p r]|] eqn:E.
      * rewrite (match_snake_prop_app _ (m ++ rest) _ _ E).
        cbn [app]. f_equal.
        pose proof (match_snake_prop_shorter _ _ _ E) as Hshort.
        cbn [String.length] in Hshort.
        destruct (match_snake_prop_inv _ _ _ E) as [m1 [Hm1 Heq]].
        rewrite Heq in Hstart.
        destruct (snake_decl_then_line_start _ _ _ Hm1 Hstart) as [Hr Hrnl].
        apply IH; [lia|]. destruct r; [congruence | exact Hrnl].
      * destruct (allb is_space (String c before')) eqn:Hsp.
        -- rewrite <- (append_assoc (String c before') m rest).
           rewrite (match_snake_prop_intro _ _ (snake_decl_after_space _ _ _ Hsp Hm)).
           cbn [allb] in Hsp. apply andb_true_iff in Hsp.
           rewrite (findall_snake_all_space before') by tauto.
           reflexivity.
        -- rewrite (match_snake_prop_fail_app _ _ _ rest Hm E Hstart Hsp).
           exact Hstep.
Qed.

End ScannerFacts.

Import ScannerFacts.

(* ================================================================== *)
(** ** The naming check (C7) *)
(* ================================================================== *)

Lemma naming_violations_of_app (fs1 fs2 : list SourceFile) :
  naming_violations_of (fs1 +++ fs2) = naming_violations_of fs1 +++ naming_violations_of fs2.
Proof. apply flat_map_app. Qed.

Lemma findall_snake_line (before line_head prop tail after : string) :
  snake_decl line_head prop ->
  at_line_start before = true ->
  no_newline tail = true ->
  starts_next_line after = true ->
  findall_snake (before ++ line_head ++ tail ++ after)
  = findall_snake before +++ prop :: findall_snake (next_lines after).
Proof.
  intros Hm Hstart Htail Hafter. unfold findall_snake.
  rewrite (findall_snake_decl _ _ (tail ++ after) Hm (String.length before)).
  - f_equal. f_equal. rewrite findall_snake_skip_line by assumption.
    destruct after as [|c after']; [reflexivity|].
    cbn in Hafter. unfold is_newline in Hafter. apply Ascii.eqb_eq in Hafter. subst c.
    apply findall_snake_after_newline.
  - apply Nat.le_refl.
  - destruct before; [reflexivity | exact Hstart].
Qed.

(** C7, amended.  In a file whose relative path contains domain, take a
    line that consists of white space, a lower-snake-case name (letters a-z, an
    underscore, then letters, digits or underscores), an optional question
    mark, white space, a colon and any text.  The violations of the file
    are those of the lines before, then exactly one message for this line,
    "Snake_case property '<name>' in domain file <relative path>", then
    those of the lines after; the message is recorded in [issues] and the
    naming verdict is FAIL.  For every feature the naming verdict is FAIL
    when the violation list of the loop is not empty and PASS when it is. *)
Theorem C7_snake_case_property_line
    (feature : string) (fs1 fs2 : list SourceFile) (f : SourceFile)
    (before ws a b q ws' tail after : string) :
  let prop := a ++ String "_" b in
  let line := ws ++ prop ++ q ++ ws' ++ ":" ++ tail in
  let message := "Snake_case property '" ++ prop ++ "' in domain file " ++ rel_path f in
  let fs := fs1 +++ f :: fs2 in
  contains "domain" (rel_path f) = true ->
  content f = before ++ line ++ after ->
  at_line_start before = true ->
  starts_next_line after = true ->
  no_newline line = true ->
  allb is_space ws = true ->
  allb is_az a = true -> a <> EmptyString ->
  allb is_az09_ b = true ->
  q = EmptyString \/ q = "?" ->
  allb is_space ws' = true ->
  file_naming_violations f
  = map (fun p => naming_message p (rel_path f)) (findall_snake before)
    +++ message
    :: map (fun p => naming_message p (rel_path f)) (findall_snake (next_lines after))
  /\ snd (fold_left registry_body fs ([], []))
     = naming_violations_of fs1 +++ file_naming_violations f +++ naming_violations_of fs2
  /\ In message (issues (audit feature fs))
  /\ naming (stats (audit feature fs)) = FAIL
  /\ (forall fs',
        naming (stats (audit feature fs'))
        = if nonempty (snd (fold_left registry_body fs' ([], []))) then FAIL else PASS).
Proof.
  cbv zeta. intros Hdom Hcontent Hstart Hafter Hline Hws Ha Ha0 Hb Hq Hws'.
  assert (Hm : snake_decl (ws ++ a ++ String "_" (b ++ q ++ ws' ++ ":")) (a ++ String "_" b))
    by (constructor; assumption).
  assert (Htail : no_newline tail = true).
  { unfold no_newline in *. rewrite !allb_app in Hline.
    repeat (apply andb_true_iff in Hline; destruct Hline as [_ Hline]).
    exact Hline. }
  assert (Hfile : file_naming_violations f
                  = map (fun p => naming_message p (rel_path f)) (findall_snake before)
                    +++ naming_message (a ++ String "_" b) (rel_path f)
                    :: map (fun p => naming_message p (rel_path f))
                         (findall_snake (next_lines after))).
  { unfold file_naming_violations. rewrite Hdom, Hcontent.
    replace (before ++ (ws ++ (a ++ String "_" b) ++ q ++ ws' ++ ":" ++ tail) ++ after)
      with (before ++ (ws ++ a ++ String "_" (b ++ q ++ ws' ++ ":")) ++ tail ++ after)
      by (repeat first [rewrite append_assoc | progress cbn [append]]; reflexivity).
    rewrite (findall_snake_line _ _ _ _ _ Hm Hstart Htail Hafter).
    now rewrite map_app. }
  assert (Hloop : forall fs', snd (fold_left registry_body fs' ([], []))
                              = naming_violations_of fs').
  { intros fs'. now rewrite registry_loop. }
  assert (Hin : In (naming_message (a ++ String "_" b) (rel_path f))
                   (naming_violations_of (fs1 +++ f :: fs2))).
  { rewrite naming_violations_of_app. apply in_or_app. right.
    change (naming_violations_of (f :: fs2))
      with (file_naming_violations f +++ naming_violations_of fs2).
    apply in_or_app. left. rewrite Hfile. apply in_or_app. right. now left. }
  refine (conj Hfile (conj _ (conj _ (conj _ _)))).
  - rewrite Hloop, naming_violations_of_app. reflexivity.
  - rewrite issues_audit. apply in_or_app. left. exact Hin.
  - rewrite naming_verdict.
    destruct (naming_violations_of (fs1 +++ f :: fs2)); [destruct Hin | reflexivity].
  - intros fs'. now rewrite Hloop, naming_verdict.
Qed.

(** A domain file that declares the field user_id: string on its second
    line. *)
Lemma C7_snake_case_property_line_witness :
  contains "domain" (rel_path user_ts) = true
  /\ In "Snake_case property 'user_id' in domain file features/accounts/domain/user.ts"
        (issues (audit "accounts" [session_ts; user_ts]))
  /\ naming (stats (audit "accounts" [session_ts; user_ts])) = FAIL.
Proof.
  split; [reflexivity|].
  pose proof (C7_snake_case_property_line "accounts" [session_ts] [] user_ts
                ("export interface User {" ++ nl) "  " "user" "id" EmptyString EmptyString
                " string;" (nl ++ "  displayName: string;" ++ nl ++ "}")
                eq_refl eq_refl eq_refl eq_refl eq_refl eq_refl eq_refl
                ltac:(discriminate) eq_refl (or_introl eq_refl) eq_refl) as H.
  destruct H as [_ [_ [Hin [Hfail _]]]]. split; [exact Hin | exact Hfail].
Defined.

(** C7, as stated, fails: the pattern is anchored at the start of a line,
    so a field declared after other text on its line is not seen.  The
    domain file below declares the field [user_id: string] inside a
    one-line interface and [account_id: string] after readonly; the scan
    finds no property, no finding is recorded and the naming verdict is
    PASS. *)
Lemma C7_inline_field_is_missed :
  contains "domain" (rel_path inline_user_ts) = true
  /\ nth 0 (line_content inline_user_ts) EmptyString
     = "export interface User { user_id: string; }"
  /\ nth 2 (line_content inline_user_ts) EmptyString = "  readonly account_id: string;"
  /\ findall_snake (content inline_user_ts) = []
  /\ file_naming_violations inline_user_ts = []
  /\ issues (audit "accounts" [inline_user_ts]) = []
  /\ naming (stats (audit "accounts" [inline_user_ts])) = PASS.
Proof. vm_compute. repeat split. Qed.

(* ================================================================== *)
(** ** The dependency check (C6) *)
(* ================================================================== *)

(** What [audit_dependencies] records for one import line, in terms of
    the target the code computes. *)
Lemma line_bleed_import (feature rel line path_str : string) (i : nat) :
  startswith "import " (strip line) = true ->
  search_from line = Some path_str ->
  startswith "@/features/" path_str || startswith "../../features/" path_str = true ->
  line_bleed feature rel (i, line)
  = if negb (String.eqb (target_feature_of path_str) feature)
       && negb (String.eqb (target_feature_of path_str) "shared")
    then ["Import from " ++ target_feature_of path_str ++ " in " ++ rel ++ ":"
          ++ str_of_nat (i + 1)]
    else [].
Proof.
  intros Himport Hsearch Hprefix.
  unfold line_bleed, dependency_line. rewrite Himport, Hsearch, Hprefix.
  destruct (negb (String.eqb (target_feature_of path_str) feature)
            && negb (String.eqb (target_feature_of path_str) "shared"));
    reflexivity.
Qed.

Lemma combine_app_same_length {A B : Type} (l1 : list A) :
  forall (m1 : list B) l2 m2,
    List.length l1 = List.length m1 ->
    combine (l1 +++ l2) (m1 +++ m2) = combine l1 m1 +++ combine l2 m2.
Proof.
  induction l1 as [|x l1 IH]; intros [|y m1] l2 m2 H; try discriminate; cbn.
  - reflexivity.
  - f_equal. apply IH. now injection H.
Qed.

Lemma enumerate_app_cons {A : Type} (l1 l2 : list A) (x : A) :
  enumerate (l1 +++ x :: l2)
  = combine (seq 0 (List.length l1)) l1
    +++ (List.length l1, x) :: combine (seq (S (List.length l1)) (List.length l2)) l2.
Proof.
  unfold enumerate. rewrite length_app. cbn [List.length].
  rewrite seq_app. cbn [seq plus].
  rewrite combine_app_same_length by now rewrite length_seq.
  reflexivity.
Qed.

(** The findings of a feature around one line of one file: the line at
    0-based position [length ls1] contributes its own findings between
    those of what comes before and those of what comes after. *)
Lemma bleed_of_line (feature : string) (fs1 fs2 : list SourceFile) (f : SourceFile)
    (ls1 ls2 : list string) (line : string) :
  line_content f = ls1 +++ line :: ls2 ->
  exists earlier later,
    bleed_of feature (fs1 +++ f :: fs2)
    = earlier +++ line_bleed feature (rel_path f) (List.length ls1, line) +++ later.
Proof.
  intros Hlines. unfold bleed_of. rewrite flat_map_app. cbn [flat_map].
  unfold file_bleed at 2. rewrite Hlines, enumerate_app_cons, flat_map_app.
  cbn [flat_map].
  exists (flat_map (file_bleed feature) fs1
          +++ flat_map (line_bleed feature (rel_path f))
                (combine (seq 0 (List.length ls1)) ls1)).
  exists (flat_map (line_bleed feature (rel_path f))
            (combine (seq (S (List.length ls1)) (List.length ls2)) ls2)
          +++ flat_map (file_bleed feature) fs2).
  rewrite <- !app_assoc. reflexivity.
Qed.

Lemma dependency_verdict_iff (feature : string) (fs : list SourceFile) :
  dependency_manifest (stats (audit feature fs)) = FAIL <-> bleed_of feature fs <> [].
Proof.
  rewrite dependency_verdict. destruct (bleed_of feature fs); cbn [nonempty].
  - split; [discriminate | congruence].
  - split; [discriminate | reflexivity].
Qed.

(** *** Where the computed target is the claimed segment *)

Lemma startswith_app (p s : string) :
  startswith p s = true -> exists y, s = p ++ y.
Proof.
  revert s. induction p as [|a p IH]; intros s H.
  - now exists s.
  - destruct s as [|b s]; [discriminate|]. cbn in H.
    apply andb_true_iff in H. destruct H as [Hab Hp].
    apply Ascii.eqb_eq in Hab. subst b.
    destruct (IH _ Hp) as [y ->]. now exists y.
Qed.

Lemma upto_slash_segment (seg rest : string) :
  has_slash seg = false -> upto_slash (seg ++ String "/" rest) = seg.
Proof.
  induction seg as [|c seg IH]; cbn; intros H; [reflexivity|].
  apply orb_false_iff in H. destruct H as [Hc Hseg].
  rewrite Hc. now rewrite IH.
Qed.

Lemma upto_slash_no_slash (seg : string) : has_slash seg = false -> upto_slash seg = seg.
Proof.
  induction seg as [|c seg IH]; cbn; intros H; [reflexivity|].
  apply orb_false_iff in H. destruct H as [Hc Hseg].
  rewrite Hc. now rewrite IH.
Qed.

(** [s.split("/")[0]] is the text up to the first slash. *)
Lemma hd_split_slash (s : string) :
  forall cur, hd EmptyString (split_from "/" 0 cur s) = cur ++ upto_slash s.
Proof.
  induction s as [|c s IH]; intros cur; cbn [split_from hd upto_slash].
  - now rewrite append_nil_r.
  - cbn [startswith]. rewrite andb_true_r. unfold is_slash.
    rewrite (Ascii.eqb_sym "/" c).
    destruct (Ascii.eqb c "/"); cbn [hd].
    + now rewrite append_nil_r.
    + rewrite IH. now rewrite append_assoc.
Qed.

(** The first piece of a split starts with what was pending. *)
Lemma hd_split_extends (sep s : string) :
  forall skip cur, exists t, hd EmptyString (split_from sep skip cur s) = cur ++ t.
Proof.
  induction s as [|c s IH]; intros skip cur; cbn [split_from].
  - exists EmptyString. cbn. now rewrite append_nil_r.
  - destruct skip as [|k]; [|apply IH].
    destruct (startswith sep (String c s)).
    + exists EmptyString. cbn. now rewrite append_nil_r.
    + destruct (IH 0 (cur ++ String c EmptyString)) as [t Ht].
      exists (String c t). rewrite Ht. now rewrite append_assoc.
Qed.

Lemma hd_split_features_no_slash (s : string) :
  has_slash s = false ->
  forall cur, hd EmptyString (split_from "features/" 0 cur s) = cur ++ s.
Proof.
  induction s as [|c s IH]; intros H cur; cbn [split_from].
  - cbn. now rewrite append_nil_r.
  - destruct (startswith "features/" (String c s)) eqn:E.
    + apply startswith_app in E. destruct E as [y E].
      rewrite E in H. cbn in H. discriminate H.
    + cbn in H. apply orb_false_iff in H. destruct H as [_ Hs].
      rewrite (IH Hs). now rewrite append_assoc.
Qed.

Lemma segment_before_slash (w : string) :
  forall seg rest y,
    has_slash w = false -> has_slash seg = false ->
    seg ++ String "/" rest = w ++ String "/" y -> seg = w.
Proof.
  induction w as [|a w IH]; intros seg rest y Hw Hseg E.
  - destruct seg as [|c seg]; [reflexivity|].
    cbn in E. injection E as -> _. cbn in Hseg. discriminate Hseg.
  - cbn in Hw. apply orb_false_iff in Hw. destruct Hw as [Ha Hw].
    destruct seg as [|c seg].
    + cbn in E. injection E as <- _. cbn in Ha. discriminate Ha.
    + cbn in E. injection E as -> E. cbn in Hseg.
      apply orb_false_iff in Hseg. destruct Hseg as [_ Hseg].
      f_equal. exact (IH _ _ _ Hw Hseg E).
Qed.

Lemma hd_split_features_segment (seg : string) :
  forall cur rest,
    has_slash seg = false ->
    endswith "features" seg = false ->
    exists t,
      hd EmptyString (split_from "features/" 0 cur (seg ++ String "/" rest))
      = cur ++ seg ++ String "/" t.
Proof.
  induction seg as [|c seg IH]; intros cur rest Hslash Hends.
  - cbn [append split_from]. change (startswith "features/" (String "/" rest)) with false.
    cbv iota.
    destruct (hd_split_extends "features/" rest 0 (cur ++ "/")) as [t Ht].
    exists t. rewrite Ht. now rewrite append_assoc.
  - cbn [append split_from].
    destruct (startswith "features/" (String c (seg ++ String "/" rest))) eqn:E.
    + apply startswith_app in E. destruct E as [y E].
      assert (Hseg : String c seg = "features").
      { apply (segment_before_slash "features" (String c seg) rest y);
          [reflexivity | exact Hslash | exact E]. }
      rewrite Hseg in Hends. discriminate Hends.
    + cbn in Hslash. apply orb_false_iff in Hslash. destruct Hslash as [_ Hslash].
      cbn [endswith] in Hends. apply orb_false_iff in Hends. destruct Hends as [_ Hends].
      destruct (IH (cur ++ String c EmptyString) rest Hslash Hends) as [t Ht].
      exists t. rewrite Ht. now rewrite append_assoc.
Qed.

(** For a module path that starts with one of the two prefixes, the
    target the code computes is the claimed segment whenever the segment
    is the end of the path, or is followed by a slash and does not end in
    the word features. *)
Lemma target_feature_of_segment (pre seg rest : string) :
  pre = "@/features/" \/ pre = "../../features/" ->
  has_slash seg = false ->
  (target_feature_of (pre ++ seg) = seg
   /\ segment_after_features (pre ++ seg) = Some seg)
  /\ (endswith "features" seg = false ->
      target_feature_of (pre ++ seg ++ String "/" rest) = seg
      /\ segment_after_features (pre ++ seg ++ String "/" rest) = Some seg).
Proof.
  intros Hpre Hslash.
  assert (Hnth : forall r,
             nth 1 (split "features/" (pre ++ r)) EmptyString
             = hd EmptyString (split_from "features/" 0 EmptyString r)).
  { intros r. destruct Hpre as [-> | ->].
    - change (split "features/" ("@/features/" ++ r))
        with ("@/" :: split_from "features/" 0 EmptyString r).
      now destruct (split_from "features/" 0 EmptyString r).
    - change (split "features/" ("../../features/" ++ r))
        with ("../../" :: split_from "features/" 0 EmptyString r).
      now destruct (split_from "features/" 0 EmptyString r). }
  assert (Hclaim : forall r, segment_after_features (pre ++ r) = Some (upto_slash r)).
  { intros r. destruct Hpre as [-> | ->]; reflexivity. }
  split; [split|intros Hends; split].
  - unfold target_feature_of. rewrite Hnth. unfold split.
    rewrite (hd_split_features_no_slash seg Hslash), hd_split_slash.
    cbn [append]. now apply upto_slash_no_slash.
  - rewrite Hclaim. now rewrite upto_slash_no_slash.
  - unfold target_feature_of. rewrite Hnth. unfold split.
    destruct (hd_split_features_segment seg EmptyString rest Hslash Hends) as [t Ht].
    rewrite Ht, hd_split_slash. cbn [append]. now apply upto_slash_segment.
  - rewrite Hclaim. now rewrite upto_slash_segment.
Qed.

(** X13.  Outside that case the check reports the import: a line of a
    file that starts with import and whose module path names, right after
    features/, a segment that does not end in the word features and is
    neither the audited feature nor shared yields exactly one finding,
    with the segment, the relative path of the file and the 1-based line
    number; the finding is in the bleed list of the run and the dependency
    verdict is FAIL. *)
Lemma feature_bleed_reported (feature : string) (fs1 fs2 : list SourceFile)
    (f : SourceFile) (ls1 ls2 : list string) (line pre seg rest : string) :
  line_content f = ls1 +++ line :: ls2 ->
  startswith "import " (strip line) = true ->
  search_from line = Some (pre ++ seg ++ String "/" rest) ->
  pre = "@/features/" \/ pre = "../../features/" ->
  has_slash seg = false ->
  endswith "features" seg = false ->
  seg <> feature -> seg <> "shared" ->
  line_bleed feature (rel_path f) (List.length ls1, line)
  = ["Import from " ++ seg ++ " in " ++ rel_path f ++ ":"
     ++ str_of_nat (List.length ls1 + 1)]
  /\ (exists earlier later,
        bleed_of feature (fs1 +++ f :: fs2)
        = earlier
          +++ ["Import from " ++ seg ++ " in " ++ rel_path f ++ ":"
               ++ str_of_nat (List.length ls1 + 1)]
          +++ later)
  /\ dependency_manifest (stats (audit feature (fs1 +++ f :: fs2))) = FAIL.
Proof.
  intros Hlines Himport Hsearch Hpre Hslash Hends Hfeature Hshared.
  destruct (target_feature_of_segment pre seg rest Hpre Hslash) as [_ Htarget].
  destruct (Htarget Hends) as [Htf _].
  assert (Hline : line_bleed feature (rel_path f) (List.length ls1, line)
                  = ["Import from " ++ seg ++ " in " ++ rel_path f ++ ":"
                     ++ str_of_nat (List.length ls1 + 1)]).
  { rewrite (line_bleed_import feature (rel_path f) line _ _ Himport Hsearch).
    - rewrite Htf.
      apply String.eqb_neq in Hfeature. apply String.eqb_neq in Hshared.
      now rewrite Hfeature, Hshared.
    - destruct Hpre as [-> | ->]; reflexivity. }
  destruct (bleed_of_line feature fs1 fs2 f ls1 ls2 line Hlines) as [earlier [later Hb]].
  rewrite Hline in Hb.
  refine (conj Hline (conj _ _)).
  - now exists earlier, later.
  - apply dependency_verdict_iff. rewrite Hb.
    destruct earlier; discriminate.
Qed.

(** C6.  An import of another feature should be reported under the name
    of the path segment right after features/.  The code cuts the module
    path at every occurrence of the text features/, so for a segment that
    itself ends in features the target it computes is only the start of
    the segment: in the feature billing, the line that imports from
    @/features/sharedfeatures/Button has the segment sharedfeatures, which
    is neither billing nor shared, yet the computed target is shared, no
    finding is recorded and the dependency verdict is PASS. *)
Theorem C6_segment_ending_in_features_is_missed :
  let line := "import { Button } from " ++ dq ++ "@/features/sharedfeatures/Button" ++ dq
              ++ ";" in
  let path_str := "@/features/sharedfeatures/Button" in
  line_content client_ts = [line]
  /\ startswith "import " (strip line) = true
  /\ search_from line = Some path_str
  /\ startswith "@/features/" path_str = true
  /\ segment_after_features path_str = Some "sharedfeatures"
  /\ target_feature_of path_str = "shared"
  /\ bleed_of "billing" [client_ts] = []
  /\ feature_bleed (stats (audit "billing" [client_ts])) = []
  /\ issues (audit "billing" [client_ts]) = []
  /\ dependency_manifest (stats (audit "billing" [client_ts])) = PASS.
Proof. vm_compute. repeat split. Qed.

(* ================================================================== *)
(** ** to_camel_case *)
(* ================================================================== *)

Lemma replace_separators (s : string) :
  replace_char "-" EmptyString (replace_char "_" EmptyString s) = without_separators s.
Proof.
  induction s as [|c s IH]; [reflexivity|].
  cbn [replace_char without_separators]. unfold is_separator.
  destruct (Ascii.eqb_spec c "_") as [->|Hu]; cbn [orb append].
  - exact IH.
  - cbn [replace_char]. destruct (Ascii.eqb c "-"); cbn [append]; now rewrite IH.
Qed.

Lemma without_separators_clean (s : string) :
  allb (fun c => negb (is_separator c)) (without_separators s) = true.
Proof.
  induction s as [|c s IH]; [reflexivity|].
  cbn [without_separators]. destruct (is_separator c) eqn:E; [exact IH|].
  cbn [allb]. now rewrite E, IH.
Qed.

Lemma without_separators_length (s : string) :
  String.length (without_separators s) + count_separators s = String.length s.
Proof.
  induction s as [|c s IH]; [reflexivity|].
  cbn [without_separators count_separators String.length].
  destruct (is_separator c); cbn [String.length]; lia.
Qed.

Lemma without_separators_fixed (s : string) :
  allb (fun c => negb (is_separator c)) s = true -> without_separators s = s.
Proof.
  induction s as [|c s IH]; [reflexivity|].
  cbn [allb without_separators]. intros H. apply andb_true_iff in H.
  destruct H as [Hc Hs]. apply negb_true_iff in Hc. rewrite Hc. now rewrite IH.
Qed.

Lemma lower_char_idempotent (c : ascii) : lower_char (lower_char c) = lower_char c.
Proof. destruct c as [[] [] [] [] [] [] [] []]; vm_compute; reflexivity. Qed.

Lemma lower_char_separator (c : ascii) : is_separator (lower_char c) = is_separator c.
Proof. destruct c as [[] [] [] [] [] [] [] []]; vm_compute; reflexivity. Qed.

Lemma to_camel_case_first_kept (c : ascii) (rest : string) :
  is_separator c = false ->
  to_camel_case (String c rest) = Some (String (lower_char c) (without_separators rest)).
Proof.
  intros Hc. unfold to_camel_case. rewrite replace_separators.
  cbn [without_separators lower append]. rewrite Hc. reflexivity.
Qed.

(** X1.  [to_camel_case] raises exactly on the empty string.  On a text
    whose first character is neither an underscore nor a hyphen it returns
    the lower case of the first character followed by the rest with every
    underscore and hyphen left out: no other character is changed (no
    letter is capitalised), the part after the first character holds no
    separator, and it is shorter than the rest of the input by the number
    of separators in it. *)
Theorem to_camel_case_result (s : string) :
  (to_camel_case s = None <-> s = EmptyString)
  /\ (forall c rest,
        s = String c rest -> is_separator c = false ->
        to_camel_case s = Some (lower (String c EmptyString) ++ without_separators rest)
        /\ allb (fun d => negb (is_separator d)) (without_separators rest) = true
        /\ String.length (without_separators rest) + count_separators rest
           = String.length rest).
Proof.
  split.
  - destruct s; split; intros H; try reflexivity; discriminate.
  - intros c rest -> Hc. rewrite (to_camel_case_first_kept c rest Hc).
    repeat split.
    + apply without_separators_clean.
    + apply without_separators_length.
Qed.

Lemma to_camel_case_result_witness :
  is_separator "u" = false
  /\ to_camel_case "user_first-name" = Some "userfirstname".
Proof.
  split; [reflexivity|].
  exact (proj1 (proj2 (to_camel_case_result "user_first-name") "u"%char "ser_first-name"
                  eq_refl eq_refl)).
Defined.

(** X2.  When the text starts with a separator, the first character that
    is not a separator is lost: the result is the leading separator
    followed by what comes after that character, separators left out. *)
Theorem to_camel_case_leading_separator (sep c : ascii) (seps rest : string) :
  is_separator sep = true ->
  allb is_separator seps = true ->
  is_separator c = false ->
  to_camel_case (String sep (seps ++ String c rest))
  = Some (String sep (without_separators rest)).
Proof.
  intros Hsep Hseps Hc. unfold to_camel_case. rewrite replace_separators.
  cbn [lower append].
  assert (Hlow : lower_char sep = sep).
  { unfold is_separator in Hsep. apply orb_true_iff in Hsep.
    destruct Hsep as [H|H]; apply Ascii.eqb_eq in H; subst; reflexivity. }
  rewrite Hlow. cbn [without_separators]. rewrite Hsep.
  do 2 f_equal.
  induction seps as [|d seps IH].
  - cbn [append without_separators]. rewrite Hc. reflexivity.
  - cbn [allb] in Hseps. apply andb_true_iff in Hseps. destruct Hseps as [Hd Hs].
    cbn [append without_separators]. rewrite Hd. now apply IH.
Qed.

Lemma to_camel_case_leading_separator_witness :
  is_separator "_" = true
  /\ to_camel_case "__private_key" = Some "_rivatekey".
Proof.
  split; [reflexivity|].
  exact (to_camel_case_leading_separator "_"%char "p"%char "_" "rivate_key"
           eq_refl eq_refl eq_refl).
Defined.

(** X3.  On a text that does not start with a separator, applying
    [to_camel_case] to its own result changes nothing. *)
Theorem to_camel_case_idempotent (s r : string) (c : ascii) (rest : string) :
  s = String c rest -> is_separator c = false ->
  to_camel_case s = Some r -> to_camel_case r = Some r.
Proof.
  intros -> Hc Hr.
  rewrite (to_camel_case_first_kept c rest Hc) in Hr. injection Hr as <-.
  rewrite to_camel_case_first_kept by (now rewrite lower_char_separator).
  rewrite lower_char_idempotent.
  now rewrite (without_separators_fixed _ (without_separators_clean rest)).
Qed.

Lemma to_camel_case_idempotent_witness :
  to_camel_case "Account-id" = Some "accountid"
  /\ to_camel_case "accountid" = Some "accountid".
Proof.
  split; [reflexivity|].
  exact (to_camel_case_idempotent "Account-id" "accountid" "A"%char "ccount-id"
           eq_refl eq_refl eq_refl).
Defined.

(* ================================================================== *)
(** ** The checks on any auditor, and their order *)
(* ================================================================== *)

(** What one check method does to an auditor in any state: the feature
    and the files stay, the findings are appended to [issues], and each
    dictionary is updated from the feature name and the files alone. *)
Lemma run_check_fields (c : Check) (self : FeatureAuditor) :
  feature_name (run_check c self) = feature_name self
  /\ feature_path (run_check c self) = feature_path self
  /\ files (run_check c self) = files self
  /\ issues (run_check c self)
     = issues self +++ check_findings c (feature_name self) (files self)
  /\ stats (run_check c self)
     = check_stats c (feature_name self) (files self) (stats self)
  /\ mandate_checks (run_check c self)
     = check_mandate c (feature_name self) (files self) (mandate_checks self)
  /\ performance_checks (run_check c self)
     = check_performance c (files self) (performance_checks self).
Proof.
  destruct self as [fn fp fs iss st mc pc].
  destruct c; cbn [run_check check_findings check_stats check_mandate check_performance
                   feature_name feature_path files issues stats mandate_checks
                   performance_checks].
  - unfold audit_variable_entity_registry. cbn [files]. rewrite registry_loop. cbn [app snd].
    destruct (naming_violations_of fs); auditor_simpl; repeat split.
  - unfold audit_dependencies. cbn [files feature_name]. rewrite dependency_loop.
    cbn [app snd].
    destruct (bleed_of fn fs); auditor_simpl; repeat split.
  - unfold audit_sacred_mandate, audit_integer_cents. cbn [files].
    rewrite integer_cents_loop. cbn [orb app].
    destruct (has_financial_of fs) eqn:Hfin.
    + destruct (float_violations_of fs);
        unfold audit_soft_deletes; auditor_simpl; rewrite soft_delete_loop; cbn [orb app];
          destruct (delete_violations_of fs);
          unfold audit_auth_abstraction; auditor_simpl; rewrite auth_loop; cbn [app];
            destruct (auth_violations_of fn fs); auditor_simpl; cbn [app];
              rewrite ?app_nil_r, <- ?app_assoc; repeat split.
    + rewrite (float_violations_need_financial fs Hfin).
      unfold audit_soft_deletes; auditor_simpl; rewrite soft_delete_loop; cbn [orb app];
        destruct (delete_violations_of fs);
        unfold audit_auth_abstraction; auditor_simpl; rewrite auth_loop; cbn [app];
          destruct (auth_violations_of fn fs); auditor_simpl; cbn [app];
            rewrite ?app_nil_r, <- ?app_assoc; repeat split.
  - unfold audit_performance. cbn [files]. rewrite performance_loop. cbn [app].
    destruct (watch_violations_of fs); auditor_simpl; repeat split.
Qed.

Lemma same_up_to_issue_order_refl (a : FeatureAuditor) : same_up_to_issue_order a a.
Proof. unfold same_up_to_issue_order. repeat split. apply Permutation_refl. Qed.

Lemma same_up_to_issue_order_trans (a b c : FeatureAuditor) :
  same_up_to_issue_order a b -> same_up_to_issue_order b c -> same_up_to_issue_order a c.
Proof.
  unfold same_up_to_issue_order.
  intros [H1 [H2 [H3 [H4 [H5 [H6 H7]]]]]] [K1 [K2 [K3 [K4 [K5 [K6 K7]]]]]].
  repeat split; try congruence. eapply Permutation_trans; eassumption.
Qed.

Lemma run_check_respects (c : Check) (a b : FeatureAuditor) :
  same_up_to_issue_order a b ->
  same_up_to_issue_order (run_check c a) (run_check c b).
Proof.
  unfold same_up_to_issue_order. intros [H1 [H2 [H3 [H4 [H5 [H6 H7]]]]]].
  destruct (run_check_fields c a) as [A1 [A2 [A3 [A4 [A5 [A6 A7]]]]]].
  destruct (run_check_fields c b) as [B1 [B2 [B3 [B4 [B5 [B6 B7]]]]]].
  rewrite A1, A2, A3, A4, A5, A6, A7, B1, B2, B3, B4, B5, B6, B7.
  rewrite H1, H2, H3, H4, H5, H6.
  repeat split. now apply Permutation_app_tail.
Qed.

Lemma check_stats_swap (c1 c2 : Check) (feature : string) (fs : list SourceFile) (st : Stats) :
  check_stats c1 feature fs (check_stats c2 feature fs st)
  = check_stats c2 feature fs (check_stats c1 feature fs st).
Proof.
  destruct c1, c2; cbn [check_stats]; try reflexivity;
    destruct (nonempty (naming_violations_of fs));
    destruct (nonempty (bleed_of feature fs)); reflexivity.
Qed.

Lemma check_mandate_swap (c1 c2 : Check) (feature : string) (fs : list SourceFile)
    (m : MandateChecks) :
  check_mandate c1 feature fs (check_mandate c2 feature fs m)
  = check_mandate c2 feature fs (check_mandate c1 feature fs m).
Proof. destruct c1, c2; reflexivity. Qed.

Lemma check_performance_swap (c1 c2 : Check) (fs : list SourceFile) (p : PerformanceChecks) :
  check_performance c1 fs (check_performance c2 fs p)
  = check_performance c2 fs (check_performance c1 fs p).
Proof. destruct c1, c2; reflexivity. Qed.

(** Two check methods called one after the other, in either order. *)
Lemma run_check_swap (c1 c2 : Check) (self : FeatureAuditor) :
  same_up_to_issue_order (run_check c1 (run_check c2 self))
                         (run_check c2 (run_check c1 self)).
Proof.
  unfold same_up_to_issue_order.
  destruct (run_check_fields c1 self) as [A1 [A2 [A3 [A4 [A5 [A6 A7]]]]]].
  destruct (run_check_fields c2 self) as [B1 [B2 [B3 [B4 [B5 [B6 B7]]]]]].
  destruct (run_check_fields c1 (run_check c2 self)) as [C1 [C2 [C3 [C4 [C5 [C6 C7]]]]]].
  destruct (run_check_fields c2 (run_check c1 self)) as [D1 [D2 [D3 [D4 [D5 [D6 D7]]]]]].
  rewrite C1, C2, C3, C4, C5, C6, C7, D1, D2, D3, D4, D5, D6, D7.
  rewrite A1, A3, A4, A5, A6, A7, B1, B3, B4, B5, B6, B7.
  repeat split; try congruence.
  - apply check_stats_swap.
  - apply check_mandate_swap.
  - apply check_performance_swap.
  - rewrite <- !app_assoc. apply Permutation_app_head. apply Permutation_app_comm.
Qed.

Lemma run_in_order_respects (l : list Check) :
  forall a b,
    same_up_to_issue_order a b ->
    same_up_to_issue_order (run_in_order l a) (run_in_order l b).
Proof.
  induction l as [|c l IH]; intros a b H; [exact H|].
  cbn [run_in_order fold_left]. apply IH. now apply run_check_respects.
Qed.

Lemma run_checks_in_source_order (self : FeatureAuditor) :
  snd (run_checks self) = run_in_order source_order self.
Proof.
  unfold run_checks, run_in_order, source_order. cbn [fold_left run_check].
  destruct (audit_variable_entity_registry self) as [entities a1].
  cbn [snd]. destruct (audit_dependencies a1) as [transformers a2]. reflexivity.
Qed.

(** X4.  The four checks can run in any order: whatever the state of the
    auditor they start from, two orders of the same checks leave the same
    feature, files, verdicts and dictionaries, and the same findings in
    [issues] up to their order; in particular every order of the four
    agrees in this way with the order of [generate_markdown]. *)
Theorem checks_commute (l1 l2 : list Check) (self : FeatureAuditor) :
  Permutation l1 l2 ->
  same_up_to_issue_order (run_in_order l1 self) (run_in_order l2 self)
  /\ (l2 = source_order ->
      same_up_to_issue_order (run_in_order l1 self) (snd (run_checks self))).
Proof.
  intros H.
  assert (Hperm : forall s, same_up_to_issue_order (run_in_order l1 s) (run_in_order l2 s)).
  { induction H as [|c l l' H IH|c1 c2 l|l l' l'' H1 IH1 H2 IH2]; intros s.
    - apply same_up_to_issue_order_refl.
    - cbn [run_in_order fold_left]. apply IH.
    - cbn [run_in_order fold_left]. apply (run_in_order_respects l). apply run_check_swap.
    - eapply same_up_to_issue_order_trans; [apply IH1 | apply IH2]. }
  split; [apply Hperm|].
  intros ->. rewrite run_checks_in_source_order. apply Hperm.
Qed.

Lemma checks_commute_witness :
  Permutation [CheckPerformance; CheckMandate; CheckDependencies; CheckRegistry] source_order
  /\ same_up_to_issue_order
       (run_in_order [CheckPerformance; CheckMandate; CheckDependencies; CheckRegistry]
          (set_files (init "accounts") [session_ts; form_tsx; user_ts]))
       (snd (run_checks (set_files (init "accounts") [session_ts; form_tsx; user_ts]))).
Proof.
  assert (P : Permutation [CheckPerformance; CheckMandate; CheckDependencies; CheckRegistry]
                source_order).
  { change source_order with (rev [CheckPerformance; CheckMandate; CheckDependencies;
                                   CheckRegistry]).
    apply Permutation_rev. }
  split; [exact P|].
  exact (proj2 (checks_commute _ _ _ P) eq_refl).
Defined.

(** The four checks of [generate_markdown] on an auditor in any state. *)
Lemma run_checks_any_state (self : FeatureAuditor) :
  let a := snd (run_checks self) in
  let feature := feature_name self in
  let fs := files self in
  feature_name a = feature /\ files a = fs
  /\ issues a = issues self +++ issues (audit feature fs)
  /\ stats a = check_stats CheckDependencies feature fs
                 (check_stats CheckRegistry feature fs (stats self))
  /\ mandate_checks a = check_mandate CheckMandate feature fs (mandate_checks self)
  /\ performance_checks a = check_performance CheckPerformance fs (performance_checks self).
Proof.
  cbv zeta. rewrite run_checks_in_source_order.
  unfold run_in_order, source_order. cbn [fold_left].
  set (s1 := run_check CheckRegistry self).
  set (s2 := run_check CheckDependencies s1).
  set (s3 := run_check CheckMandate s2).
  destruct (run_check_fields CheckRegistry self) as [A1 [_ [A3 [A4 [A5 [A6 A7]]]]]].
  destruct (run_check_fields CheckDependencies s1) as [B1 [_ [B3 [B4 [B5 [B6 B7]]]]]].
  destruct (run_check_fields CheckMandate s2) as [C1 [_ [C3 [C4 [C5 [C6 C7]]]]]].
  destruct (run_check_fields CheckPerformance s3) as [D1 [_ [D3 [D4 [D5 [D6 D7]]]]]].
  fold s1 in A1, A3, A4, A5, A6, A7. fold s2 in B1, B3, B4, B5, B6, B7.
  fold s3 in C1, C3, C4, C5, C6, C7.
  assert (F3 : feature_name s3 = feature_name self) by congruence.
  assert (F2 : feature_name s2 = feature_name self) by congruence.
  assert (G3 : files s3 = files self) by congruence.
  assert (G2 : files s2 = files self) by congruence.
  rewrite D1, D3, D4, D5, D6, D7, C4, C5, C6, C7, B4, B5, B6, B7, A4, A5, A6, A7.
  rewrite ?F3, ?F2, ?A1, ?G3, ?G2, ?A3.
  cbn [check_stats check_mandate check_performance check_findings].
  rewrite issues_audit, <- !app_assoc. repeat split.
Qed.

(** X5.  [generate_markdown] keeps adding to the auditor it is called on:
    a second call on the same object appends every finding a second time,
    while the verdicts, the files and what the checks return stay as the
    first call left them. *)
Theorem generate_markdown_twice (today : Date) (feature : string) (fs : list SourceFile) :
  let first := generate_markdown today (set_files (init feature) fs) in
  let second := generate_markdown today (snd first) in
  issues (snd second) = issues (snd first) +++ issues (snd first)
  /\ stats (snd second) = stats (snd first)
  /\ mandate_checks (snd second) = mandate_checks (snd first)
  /\ performance_checks (snd second) = performance_checks (snd first)
  /\ files (snd second) = files (snd first)
  /\ fst (fst (run_checks (snd first))) = entities_of fs
  /\ snd (fst (run_checks (snd first))) = transformers_of feature fs.
Proof.
  cbv zeta. rewrite generate_markdown_eq. cbn [snd].
  assert (Hsnd : forall d self, snd (generate_markdown d self) = snd (run_checks self)).
  { intros d self. unfold generate_markdown.
    destruct (run_checks self) as [[e t] a]. reflexivity. }
  rewrite Hsnd.
  destruct (run_checks_any_state (audit feature fs)) as [H1 [H2 [H3 [H4 [H5 H6]]]]].
  assert (Hn : feature_name (audit feature fs) = feature) by now rewrite audit_eq.
  assert (Hf : files (audit feature fs) = fs) by now rewrite audit_eq.
  rewrite Hn, Hf in *.
  refine (conj H3 (conj _ (conj _ (conj _ (conj H2 (conj _ _)))))).
  - rewrite H4, audit_eq. cbn [check_stats stats audited_state].
    destruct (nonempty (naming_violations_of fs));
      destruct (nonempty (bleed_of feature fs)); reflexivity.
  - rewrite H5, audit_eq. cbn [check_mandate mandate_checks audited_state].
    destruct (has_financial_of fs); destruct (nonempty (float_violations_of fs));
      destruct (nonempty (delete_violations_of fs));
      destruct (nonempty (auth_violations_of feature fs)); reflexivity.
  - rewrite H6, audit_eq. cbn [check_performance performance_checks audited_state].
    destruct (nonempty (watch_violations_of fs)); reflexivity.
  - unfold run_checks, audit_variable_entity_registry. rewrite Hf, registry_loop.
    cbn [app]. destruct (nonempty (naming_violations_of fs));
      destruct (audit_dependencies _); reflexivity.
  - unfold run_checks.
    destruct (audit_variable_entity_registry (audit feature fs)) as [e a1] eqn:E1.
    assert (Ha1 : a1 = run_check CheckRegistry (audit feature fs))
      by (cbn [run_check]; now rewrite E1).
    destruct (run_check_fields CheckRegistry (audit feature fs)) as [K1 [_ [K3 _]]].
    rewrite <- Ha1, Hn in K1. rewrite <- Ha1, Hf in K3.
    unfold audit_dependencies. rewrite K1, K3, dependency_loop. cbn [app].
    destruct (nonempty (bleed_of feature fs)); reflexivity.
Qed.

(* ================================================================== *)
(** ** scan_files *)
(* ================================================================== *)

Lemma forallb_false_exists {A : Type} (p : A -> bool) (l : list A) :
  forallb p l = false -> exists x, In x l /\ p x = false.
Proof.
  induction l as [|x l IH]; cbn [forallb]; [discriminate|].
  intros H. apply andb_false_iff in H. destruct H as [H|H].
  - exists x. split; [now left | exact H].
  - destruct (IH H) as [y [Hin Hy]]. exists y. split; [now right | exact Hy].
Qed.

Lemma scan_dir_result (cwd root : string) (entries : list (string * option string)) :
  forall acc,
    let es := filter is_source_entry (map (fun e => (root, fst e, snd e)) entries) in
    scan_dir cwd root entries acc
    = if forallb is_readable es
      then Some (acc +++ flat_map (load_entry cwd) es)
      else None.
Proof.
  induction entries as [|[file text] entries IH]; intros acc; cbv zeta.
  - cbn. now rewrite app_nil_r.
  - cbn [scan_dir map filter fst snd].
    change (is_source_entry (root, file, text)) with (is_source_name file).
    destruct (is_source_name file).
    + cbn [forallb flat_map].
      change (is_readable (root, file, text))
        with (match text with Some _ => true | None => false end).
      change (load_entry cwd (root, file, text))
        with (match text with Some t => [load_source cwd root file t] | None => [] end).
      destruct text as [c|]; [|reflexivity].
      cbn [andb]. rewrite IH. cbv zeta.
      destruct (forallb is_readable _); [|reflexivity].
      now rewrite <- app_assoc.
    + apply IH.
Qed.

Lemma scan_walk_result (cwd : string)
    (items : list (string * list string * list (string * option string))) :
  forall acc,
    let es := filter is_source_entry (walk_entries items) in
    scan_walk cwd items acc
    = if forallb is_readable es
      then Some (acc +++ flat_map (load_entry cwd) es)
      else None.
Proof.
  induction items as [|[[root dirs] fs] items IH]; intros acc; cbv zeta.
  - cbn. now rewrite app_nil_r.
  - cbn [scan_walk walk_entries flat_map fst snd].
    rewrite scan_dir_result. cbv zeta.
    rewrite filter_app, forallb_app, flat_map_app.
    destruct (forallb is_readable
                (filter is_source_entry (map (fun e => (root, fst e, snd e)) fs)));
      [|reflexivity].
    cbn [andb]. rewrite IH. cbv zeta. fold (walk_entries items).
    destruct (forallb is_readable (filter is_source_entry (walk_entries items)));
      [|reflexivity].
    now rewrite <- app_assoc.
Qed.

Lemma scan_files_eq (w : World) (self : FeatureAuditor) :
  scan_files w self
  = if forallb is_readable (filter is_source_entry (walk_entries (feature_walk w self)))
    then Some (set_files self
                 (files self
                  +++ flat_map (load_entry (cwd w))
                        (filter is_source_entry (walk_entries (feature_walk w self)))))
    else None.
Proof.
  unfold scan_files, feature_walk. rewrite scan_walk_result. cbv zeta.
  destruct (forallb is_readable _); reflexivity.
Qed.

Lemma scan_files_None_iff (w : World) (self : FeatureAuditor) :
  scan_files w self = None
  <-> exists root file,
        In (root, file, None) (walk_entries (feature_walk w self))
        /\ is_source_name file = true.
Proof.
  rewrite scan_files_eq.
  destruct (forallb is_readable (filter is_source_entry (walk_entries (feature_walk w self))))
    eqn:F.
  - split; [discriminate|].
    intros [root [file [Hin Hsrc]]]. exfalso.
    rewrite forallb_forall in F.
    assert (is_readable (root, file, None) = true) as R.
    { apply F. apply filter_In. split; [exact Hin | exact Hsrc]. }
    discriminate R.
  - split; [intros _|reflexivity].
    destruct (forallb_false_exists _ _ F) as [[[root file] text] [Hin Hr]].
    apply filter_In in Hin. destruct Hin as [Hin Hsrc].
    unfold is_readable in Hr. cbn [snd] in Hr.
    destruct text as [c|]; [discriminate|].
    exists root, file. split; [exact Hin | exact Hsrc].
Qed.

(** X6.  On an auditor whose feature name is one path component,
    [scan_files] raises exactly when some file of the walk whose name ends
    in .ts or .tsx cannot be read; files with other names are never
    opened.  Otherwise it appends to the files the auditor already holds
    one entry per such file, in walk order, and changes nothing else. *)
Theorem scan_files_result (w : World) (self : FeatureAuditor) :
  well_named self ->
  let es := filter is_source_entry (walk_entries (feature_walk w self)) in
  scan_files w self
  = (if forallb is_readable es
     then Some (set_files self (files self +++ flat_map (load_entry (cwd w)) es))
     else None)
  /\ (scan_files w self = None
      <-> exists root file,
            In (root, file, None) (walk_entries (feature_walk w self))
            /\ is_source_name file = true).
Proof.
  intros _. cbv zeta. split; [apply scan_files_eq | apply scan_files_None_iff].
Qed.

Lemma scan_files_result_witness :
  well_named (init "broken")
  /\ scan_files accounts_world (init "broken") = None
  /\ exists root file,
       In (root, file, None) (walk_entries (feature_walk accounts_world (init "broken")))
       /\ is_source_name file = true.
Proof.
  assert (Hname : well_named (init "broken")) by (split; reflexivity).
  split; [exact Hname|].
  destruct (scan_files_result accounts_world (init "broken") Hname) as [_ H].
  split; [reflexivity|]. apply H. reflexivity.
Defined.

Lemma startswith_refl_app (a b : string) : startswith a (a ++ b) = true.
Proof.
  induction a as [|c a IH]; [reflexivity|]. cbn. now rewrite Ascii.eqb_refl, IH.
Qed.

(** The directories of a walk are the top directory and paths below it. *)
Fixpoint walk_roots (node : FsNode) :
  forall top,
    Forall (fun item => exists suffix, fst (fst item) = top ++ suffix
                         /\ (suffix = EmptyString \/ startswith "/" suffix = true))
           (walk top node).
Proof.
  intros top. destruct node as [text|[entries|]]; cbn [walk]; try constructor.
  - exists EmptyString. cbn [fst]. split; [now rewrite append_nil_r | now left].
  - induction entries as [|[d child] entries IHe]; [constructor|].
    apply Forall_app. split; [|exact IHe].
    pose proof (walk_roots child (top ++ "/" ++ d)) as H.
    eapply Forall_impl; [|exact H].
    intros item [suffix [E Hs]]. exists ("/" ++ d ++ suffix). split.
    + rewrite E. now rewrite !append_assoc.
    + right. reflexivity.
Qed.

Lemma walk_entries_root (items : list (string * list string * list (string * option string)))
    (P : string -> Prop) :
  Forall (fun item => P (fst (fst item))) items ->
  Forall (fun e => P (fst (fst e))) (walk_entries items).
Proof.
  induction items as [|item items IH]; intros H; [constructor|].
  inversion H as [|? ? Hitem Hrest]; subst.
  unfold walk_entries. cbn [flat_map]. apply Forall_app. split; [|now apply IH].
  apply Forall_forall. intros e He. apply in_map_iff in He.
  destruct He as [x [<- _]]. exact Hitem.
Qed.

Lemma walk_entries_names (w : World) (feature : string) :
  map (fun e => snd (fst e)) (walk_entries (feature_walk w (init feature)))
  = walked_files w feature.
Proof.
  unfold walked_files, feature_walk. cbn [feature_path feature_name init].
  induction (os_walk ("features/" ++ feature) (lookup feature (features_dir w)))
    as [|item items IH]; [reflexivity|].
  unfold walk_entries. cbn [flat_map]. rewrite map_app, map_map.
  fold (walk_entries items). rewrite IH. reflexivity.
Qed.

Lemma loaded_names (cwd : string) (es : list (string * string * option string)) :
  forallb is_readable es = true ->
  map name (flat_map (load_entry cwd) es) = map (fun e => snd (fst e)) es.
Proof.
  induction es as [|[[root file] text] es IH]; [reflexivity|].
  cbn [forallb flat_map map]. intros H. apply andb_true_iff in H. destruct H as [Hr Hrest].
  unfold is_readable in Hr. cbn [snd] in Hr. destruct text as [c|]; [|discriminate].
  unfold load_entry at 1. cbn [fst snd app map name load_source]. f_equal. now apply IH.
Qed.

Lemma filter_source_names (es : list (string * string * option string)) :
  map (fun e => snd (fst e)) (filter is_source_entry es)
  = filter is_source_name (map (fun e => snd (fst e)) es).
Proof.
  induction es as [|e es IH]; [reflexivity|].
  cbn [filter map]. unfold is_source_entry at 1.
  destruct (is_source_name (snd (fst e))); cbn [map]; now rewrite IH.
Qed.

Lemma scanned_files_ok (w : World) (feature : string) (a : FeatureAuditor) :
  scan_files w (init feature) = Some a ->
  Forall (scanned_file_ok feature) (files a).
Proof.
  intros H. rewrite scan_files_eq in H.
  destruct (forallb is_readable
              (filter is_source_entry (walk_entries (feature_walk w (init feature)))))
    eqn:F; [|discriminate].
  injection H as <-. cbn [files set_files init app].
  - assert (Hroots : Forall (fun e => exists suffix,
                               fst (fst e) = ("features/" ++ feature) ++ suffix
                               /\ (suffix = EmptyString \/ startswith "/" suffix = true))
                       (walk_entries (feature_walk w (init feature)))).
    { apply (walk_entries_root _
               (fun root => exists suffix, root = ("features/" ++ feature) ++ suffix
                            /\ (suffix = EmptyString \/ startswith "/" suffix = true))).
      unfold feature_walk, os_walk. cbn [feature_path feature_name init].
      destruct (lookup feature (features_dir w)) as [node|]; [apply walk_roots | constructor]. }
    apply Forall_forall. intros f Hf. apply in_flat_map in Hf.
    destruct Hf as [[[root file] text] [He Hload]].
    apply filter_In in He. destruct He as [He Hsrc].
    rewrite Forall_forall in Hroots. destruct (Hroots _ He) as [suffix [Hroot Hsuf]].
    cbn [fst] in Hroot.
    unfold load_entry in Hload. cbn [fst snd] in Hload.
    destruct text as [c|]; [|destruct Hload].
    destruct Hload as [<-|[]].
    unfold scanned_file_ok. cbn [name line_content lines content rel_path load_source].
    refine (conj Hsrc (conj eq_refl (conj eq_refl (conj _ _)))).
    + rewrite Hroot. destruct Hsuf as [-> | Hs].
      * rewrite append_nil_r.
        replace (("features/" ++ feature) ++ "/" ++ file)
          with (("features/" ++ feature ++ "/") ++ file)
          by (now rewrite !append_assoc).
        apply startswith_refl_app.
      * apply startswith_app in Hs. destruct Hs as [y ->].
        replace ((("features/" ++ feature) ++ "/" ++ y) ++ "/" ++ file)
          with (("features/" ++ feature ++ "/") ++ (y ++ "/" ++ file))
          by (now rewrite !append_assoc).
        apply startswith_refl_app.
    + now exists root.
Qed.

(** X7.  After a successful [scan_files] on a new auditor whose feature
    name is one path component, the names of the files it holds are the
    names of the walk that end in .ts or .tsx, in walk order, and every
    entry is consistent: its line list is [splitlines] of its content, its
    line count is the length of that list, and its relative path lies
    under features/<feature>/ and ends in a slash and its name. *)
Theorem scanned_files_invariants (w : World) (feature : string) (a : FeatureAuditor) :
  plain_name feature = true ->
  scan_files w (init feature) = Some a ->
  map name (files a) = filter is_source_name (walked_files w feature)
  /\ Forall (scanned_file_ok feature) (files a).
Proof.
  intros _ H. split; [|exact (scanned_files_ok w feature a H)].
  rewrite scan_files_eq in H.
  destruct (forallb is_readable
              (filter is_source_entry (walk_entries (feature_walk w (init feature)))))
    eqn:F; [|discriminate].
  injection H as <-. cbn [files set_files init app].
  rewrite (loaded_names _ _ F), filter_source_names, walk_entries_names. reflexivity.
Qed.

Lemma scanned_files_invariants_witness :
  plain_name "accounts" = true
  /\ scan_files accounts_world (init "accounts") = Some (scanned accounts_world "accounts")
  /\ map name (files (scanned accounts_world "accounts")) = ["user.ts"; "session.ts"]
  /\ Forall (scanned_file_ok "accounts")
            (files (scanned accounts_world "accounts")).
Proof.
  split; [reflexivity|]. split; [reflexivity|].
  destruct (scanned_files_invariants accounts_world "accounts"
              (scanned accounts_world "accounts") eq_refl eq_refl) as [H1 H2].
  split; [rewrite H1; reflexivity | exact H2].
Defined.

Lemma startswith_app_l (p a b : string) :
  startswith p a = true -> startswith p (a ++ b) = true.
Proof.
  revert a. induction p as [|c p IH]; intros a H; [reflexivity|].
  destruct a as [|d a]; [discriminate|]. cbn in H |- *.
  apply andb_true_iff in H. destruct H as [H1 H2]. now rewrite H1, IH.
Qed.

Lemma contains_app_l (sub a b : string) :
  contains sub a = true -> contains sub (a ++ b) = true.
Proof.
  induction a as [|c a IH]; intros H.
  - cbn in H. rewrite orb_false_r in H. destruct sub; [|discriminate].
    destruct b; reflexivity.
  - cbn [contains] in H. apply orb_true_iff in H. cbn [append contains].
    destruct H as [H|H].
    + change (String c (a ++ b)) with (String c a ++ b).
      now rewrite (startswith_app_l _ _ _ H).
    + rewrite (IH H). apply orb_true_r.
Qed.

Lemma contains_app_r (sub a b : string) :
  contains sub b = true -> contains sub (a ++ b) = true.
Proof.
  intros H. induction a as [|c a IH]; [exact H|].
  cbn [append contains]. rewrite IH. apply orb_true_r.
Qed.

(** X8.  For a feature name that is one path component, the relative
    path of every scanned file starts with the feature directory, so a
    word in the feature's name is found in the path of every file: in a
    feature whose name contains domain, every file is
    searched for snake_case properties, whatever its folder; in a feature
    whose name contains repository, every file that mentions delete
    without a marker is reported by the soft-delete check. *)
Theorem feature_name_marks_every_file (w : World) (feature word : string)
    (a : FeatureAuditor) :
  plain_name feature = true ->
  scan_files w (init feature) = Some a ->
  contains word feature = true ->
  Forall (fun f => contains word (rel_path f) = true) (files a)
  /\ (word = "domain" ->
      naming_violations_of (files a)
      = flat_map (fun f => map (fun prop => naming_message prop (rel_path f))
                               (findall_snake (content f))) (files a))
  /\ (word = "repository" ->
      delete_violations_of (files a)
      = map (fun f => delete_message (rel_path f))
            (filter (fun f => contains "delete" (lower (content f)) && negb (has_marker f))
                    (files a))).
Proof.
  intros _ Hscan Hword.
  pose proof (scanned_files_ok w feature a Hscan) as Hok.
  assert (Hall : Forall (fun f => contains word (rel_path f) = true) (files a)).
  { eapply Forall_impl; [|exact Hok].
    intros f [_ [_ [_ [Hstart _]]]].
    apply startswith_app in Hstart. destruct Hstart as [y ->].
    apply contains_app_l. apply contains_app_r. now apply contains_app_l. }
  split; [exact Hall|]. split.
  - intros ->. unfold naming_violations_of.
    induction (files a) as [|f fs IH]; [reflexivity|].
    inversion Hall as [|? ? Hf Hfs]; subst. inversion Hok as [|? ? _ Hok']; subst.
    cbn [flat_map]. unfold file_naming_violations at 1. rewrite Hf.
    now rewrite (IH Hok' Hfs).
  - intros ->. unfold delete_violations_of. f_equal.
    induction (files a) as [|f fs IH]; [reflexivity|].
    inversion Hall as [|? ? Hf Hfs]; subst. inversion Hok as [|? ? _ Hok']; subst.
    cbn [filter]. unfold delete_flagged at 1, delete_repository_file. rewrite Hf.
    rewrite andb_true_r. now rewrite (IH Hok' Hfs).
Qed.

Lemma feature_name_marks_every_file_witness :
  plain_name "domain-events" = true
  /\ scan_files accounts_world (init "domain-events")
  = Some (scanned accounts_world "domain-events")
  /\ contains "domain" "domain-events" = true
  /\ naming_violations_of (files (scanned accounts_world "domain-events"))
     = ["Snake_case property 'event_id' in domain file features/domain-events/api/payload.ts"].
Proof.
  split; [reflexivity|]. split; [reflexivity|]. split; [reflexivity|].
  rewrite (proj1 (proj2 (feature_name_marks_every_file accounts_world "domain-events"
                           "domain" (scanned accounts_world "domain-events")
                           eq_refl eq_refl eq_refl)) eq_refl).
  reflexivity.
Defined.

(* ================================================================== *)
(** ** The performance and naming checks as a whole *)
(* ================================================================== *)

(** X9.  After a run the watch verdict is FAIL exactly when some file
    contains watch( without useWatch and mentions react-hook-form, and
    PASS otherwise; the check collects one message per such file, in file
    order, all recorded in [issues], and never touches the re-render
    entry.  On an auditor in any state it only ever writes FAIL: a verdict
    that is FAIL stays FAIL. *)
Theorem performance_check_result (feature : string) (fs : list SourceFile) :
  let a := audit feature fs in
  let v := react_compiler (performance_checks a) in
  (v = FAIL <->
   exists f, In f fs /\ contains "watch(" (content f) = true
             /\ contains "useWatch" (content f) = false
             /\ contains "react-hook-form" (content f) = true)
  /\ (v = FAIL \/ v = PASS)
  /\ re_render (performance_checks a) = PASS
  /\ fold_left performance_body fs []
     = map (fun f => "Usage of watch() instead of useWatch in " ++ rel_path f)
           (filter watch_flagged fs)
  /\ incl (fold_left performance_body fs []) (issues a)
  /\ (forall self,
        react_compiler (performance_checks self) = FAIL ->
        react_compiler (performance_checks (audit_performance self)) = FAIL).
Proof.
  cbv zeta. rewrite performance_loop. cbn [app].
  rewrite audit_eq. cbn [react_compiler re_render performance_checks audited_state issues].
  unfold watch_violations_of at 1 2 3. rewrite nonempty_map_filter.
  assert (Hex : existsb watch_flagged fs = true
                <-> exists f, In f fs /\ contains "watch(" (content f) = true
                              /\ contains "useWatch" (content f) = false
                              /\ contains "react-hook-form" (content f) = true).
  { rewrite existsb_exists. unfold watch_flagged.
    split; intros [f [Hin H]]; exists f; split; auto.
    - apply andb_true_iff in H. destruct H as [H H3].
      apply andb_true_iff in H. destruct H as [H1 H2].
      apply negb_true_iff in H2. auto.
    - destruct H as [H1 [H2 H3]]. now rewrite H1, H2, H3. }
  refine (conj _ (conj _ (conj eq_refl (conj eq_refl (conj _ _))))).
  - destruct (existsb watch_flagged fs).
    + split; [intros _; now apply Hex | reflexivity].
    + split; [discriminate|]. intros H. apply Hex in H. discriminate.
  - destruct (existsb watch_flagged fs); auto.
  - intros x Hx. do 5 (apply in_or_app; right). exact Hx.
  - intros self Hfail.
    destruct (run_check_fields CheckPerformance self) as [_ [_ [_ [_ [_ [_ H]]]]]].
    cbn [run_check check_performance] in H. rewrite H.
    destruct (nonempty (watch_violations_of (files self))); [reflexivity | exact Hfail].
Qed.

(** X10.  The naming verdict is FAIL exactly when some file whose relative
    path contains domain has a match of the snake_case pattern, and PASS
    otherwise; files outside such paths add no violation, and the
    entity-registry entry of [stats] is never written. *)
Theorem naming_check_result (feature : string) (fs : list SourceFile) :
  let a := audit feature fs in
  (naming (stats a) = FAIL <->
   exists f, In f fs /\ contains "domain" (rel_path f) = true
             /\ findall_snake (content f) <> [])
  /\ (naming (stats a) = FAIL \/ naming (stats a) = PASS)
  /\ entity_registry (stats a) = PASS
  /\ snd (fold_left registry_body fs ([], []))
     = flat_map (fun f => map (fun prop => naming_message prop (rel_path f))
                              (findall_snake (content f)))
                (filter (fun f => contains "domain" (rel_path f)) fs).
Proof.
  cbv zeta. rewrite registry_loop. cbn [app snd]. rewrite naming_verdict.
  assert (Hne : naming_violations_of fs <> []
                <-> exists f, In f fs /\ contains "domain" (rel_path f) = true
                              /\ findall_snake (content f) <> []).
  { unfold naming_violations_of. split.
    - intros H. induction fs as [|f fs IH]; [now elim H|].
      cbn [flat_map] in H. unfold file_naming_violations at 1 in H.
      destruct (contains "domain" (rel_path f)) eqn:Hd.
      + destruct (findall_snake (content f)) eqn:Hs.
        * cbn [map app] in H. destruct (IH H) as [g [Hin Hg]].
          exists g. split; [now right | exact Hg].
        * exists f. split; [now left|]. split; [exact Hd|]. rewrite Hs. discriminate.
      + cbn [app] in H. destruct (IH H) as [g [Hin Hg]].
        exists g. split; [now right | exact Hg].
    - intros [f [Hin [Hd Hs]]] E.
      assert (Hsub : forall m, In m (file_naming_violations f) -> False).
      { intros m Hm. assert (In m (flat_map file_naming_violations fs)) as K.
        { apply in_flat_map. now exists f. }
        rewrite E in K. destruct K. }
      unfold file_naming_violations in Hsub. rewrite Hd in Hsub.
      destruct (findall_snake (content f)) as [|p l]; [now apply Hs|].
      apply (Hsub (naming_message p (rel_path f))). now left. }
  assert (Hflat : naming_violations_of fs
                  = flat_map (fun f => map (fun prop => naming_message prop (rel_path f))
                                           (findall_snake (content f)))
                             (filter (fun f => contains "domain" (rel_path f)) fs)).
  { clear Hne. unfold naming_violations_of. induction fs as [|f fs IH]; [reflexivity|].
    cbn [flat_map filter]. unfold file_naming_violations at 1.
    destruct (contains "domain" (rel_path f)); cbn [flat_map app]; now rewrite IH. }
  refine (conj _ (conj _ (conj _ Hflat))).
  - destruct (naming_violations_of fs) eqn:E; cbn [nonempty].
    + split; [discriminate|]. intros H. apply Hne in H. now elim H.
    + split; [intros _; apply Hne; discriminate | reflexivity].
  - destruct (nonempty (naming_violations_of fs)); auto.
  - now rewrite audit_eq.
Qed.

(* ================================================================== *)
(** ** The entity inventory *)
(* ================================================================== *)

Lemma strip_prefix_app (p s r : string) : strip_prefix p s = Some r -> s = p ++ r.
Proof.
  revert s. induction p as [|a p IH]; intros s H.
  - cbn in H. now injection H as ->.
  - destruct s as [|b s]; [discriminate|]. cbn in H.
    destruct (Ascii.eqb_spec a b) as [->|_]; [|discriminate].
    cbn. f_equal. now apply IH.
Qed.

Lemma match_kind_app (s kind r : string) :
  match_kind s = Some (kind, r) ->
  (kind = "interface" \/ kind = "type" \/ kind = "class") /\ s = kind ++ r.
Proof.
  unfold match_kind.
  destruct (strip_prefix "interface" s) as [r1|] eqn:E1.
  { intros H. injection H as <- <-. split; [auto | now apply strip_prefix_app]. }
  destruct (strip_prefix "type" s) as [r2|] eqn:E2.
  { intros H. injection H as <- <-. split; [auto | now apply strip_prefix_app]. }
  destruct (strip_prefix "class" s) as [r3|] eqn:E3; [|discriminate].
  intros H. injection H as <- <-. split; [auto | now apply strip_prefix_app].
Qed.

Lemma match_entity_app (s export kind nm rest : string) :
  match_entity s = Some ((export, kind, nm), rest) ->
  (kind = "interface" \/ kind = "type" \/ kind = "class")
  /\ nm <> EmptyString /\ allb is_alnum nm = true
  /\ s = export ++ kind ++ " " ++ nm ++ rest.
Proof.
  unfold match_entity.
  destruct (strip_prefix "export " s) as [r|] eqn:E.
  - apply strip_prefix_app in E. subst s.
    destruct (match_kind r) as [[k [|b s2]]|] eqn:Ek; try discriminate.
    destruct (Ascii.eqb_spec b " ") as [->|_]; [|discriminate].
    destruct (span is_alnum s2) as [[|c n] s3] eqn:Es; [discriminate|].
    intros H. injection H as <- <- <- <-.
    destruct (match_kind_app _ _ _ Ek) as [Hk ->].
    destruct (span_eq _ _ _ _ Es) as [-> [Hn _]].
    repeat split; auto; try discriminate; try (now rewrite !append_assoc).
  - destruct (match_kind s) as [[k [|b s2]]|] eqn:Ek; try discriminate.
    destruct (Ascii.eqb_spec b " ") as [->|_]; [|discriminate].
    destruct (span is_alnum s2) as [[|c n] s3] eqn:Es; [discriminate|].
    intros H. injection H as <- <- <- <-.
    destruct (match_kind_app _ _ _ Ek) as [Hk ->].
    destruct (span_eq _ _ _ _ Es) as [-> [Hn _]].
    repeat split; auto; try discriminate; try (now rewrite !append_assoc).
Qed.

Lemma contains_refl_app (x rest : string) : contains x (x ++ rest) = true.
Proof.
  destruct x as [|c x]; [destruct rest; reflexivity|].
  cbn [append contains].
  change (String c (x ++ rest)) with (String c x ++ rest).
  now rewrite startswith_refl_app.
Qed.

Lemma findall_entity_fuel_ok (n : nat) :
  forall s,
    Forall (fun m => let '(export, kind, nm) := m in
                     (kind = "interface" \/ kind = "type" \/ kind = "class")
                     /\ nm <> EmptyString /\ allb is_alnum nm = true
                     /\ contains (kind ++ " " ++ nm) s = true)
           (findall_entity_fuel n s).
Proof.
  induction n as [|n IH]; intros s; [constructor|].
  destruct s as [|c s]; [constructor|]. cbn [findall_entity_fuel].
  destruct (match_entity (String c s)) as [[[[export kind] nm] rest]|] eqn:E.
  - destruct (match_entity_app _ _ _ _ _ E) as [Hk [Hn [Ha Hs]]].
    constructor.
    + refine (conj Hk (conj Hn (conj Ha _))). rewrite Hs.
      apply contains_app_r.
      replace (kind ++ " " ++ nm ++ rest) with ((kind ++ " " ++ nm) ++ rest)
        by (now rewrite !append_assoc).
      apply contains_refl_app.
    + eapply Forall_impl; [|apply (IH rest)].
      intros [[e k] m] [H1 [H2 [H3 H4]]]. refine (conj H1 (conj H2 (conj H3 _))).
      rewrite Hs.
      replace (export ++ kind ++ " " ++ nm ++ rest)
        with ((export ++ kind ++ " " ++ nm) ++ rest)
        by (now rewrite !append_assoc).
      now apply contains_app_r.
  - eapply Forall_impl; [|apply (IH s)].
    intros [[e k] m] [H1 [H2 [H3 H4]]]. refine (conj H1 (conj H2 (conj H3 _))).
    cbn [contains]. rewrite H4. apply orb_true_r.
Qed.

(** X11.  Every row of the entity inventory that
    [audit_variable_entity_registry] returns has the kind interface, type
    or class, a name that is not empty and made of letters and digits, and
    the relative path of one of the scanned files, whose content contains
    the kind, a blank and the name. *)
Theorem entities_well_formed (feature : string) (fs : list SourceFile) :
  fst (audit_variable_entity_registry (set_files (init feature) fs)) = entities_of fs
  /\ Forall (entity_ok fs) (entities_of fs).
Proof.
  split.
  - unfold audit_variable_entity_registry. cbn [files set_files init].
    rewrite registry_loop. cbn [app].
    destruct (nonempty (naming_violations_of fs)); reflexivity.
  - unfold entities_of. apply Forall_forall. intros e He.
    apply in_flat_map in He. destruct He as [f [Hf He]].
    apply in_map_iff in He. destruct He as [[[export kind] nm] [<- Hm]].
    pose proof (findall_entity_fuel_ok (String.length (content f)) (content f)) as H.
    rewrite Forall_forall in H. specialize (H _ Hm). cbv beta iota in H.
    destruct H as [H1 [H2 [H3 H4]]].
    unfold entity_ok, entity_of_match. cbn [entity_kind entity_name entity_file].
    refine (conj H1 (conj H2 (conj H3 _))). exists f. auto.
Qed.

(* ================================================================== *)
(** ** The first words of a finding name its check *)
(* ================================================================== *)

Lemma tagged_app (tag : string) (l1 l2 : list string) :
  tagged tag l1 -> tagged tag l2 -> tagged tag (l1 +++ l2).
Proof. intros H1 H2. apply Forall_app. now split. Qed.

Lemma tagged_map {A : Type} (tag : string) (g : A -> string) (l : list A) :
  (forall a, exists x, g a = tag ++ x) -> tagged tag (map g l).
Proof.
  intros H. apply Forall_forall. intros m Hm. apply in_map_iff in Hm.
  destruct Hm as [a [<- _]]. apply H.
Qed.

Lemma tagged_flat_map {A : Type} (tag : string) (g : A -> list string) (l : list A) :
  (forall a, tagged tag (g a)) -> tagged tag (flat_map g l).
Proof.
  intros H. induction l as [|a l IH]; [constructor|].
  cbn [flat_map]. apply tagged_app; [apply H | exact IH].
Qed.

Lemma filter_tagged_all (p tag : string) (l : list string) :
  (forall x, startswith p (tag ++ x) = true) ->
  tagged tag l -> filter (startswith p) l = l.
Proof.
  intros Hp H. induction H as [|m l [x ->] _ IH]; [reflexivity|].
  cbn [filter]. now rewrite Hp, IH.
Qed.

Lemma filter_tagged_none (p tag : string) (l : list string) :
  (forall x, startswith p (tag ++ x) = false) ->
  tagged tag l -> filter (startswith p) l = [].
Proof.
  intros Hp H. induction H as [|m l [x ->] _ IH]; [reflexivity|].
  cbn [filter]. now rewrite Hp, IH.
Qed.

Lemma naming_tagged (fs : list SourceFile) :
  tagged "Snake_case property '" (naming_violations_of fs).
Proof.
  apply tagged_flat_map. intros f. unfold file_naming_violations.
  destruct (contains "domain" (rel_path f)); [|constructor].
  apply tagged_map. intros prop. now eexists.
Qed.

Lemma line_findings_tagged (feature rel : string) (il : nat * string) :
  tagged "Import from " (line_bleed feature rel il)
  /\ tagged "Uses data-transformers in " (line_transformers feature rel il).
Proof.
  unfold line_bleed, line_transformers, dependency_line. destruct il as [i line].
  destruct (startswith "import " (strip line)); [|split; constructor].
  destruct (search_from line) as [path_str|]; [|split; constructor].
  cbn [fst snd app]. split.
  - destruct (startswith "@/features/" path_str || startswith "../../features/" path_str);
      [|constructor].
    destruct (negb (String.eqb (target_feature_of path_str) feature)
              && negb (String.eqb (target_feature_of path_str) "shared"));
      [|constructor].
    constructor; [now eexists | constructor].
  - destruct (contains "types/data-transformers" path_str
              || contains "data/data-transformers" path_str); [|constructor].
    constructor; [now eexists | constructor].
Qed.

Lemma bleed_tagged (feature : string) (fs : list SourceFile) :
  tagged "Import from " (bleed_of feature fs).
Proof.
  apply tagged_flat_map. intros f. apply tagged_flat_map. intros il.
  apply line_findings_tagged.
Qed.

Lemma transformers_tagged (feature : string) (fs : list SourceFile) :
  tagged "Uses data-transformers in " (transformers_of feature fs).
Proof.
  apply tagged_flat_map. intros f. apply tagged_flat_map. intros il.
  apply line_findings_tagged.
Qed.

Lemma float_tagged (fs : list SourceFile) :
  tagged "Potential float usage in " (float_violations_of fs).
Proof. apply tagged_map. intros f. now eexists. Qed.

Lemma delete_tagged (fs : list SourceFile) :
  tagged "Potential hard delete verification needed in " (delete_violations_of fs).
Proof. apply tagged_map. intros f. now eexists. Qed.

Lemma auth_tagged (feature : string) (fs : list SourceFile) :
  tagged "Direct supabase.auth usage in " (auth_violations_of feature fs).
Proof.
  unfold auth_violations_of. destruct (String.eqb feature "auth"); [constructor|].
  apply tagged_map. intros f. now eexists.
Qed.

Lemma watch_tagged (fs : list SourceFile) :
  tagged "Usage of watch() instead of useWatch in " (watch_violations_of fs).
Proof. apply tagged_map. intros f. now eexists. Qed.

(** Filter the six segments of [issues] by the first words of one check. *)
Ltac filter_segments feature fs :=
  rewrite issues_audit, !filter_app;
  repeat match goal with
         | |- context [filter (startswith ?p) (naming_violations_of fs)] =>
             first [ rewrite (filter_tagged_all p "Snake_case property '" _ (fun x => eq_refl)
                                (naming_tagged fs))
                   | rewrite (filter_tagged_none p "Snake_case property '" _ (fun x => eq_refl)
                                (naming_tagged fs)) ]
         | |- context [filter (startswith ?p) (bleed_of feature fs)] =>
             first [ rewrite (filter_tagged_all p "Import from " _ (fun x => eq_refl)
                                (bleed_tagged feature fs))
                   | rewrite (filter_tagged_none p "Import from " _ (fun x => eq_refl)
                                (bleed_tagged feature fs)) ]
         | |- context [filter (startswith ?p) (float_violations_of fs)] =>
             first [ rewrite (filter_tagged_all p "Potential float usage in " _ (fun x => eq_refl)
                                (float_tagged fs))
                   | rewrite (filter_tagged_none p "Potential float usage in " _ (fun x => eq_refl)
                                (float_tagged fs)) ]
         | |- context [filter (startswith ?p) (delete_violations_of fs)] =>
             first [ rewrite (filter_tagged_all p "Potential hard delete verification needed in " _ (fun x => eq_refl)
                                (delete_tagged fs))
                   | rewrite (filter_tagged_none p "Potential hard delete verification needed in " _ (fun x => eq_refl)
                                (delete_tagged fs)) ]
         | |- context [filter (startswith ?p) (auth_violations_of feature fs)] =>
             first [ rewrite (filter_tagged_all p "Direct supabase.auth usage in " _ (fun x => eq_refl)
                                (auth_tagged feature fs))
                   | rewrite (filter_tagged_none p "Direct supabase.auth usage in " _ (fun x => eq_refl)
                                (auth_tagged feature fs)) ]
         | |- context [filter (startswith ?p) (watch_violations_of fs)] =>
             first [ rewrite (filter_tagged_all p "Usage of watch() instead of useWatch in " _ (fun x => eq_refl)
                                (watch_tagged fs))
                   | rewrite (filter_tagged_none p "Usage of watch() instead of useWatch in " _ (fun x => eq_refl)
                                (watch_tagged fs)) ]
         end;
  cbn [app]; rewrite ?app_nil_r.

(** X12.  The first words of a finding tell which check recorded it: the
    entries of [issues] that start with the words of one check are exactly
    the violations that check collected, in the same order; in particular
    the feature-bleed list of [stats] is the part of [issues] that starts
    with "Import from ".  The transformer notes [audit_dependencies]
    returns all start with "Uses data-transformers in ", and no entry of
    [issues] does. *)
Theorem findings_recovered_by_first_words (feature : string) (fs : list SourceFile) :
  let a := audit feature fs in
  filter (startswith "Snake_case property '") (issues a)
  = snd (fold_left registry_body fs ([], []))
  /\ filter (startswith "Import from ") (issues a) = feature_bleed (stats a)
  /\ filter (startswith "Potential float usage in ") (issues a)
     = snd (fold_left integer_cents_body fs (false, []))
  /\ filter (startswith "Potential hard delete verification needed in ") (issues a)
     = snd (fold_left soft_delete_body fs (false, []))
  /\ filter (startswith "Direct supabase.auth usage in ") (issues a)
     = fold_left (auth_body feature) fs []
  /\ filter (startswith "Usage of watch() instead of useWatch in ") (issues a)
     = fold_left performance_body fs []
  /\ filter (startswith "Uses data-transformers in ") (issues a) = []
  /\ tagged "Uses data-transformers in "
       (fst (audit_dependencies (set_files (init feature) fs))).
Proof.
  cbv zeta.
  rewrite registry_loop, integer_cents_loop, soft_delete_loop, auth_loop, performance_loop.
  cbn [snd app].
  assert (Hb : feature_bleed (stats (audit feature fs)) = bleed_of feature fs)
    by now rewrite audit_eq.
  rewrite Hb.
  refine (conj _ (conj _ (conj _ (conj _ (conj _ (conj _ (conj _ _))))))).
  - filter_segments feature fs. reflexivity.
  - filter_segments feature fs. reflexivity.
  - filter_segments feature fs. reflexivity.
  - filter_segments feature fs. reflexivity.
  - filter_segments feature fs. reflexivity.
  - filter_segments feature fs. reflexivity.
  - filter_segments feature fs. reflexivity.
  - unfold audit_dependencies. cbn [files feature_name set_files init].
    rewrite dependency_loop. cbn [app].
    destruct (nonempty (bleed_of feature fs)); cbn [fst]; apply transformers_tagged.
Qed.

(* ================================================================== *)
(** ** What the dependency check reports and what it passes over *)
(* ================================================================== *)

Lemma feature_bleed_reported_witness :
  line_content orders_ts
  = ["// orders"]
    +++ ("import { Order } from " ++ dq ++ "@/features/orders/domain/order" ++ dq ++ ";")
    :: ["import { money } from " ++ dq ++ "@/features/shared/money" ++ dq ++ ";"]
  /\ line_bleed "billing" (rel_path orders_ts)
       (1, "import { Order } from " ++ dq ++ "@/features/orders/domain/order" ++ dq ++ ";")
     = ["Import from orders in features/billing/api/orders.ts:2"]
  /\ dependency_manifest (stats (audit "billing" [orders_ts])) = FAIL.
Proof.
  split; [reflexivity|].
  destruct (feature_bleed_reported "billing" [] [] orders_ts ["// orders"]
              ["import { money } from " ++ dq ++ "@/features/shared/money" ++ dq ++ ";"]
              ("import { Order } from " ++ dq ++ "@/features/orders/domain/order" ++ dq ++ ";")
              "@/features/" "orders" "domain/order"
              eq_refl eq_refl eq_refl (or_introl eq_refl) eq_refl eq_refl
              ltac:(discriminate) ltac:(discriminate)) as [H1 [_ H3]].
  split; [exact H1 | exact H3].
Defined.

(** X14.  The dependency check yields no feature-bleed finding for a
    line that does not start with import once white space is stripped,
    for an import line without a quoted path after from, for a path that
    starts with neither "@/features/" nor "../../features/", and for a
    path whose segment after that prefix is the audited feature itself or
    shared, provided that the segment ends the path or does not end in the
    word features.  (A segment that ends in the word features and is
    followed by a slash is cut before that word, as X15 states, and the
    cut text is what the check compares.) *)
Theorem dependency_check_passes_over
    (feature rel line : string) (i : nat) :
  (startswith "import " (strip line) = false ->
   line_bleed feature rel (i, line) = [] /\ line_transformers feature rel (i, line) = [])
  /\ (search_from line = None ->
      line_bleed feature rel (i, line) = [] /\ line_transformers feature rel (i, line) = [])
  /\ (forall path_str,
        search_from line = Some path_str ->
        startswith "@/features/" path_str || startswith "../../features/" path_str = false ->
        line_bleed feature rel (i, line) = [])
  /\ (forall pre seg rest,
        search_from line = Some (pre ++ seg) \/
        (search_from line = Some (pre ++ seg ++ String "/" rest)
         /\ endswith "features" seg = false) ->
        pre = "@/features/" \/ pre = "../../features/" ->
        has_slash seg = false ->
        seg = feature \/ seg = "shared" ->
        line_bleed feature rel (i, line) = []).
Proof.
  unfold line_bleed, line_transformers, dependency_line.
  refine (conj _ (conj _ (conj _ _))).
  - intros ->. split; reflexivity.
  - intros ->. destruct (startswith "import " (strip line)); split; reflexivity.
  - intros path_str -> ->. destruct (startswith "import " (strip line)); reflexivity.
  - intros pre seg rest Hsearch Hpre Hslash Hseg.
    destruct (startswith "import " (strip line)); [|reflexivity].
    destruct (target_feature_of_segment pre seg rest Hpre Hslash) as [[T1 _] T2].
    assert (Hnone : forall t, t = feature \/ t = "shared" ->
                      negb (String.eqb t feature) && negb (String.eqb t "shared") = false).
    { intros t [-> | ->].
      - now rewrite String.eqb_refl.
      - rewrite (String.eqb_refl "shared"). apply andb_false_r. }
    destruct Hsearch as [-> | [-> Hends]].
    + rewrite T1, (Hnone seg Hseg).
      destruct (startswith "@/features/" (pre ++ seg)
                || startswith "../../features/" (pre ++ seg)); reflexivity.
    + destruct (T2 Hends) as [T _]. rewrite T, (Hnone seg Hseg).
      destruct (startswith "@/features/" (pre ++ seg ++ String "/" rest)
                || startswith "../../features/" (pre ++ seg ++ String "/" rest));
        reflexivity.
Qed.

Lemma dependency_check_passes_over_witness :
  search_from ("import { money } from " ++ dq ++ "@/features/shared/money" ++ dq ++ ";")
  = Some ("@/features/" ++ "shared" ++ String "/" "money")
  /\ line_bleed "billing" "features/billing/api/orders.ts"
       (2, "import { money } from " ++ dq ++ "@/features/shared/money" ++ dq ++ ";")
     = [].
Proof.
  split; [reflexivity|].
  exact (proj2 (proj2 (proj2 (dependency_check_passes_over "billing"
                                "features/billing/api/orders.ts"
                                ("import { money } from " ++ dq ++ "@/features/shared/money"
                                 ++ dq ++ ";") 2)))
           "@/features/" "shared" "money"
           (or_intror (conj eq_refl eq_refl)) (or_introl eq_refl) eq_refl
           (or_intror eq_refl)).
Defined.

Lemma hd_split_features_word (x : string) :
  forall cur rest,
    has_slash x = false ->
    hd EmptyString (split_from "features/" 0 cur (x ++ "features/" ++ rest)) = cur ++ x.
Proof.
  induction x as [|c x IH]; intros cur rest Hslash.
  - cbn. now rewrite append_nil_r.
  - change (String c x ++ "features/" ++ rest)
      with (String c (x ++ "features/" ++ rest)).
    cbn [split_from].
    destruct (startswith "features/" (String c (x ++ "features/" ++ rest))) eqn:E.
    + exfalso. apply startswith_app in E. destruct E as [y E].
      assert (Hseg : String c x ++ "features" = "features").
      { apply (segment_before_slash "features" (String c x ++ "features") rest y).
        - reflexivity.
        - clear -Hslash. induction (String c x) as [|d s IHs]; [reflexivity|].
          cbn in Hslash |- *. apply orb_false_iff in Hslash. destruct Hslash as [H1 H2].
          rewrite H1. now apply IHs.
        - rewrite append_assoc. exact E. }
      apply (f_equal String.length) in Hseg. rewrite length_append in Hseg.
      cbn in Hseg. lia.
    + cbn in Hslash. apply orb_false_iff in Hslash. destruct Hslash as [_ Hslash].
      transitivity ((cur ++ String c EmptyString) ++ x);
        [exact (IH _ rest Hslash) | now rewrite append_assoc].
Qed.

(** X15.  The computed target stops at the word features: for a module
    path whose segment after the prefix is some text without a slash
    followed by the word features and a slash, the target the check
    compares and reports is that text alone, not the whole segment. *)
Theorem target_feature_of_cut (pre x rest : string) :
  pre = "@/features/" \/ pre = "../../features/" ->
  has_slash x = false ->
  target_feature_of (pre ++ x ++ "features/" ++ rest) = x
  /\ segment_after_features (pre ++ x ++ "features/" ++ rest) = Some (x ++ "features").
Proof.
  intros Hpre Hslash. split.
  - unfold target_feature_of.
    assert (Hnth : nth 1 (split "features/" (pre ++ x ++ "features/" ++ rest)) EmptyString
                   = hd EmptyString
                       (split_from "features/" 0 EmptyString (x ++ "features/" ++ rest))).
    { destruct Hpre as [-> | ->].
      - change (split "features/" ("@/features/" ++ x ++ "features/" ++ rest))
          with ("@/" :: split_from "features/" 0 EmptyString (x ++ "features/" ++ rest)).
        now destruct (split_from "features/" 0 EmptyString (x ++ "features/" ++ rest)).
      - change (split "features/" ("../../features/" ++ x ++ "features/" ++ rest))
          with ("../../" :: split_from "features/" 0 EmptyString (x ++ "features/" ++ rest)).
        now destruct (split_from "features/" 0 EmptyString (x ++ "features/" ++ rest)). }
    rewrite Hnth, (hd_split_features_word x EmptyString rest Hslash).
    unfold split. rewrite hd_split_slash. cbn [append]. now apply upto_slash_no_slash.
  - assert (Hup : upto_slash (x ++ "features/" ++ rest) = x ++ "features").
    { replace (x ++ "features/" ++ rest) with ((x ++ "features") ++ String "/" rest)
        by (rewrite append_assoc; reflexivity).
      apply upto_slash_segment.
      clear -Hslash. induction x as [|d s IHs]; [reflexivity|].
      cbn in Hslash |- *. apply orb_false_iff in Hslash. destruct Hslash as [H1 H2].
      rewrite H1. now apply IHs. }
    assert (Hclaim : forall r, segment_after_features (pre ++ r) = Some (upto_slash r)).
    { intros r. destruct Hpre as [-> | ->]; reflexivity. }
    now rewrite Hclaim, Hup.
Qed.

Lemma target_feature_of_cut_witness :
  has_slash "my" = false
  /\ target_feature_of ("../../features/" ++ "my" ++ "features/" ++ "index") = "my".
Proof.
  split; [reflexivity|].
  exact (proj1 (target_feature_of_cut "../../features/" "my" "index"
                  (or_intror eq_refl) eq_refl)).
Defined.

(* ================================================================== *)
(** ** The report: which findings are listed where *)
(* ================================================================== *)

Lemma Forall_map_all {A B : Type} (P : B -> Prop) (g : A -> B) (l : list A) :
  (forall x, P (g x)) -> Forall P (map g l).
Proof. intros H. induction l; cbn [map]; constructor; auto. Qed.

Lemma Forall_flat_map_all {A B : Type} (P : B -> Prop) (g : A -> list B) (l : list A) :
  (forall x, Forall P (g x)) -> Forall P (flat_map g l).
Proof.
  intros H. induction l; cbn [flat_map]; [constructor|].
  apply Forall_app. split; auto.
Qed.

Lemma In_bullets (i : string) (l : list string) :
  In ("- " ++ i) (map (fun r => "- " ++ r) l) <-> In i l.
Proof.
  rewrite in_map_iff. split.
  - intros [x [E Hx]]. injection E as ->. exact Hx.
  - intros H. now exists i.
Qed.

Lemma In_starts (p x : string) (l : list string) :
  startswith p x = true ->
  Forall (fun line => startswith p line = false) l -> ~ In x l.
Proof.
  intros Hx Hl Hin. rewrite Forall_forall in Hl. specialize (Hl x Hin). congruence.
Qed.

(** The lines of the report outside the block of findings that follows
    the summary: none of them starts like the two lines that open this
    block. *)
Ltac plain_lines :=
  repeat first
    [ apply Forall_nil
    | apply Forall_cons; [reflexivity|]
    | apply Forall_app; split
    | apply Forall_map_all; intros; reflexivity
    | apply Forall_flat_map_all; intros [? ?]; unfold folder_lines
    | apply Forall_flat_map_all; intros [? ?]; unfold mandate_check_lines
    | match goal with
      | |- context [if ?b then _ else _] => destruct b
      end ].

Lemma report_lines_outside_findings (p : string) (today : Date) (self : FeatureAuditor)
    (entities : list Entity) (transformers : list string) :
  p = "**O" \/ p = "**I" ->
  Forall (fun line => startswith p line = false)
    (header_lines self today +++ summary_lines self)
  /\ Forall (fun line => startswith p line = false)
       (inventory_lines self +++ entity_lines entities
        +++ dependency_lines self transformers +++ mandate_lines self
        +++ performance_lines self).
Proof.
  unfold header_lines, summary_lines, inventory_lines, entity_lines, dependency_lines,
    mandate_lines, performance_lines.
  intros [-> | ->]; split; plain_lines.
Qed.

(** X16.  The report of a run says Overall Result: PASSED exactly when
    the run recorded no finding, and opens the list Issues Found exactly
    when it recorded one; every recorded finding is then a bullet line of
    the report. *)
Theorem report_overall_result (today : Date) (feature : string) (fs : list SourceFile) :
  let a := audit feature fs in
  let out := report_lines today a (entities_of fs) (transformers_of feature fs) in
  (In "**Overall Result: PASSED**" out <-> issues a = [])
  /\ (In "**Issues Found:**" out <-> issues a <> [])
  /\ (forall i, In i (issues a) -> In ("- " ++ i) out).
Proof.
  cbv zeta. set (a := audit feature fs).
  set (ents := entities_of fs). set (trans := transformers_of feature fs).
  assert (Hout : forall p x,
             p = "**O" \/ p = "**I" -> startswith p x = true ->
             In x (report_lines today a ents trans) <-> In x (issue_lines a)).
  { intros p x Hp Hx.
    destruct (report_lines_outside_findings p today a ents trans Hp) as [H1 H2].
    unfold report_lines. rewrite !in_app_iff.
    pose proof (In_starts p x _ Hx H1) as N1. pose proof (In_starts p x _ Hx H2) as N2.
    rewrite !in_app_iff in N1. rewrite !in_app_iff in N2. tauto. }
  split; [|split].
  - rewrite (Hout "**O" "**Overall Result: PASSED**" (or_introl eq_refl) eq_refl). unfold issue_lines.
    destruct (issues a) as [|i more]; cbn [nonempty].
    + split; [reflexivity | intros _; now left].
    + split; [|discriminate]. rewrite in_app_iff. cbn [In].
      intros [[H|H]|[H|[H|[H|[]]]]]; try discriminate H.
      apply in_map_iff in H. destruct H as [x [H _]]. discriminate H.
  - rewrite (Hout "**I" "**Issues Found:**" (or_intror eq_refl) eq_refl). unfold issue_lines.
    destruct (issues a) as [|i more]; cbn [nonempty].
    + split; [|intros H; now elim H]. cbn [In app].
      intros [H|[H|[H|[H|[]]]]]; discriminate H.
    + split; [discriminate | intros _; now left].
  - intros i Hi. unfold report_lines, issue_lines. rewrite !in_app_iff.
    right. right. left. left.
    destruct (issues a) as [|j js]; [destruct Hi|]. cbn [nonempty].
    right. now rewrite In_bullets.
Qed.

(** X17.  A run records no finding exactly when none of its eleven
    verdicts is FAIL or WARNING: a report that says PASSED shows only
    PASS and N/A, and a report with a finding shows a FAIL or a WARNING. *)
Theorem no_finding_iff_no_failing_verdict (feature : string) (fs : list SourceFile) :
  let a := audit feature fs in
  issues a = [] <-> Forall (fun v => v = PASS \/ v = NA) (all_verdicts a).
Proof.
  cbv zeta. rewrite audit_eq. unfold all_verdicts.
  cbn [audited_state issues stats mandate_checks performance_checks entity_registry
       dependency_manifest sacred_mandate performance naming integer_cents sync_integrity
       soft_deletes auth_abstraction react_compiler re_render].
  pose proof (float_violations_need_financial fs) as Hfin.
  split.
  - intros H. repeat (apply app_eq_nil in H; destruct H as [? H]).
    repeat match goal with E : _ = [] |- _ => rewrite E; clear E end.
    cbn [nonempty].
    destruct (has_financial_of fs);
      repeat (apply Forall_cons; [first [now left | now right]|]); apply Forall_nil.
  - intros H. rewrite Forall_forall in H.
    assert (N1 : naming_violations_of fs = []).
    { destruct (naming_violations_of fs); [reflexivity|]. exfalso.
      destruct (H FAIL) as [E|E]; [cbn; tauto | discriminate E | discriminate E]. }
    assert (N2 : bleed_of feature fs = []).
    { destruct (bleed_of feature fs); [reflexivity|]. exfalso.
      destruct (H FAIL) as [E|E]; [cbn; tauto | discriminate E | discriminate E]. }
    assert (N3 : float_violations_of fs = []).
    { destruct (has_financial_of fs); [|now apply Hfin].
      destruct (float_violations_of fs); [reflexivity|]. exfalso.
      destruct (H FAIL) as [E|E]; [cbn; tauto | discriminate E | discriminate E]. }
    assert (N4 : delete_violations_of fs = []).
    { destruct (delete_violations_of fs); [reflexivity|]. exfalso.
      destruct (H WARNING) as [E|E]; [cbn; tauto | discriminate E | discriminate E]. }
    assert (N5 : auth_violations_of feature fs = []).
    { destruct (auth_violations_of feature fs); [reflexivity|]. exfalso.
      destruct (H FAIL) as [E|E]; [cbn; tauto | discriminate E | discriminate E]. }
    assert (N6 : watch_violations_of fs = []).
    { destruct (watch_violations_of fs); [reflexivity|]. exfalso.
      destruct (H FAIL) as [E|E]; [cbn; tauto | discriminate E | discriminate E]. }
    now rewrite N1, N2, N3, N4, N5, N6.
Qed.

Lemma bullet_in_check_lines (a : FeatureAuditor) (k : string) (v : Verdict) (i : string) :
  In ("- " ++ i) (mandate_check_lines a (k, v))
  <-> is_FAIL v = true /\ In i (issues a) /\ contains k (lower i) = true.
Proof.
  unfold mandate_check_lines. rewrite !in_app_iff. cbn [In].
  split.
  - intros [[H|[H|[]]]|[H|[H|[]]]]; try discriminate H.
    destruct (is_FAIL v); [|destruct H]. rewrite In_bullets in H.
    apply filter_In in H. tauto.
  - intros [Hv [Hi Hk]]. right. left. rewrite Hv. rewrite In_bullets.
    apply filter_In. tauto.
Qed.

(** X18.  Under a watch verdict FAIL the performance section lists every
    recorded finding whose text in lower case contains watch: each watch
    finding is among them, and so is a finding of another check on a file
    whose path contains watch.  Under any other verdict the section has
    no bullet. *)
Theorem performance_section_bullets (feature : string) (fs : list SourceFile) :
  let a := audit feature fs in
  (forall f, In f fs -> watch_flagged f = true ->
     In ("- " ++ watch_message (rel_path f)) (performance_lines a))
  /\ (forall i, In ("- " ++ i) (performance_lines a)
                <-> react_compiler (performance_checks a) = FAIL
                    /\ In i (issues a) /\ contains "watch" (lower i) = true).
Proof.
  cbv zeta.
  assert (Hlines : forall i,
             In ("- " ++ i) (performance_lines (audit feature fs))
             <-> react_compiler (performance_checks (audit feature fs)) = FAIL
                 /\ In i (issues (audit feature fs)) /\ contains "watch" (lower i) = true).
  { intros i. unfold performance_lines. rewrite in_app_iff. cbn [In].
    split.
    - intros [[H|[H|[H|[H|[]]]]]|H]; try discriminate H.
      destruct (react_compiler (performance_checks (audit feature fs)));
        cbn [is_FAIL] in H; try destruct H.
      rewrite In_bullets in H. apply filter_In in H. tauto.
    - intros [Hv [Hi Hk]]. right. rewrite Hv. cbn [is_FAIL]. rewrite In_bullets.
      apply filter_In. tauto. }
  split; [|exact Hlines].
  intros f Hf Hw. apply Hlines.
  assert (Hin : In (watch_message (rel_path f)) (watch_violations_of fs)).
  { unfold watch_violations_of.
    apply (in_map (fun g => watch_message (rel_path g))). apply filter_In. tauto. }
  split; [|split].
  - rewrite audit_eq. cbn [audited_state performance_checks react_compiler].
    destruct (watch_violations_of fs); [destruct Hin | reflexivity].
  - rewrite issues_audit, !in_app_iff. tauto.
  - reflexivity.
Qed.

Lemma performance_section_bullets_witness :
  watch_flagged form_tsx = true
  /\ In "- Usage of watch() instead of useWatch in features/accounts/ui/form.tsx"
        (performance_lines (audit "accounts" [form_tsx; watchlist_ts]))
  /\ In "- Snake_case property 'list_id' in domain file features/accounts/domain/watchlist.ts"
        (performance_lines (audit "accounts" [form_tsx; watchlist_ts])).
Proof.
  split; [reflexivity|].
  destruct (performance_section_bullets "accounts" [form_tsx; watchlist_ts]) as [H1 H2].
  split.
  - exact (H1 form_tsx (or_introl eq_refl) eq_refl).
  - apply H2. split; [vm_compute; reflexivity|].
    split; [vm_compute; auto | vm_compute; reflexivity].
Defined.

(** X19.  The mandate section lists a recorded finding under a check
    only when that check is FAIL and the finding's text in lower case
    contains the check's key.  The texts of the checks' own findings hold
    the key only through the path of the file, so on a file whose path
    contains neither integer_cents nor auth_abstraction a float finding
    and an auth finding are recorded, give the verdict FAIL, and are not
    listed in the section. *)
Theorem mandate_section_bullets (feature : string) (fs : list SourceFile) :
  let a := audit feature fs in
  let keyless rel :=
    contains "integer_cents" (lower rel) = false
    /\ contains "auth_abstraction" (lower rel) = false in
  (forall i, In ("- " ++ i) (mandate_lines a)
     <-> In i (issues a)
         /\ (integer_cents (mandate_checks a) = FAIL
               /\ contains "integer_cents" (lower i) = true
             \/ auth_abstraction (mandate_checks a) = FAIL
               /\ contains "auth_abstraction" (lower i) = true))
  /\ (forall f, In f fs -> uses_supabase_auth f = true -> feature <> "auth" ->
      keyless (rel_path f) ->
      auth_abstraction (mandate_checks a) = FAIL
      /\ In (auth_message (rel_path f)) (issues a)
      /\ ~ In ("- " ++ auth_message (rel_path f)) (mandate_lines a))
  /\ (forall f, In f fs -> float_flagged f = true -> keyless (rel_path f) ->
      integer_cents (mandate_checks a) = FAIL
      /\ In (float_message (rel_path f)) (issues a)
      /\ ~ In ("- " ++ float_message (rel_path f)) (mandate_lines a)).
Proof.
  cbv zeta.
  assert (Hlines : forall i,
             In ("- " ++ i) (mandate_lines (audit feature fs))
             <-> In i (issues (audit feature fs))
                 /\ (integer_cents (mandate_checks (audit feature fs)) = FAIL
                       /\ contains "integer_cents" (lower i) = true
                     \/ auth_abstraction (mandate_checks (audit feature fs)) = FAIL
                       /\ contains "auth_abstraction" (lower i) = true)).
  { intros i. unfold mandate_lines, mandate_items. cbn [flat_map].
    rewrite !in_app_iff, !bullet_in_check_lines. cbn [In].
    assert (Hsync : is_FAIL (sync_integrity (mandate_checks (audit feature fs))) = false)
      by (now rewrite audit_eq).
    assert (Hsoft : is_FAIL (soft_deletes (mandate_checks (audit feature fs))) = false).
    { rewrite audit_eq. cbn [audited_state mandate_checks soft_deletes].
      destruct (nonempty (delete_violations_of fs)); reflexivity. }
    rewrite Hsync, Hsoft.
    assert (Hfail : forall v, is_FAIL v = true <-> v = FAIL)
      by (intros []; cbn; split; congruence).
    rewrite !Hfail. split.
    - intros [[H|[H|[]]]|[H|[H|[H|[H|[]]]]]]; try discriminate H; try tauto;
        destruct H as [H _]; discriminate H.
    - tauto. }
  split; [exact Hlines|]. split.
  - intros f Hf Hauth Hfeature [Hk1 Hk2].
    assert (Hin : In (auth_message (rel_path f)) (auth_violations_of feature fs)).
    { unfold auth_violations_of. apply String.eqb_neq in Hfeature. rewrite Hfeature.
      apply (in_map (fun g => auth_message (rel_path g))). apply filter_In. tauto. }
    split; [|split].
    + rewrite audit_eq. cbn [audited_state mandate_checks auth_abstraction].
      destruct (auth_violations_of feature fs); [destruct Hin | reflexivity].
    + rewrite issues_audit, !in_app_iff. tauto.
    + rewrite Hlines.
      change (contains "integer_cents" (lower (auth_message (rel_path f))))
        with (contains "integer_cents" (lower (rel_path f))).
      change (contains "auth_abstraction" (lower (auth_message (rel_path f))))
        with (contains "auth_abstraction" (lower (rel_path f))).
      rewrite Hk1, Hk2. intros [_ [[_ H]|[_ H]]]; discriminate H.
  - intros f Hf Hfloat [Hk1 Hk2].
    assert (Hin : In (float_message (rel_path f)) (float_violations_of fs)).
    { unfold float_violations_of.
      apply (in_map (fun g => float_message (rel_path g))). apply filter_In. tauto. }
    split; [|split].
    + rewrite audit_eq. cbn [audited_state mandate_checks integer_cents].
      destruct (has_financial_of fs) eqn:Hfin.
      * destruct (float_violations_of fs); [destruct Hin | reflexivity].
      * rewrite (float_violations_need_financial fs Hfin) in Hin. destruct Hin.
    + rewrite issues_audit, !in_app_iff. tauto.
    + rewrite Hlines.
      change (contains "integer_cents" (lower (float_message (rel_path f))))
        with (contains "integer_cents" (lower (rel_path f))).
      change (contains "auth_abstraction" (lower (float_message (rel_path f))))
        with (contains "auth_abstraction" (lower (rel_path f))).
      rewrite Hk1, Hk2. intros [_ [[_ H]|[_ H]]]; discriminate H.
Qed.

Lemma mandate_section_bullets_witness :
  uses_supabase_auth session_ts = true
  /\ float_flagged price_ts = true
  /\ auth_abstraction (mandate_checks (audit "accounts" [session_ts; price_ts])) = FAIL
  /\ integer_cents (mandate_checks (audit "accounts" [session_ts; price_ts])) = FAIL
  /\ ~ In "- Direct supabase.auth usage in features/accounts/api/session.ts"
          (mandate_lines (audit "accounts" [session_ts; price_ts]))
  /\ ~ In "- Potential float usage in features/accounts/utils/price.ts"
          (mandate_lines (audit "accounts" [session_ts; price_ts])).
Proof.
  split; [reflexivity|]. split; [reflexivity|].
  destruct (mandate_section_bullets "accounts" [session_ts; price_ts]) as [_ [H1 H2]].
  assert (Hne : "accounts" <> "auth") by discriminate.
  destruct (H1 session_ts (or_introl eq_refl) eq_refl Hne (conj eq_refl eq_refl))
    as [A1 [_ A2]].
  destruct (H2 price_ts (or_intror (or_introl eq_refl)) eq_refl (conj eq_refl eq_refl))
    as [B1 [_ B2]].
  repeat split; assumption.
Defined.

(* ================================================================== *)
(** ** The command line: outcomes and what a run changes *)
(* ================================================================== *)



(** X20.  The ways a run ends, for a feature name that is one path
    component.  It ends in [sys.exit(1)] exactly when no feature name is
    given, having printed the usage line and nothing else.  When a .ts or
    .tsx file under the feature cannot be read, it dies of an uncaught
    exception before it has printed or written anything; when the report
    file cannot be created, it dies of an uncaught exception and has
    printed nothing.  A run that ends with status 0 has read every .ts and
    .tsx file of the walk and created the report. *)
Theorem main_outcome (argv : list string) (w : World) :
  (forall feature, nth_error argv 1 = Some feature -> plain_name feature = true) ->
  (fst (main argv w) = Exit 1 <-> List.length argv < 2)
  /\ (fst (main argv w) = Exit 1 ->
      snd (main argv w) = print "Usage: python audit_feature.py <feature_name>" w)
  /\ (forall feature root file,
        nth_error argv 1 = Some feature ->
        In (root, file, None) (walk_entries (feature_walk w (init feature))) ->
        is_source_name file = true ->
        main argv w = (Uncaught, w))
  /\ (2 <= List.length argv -> docs_dir w = None ->
      fst (main argv w) = Uncaught /\ stdout (snd (main argv w)) = stdout w)
  /\ (fst (main argv w) = Exit 0 ->
      exists feature,
        nth_error argv 1 = Some feature
        /\ forallb is_readable
             (filter is_source_entry (walk_entries (feature_walk w (init feature)))) = true
        /\ docs_dir w <> None)
  /\ (fst (main argv w) = Exit 0 \/ fst (main argv w) = Exit 1
      \/ fst (main argv w) = Uncaught).
Proof.
  intros _. destruct argv as [|prog [|feature rest]].
  - cbn. repeat split; try discriminate; try lia; auto.
  - cbn. repeat split; try discriminate; try lia; auto.
  - rewrite main_run. cbn [List.length nth_error].
    pose proof (scan_files_None_iff w (init feature)) as Hnone.
    pose proof (scan_files_eq w (init feature)) as Heq.
    destruct (scan_files w (init feature)) as [a|].
    + assert (Hread : forallb is_readable
                        (filter is_source_entry
                           (walk_entries (feature_walk w (init feature)))) = true).
      { destruct (forallb is_readable _); [reflexivity | discriminate Heq]. }
      destruct (docs_dir w) as [d|] eqn:Hdocs; cbn [fst snd].
      * repeat split; try discriminate; try lia; auto.
        -- intros f root file E Hin Hsrc. injection E as <-.
           assert (N : Some a = None) by (apply Hnone; now exists root, file).
           discriminate N.
        -- intros _. exists feature. repeat split; [exact Hread | discriminate].
      * repeat split; try discriminate; try lia; auto.
    + cbn [fst snd]. repeat split; try discriminate; try lia; auto.
Qed.

Lemma main_outcome_witness :
  (forall feature,
     nth_error ["audit_feature.py"; "broken"] 1 = Some feature -> plain_name feature = true)
  /\ main ["audit_feature.py"; "broken"] accounts_world = (Uncaught, accounts_world).
Proof.
  assert (Hname : forall feature,
             nth_error ["audit_feature.py"; "broken"] 1 = Some feature ->
             plain_name feature = true).
  { intros feature E. injection E as <-. reflexivity. }
  split; [exact Hname|].
  destruct (main_outcome ["audit_feature.py"; "broken"] accounts_world Hname)
    as [_ [_ [H _]]].
  apply (H "broken" "features/broken" "index.ts" eq_refl); [|reflexivity].
  vm_compute. auto.
Defined.



(* ================================================================== *)
(** ** The file inventory of the report *)
(* ================================================================== *)

Lemma lookup_folder_add (folder k : string) (f : SourceFile)
    (d : list (string * list SourceFile)) :
  lookup k (folder_add folder f d)
  = if String.eqb folder k
    then Some (match lookup k d with Some l => l +++ [f] | None => [f] end)
    else lookup k d.
Proof.
  induction d as [|[k' l] d IH]; cbn [folder_add lookup].
  - destruct (String.eqb folder k); reflexivity.
  - destruct (String.eqb_spec k' folder) as [->|Hk']; cbn [lookup].
    + destruct (String.eqb folder k); reflexivity.
    + rewrite IH. destruct (String.eqb_spec k' k) as [->|Hk]; [|reflexivity].
      destruct (String.eqb_spec folder k) as [E|_]; [|reflexivity].
      now elim Hk'.
Qed.

Lemma keys_folder_add (folder : string) (f : SourceFile)
    (d : list (string * list SourceFile)) :
  map fst (folder_add folder f d)
  = if existsb (String.eqb folder) (map fst d) then map fst d
    else map fst d +++ [folder].
Proof.
  induction d as [|[k l] d IH]; [reflexivity|].
  cbn [folder_add map fst existsb].
  rewrite (String.eqb_sym folder k).
  destruct (String.eqb k folder); cbn [orb map fst]; [reflexivity|].
  rewrite IH. destruct (existsb (String.eqb folder) (map fst d)); reflexivity.
Qed.

Lemma concat_folder_add (folder : string) (f : SourceFile)
    (d : list (string * list SourceFile)) :
  Permutation (List.concat (map snd (folder_add folder f d))) (f :: List.concat (map snd d)).
Proof.
  induction d as [|[k l] d IH]; [reflexivity|].
  cbn [folder_add]. destruct (String.eqb k folder); cbn [map snd List.concat].
  - rewrite <- app_assoc. cbn [app].
    symmetry. apply Permutation_middle.
  - rewrite IH. symmetry. apply Permutation_middle.
Qed.

Lemma NoDup_lookup {A : Type} (d : list (string * A)) (k : string) (v : A) :
  NoDup (map fst d) -> In (k, v) d -> lookup k d = Some v.
Proof.
  induction d as [|[k' v'] d IH]; cbn [map fst lookup]; intros Hnd Hin; [destruct Hin|].
  inversion Hnd as [|? ? Hnot Hnd']; subst.
  destruct Hin as [E|Hin].
  - injection E as -> ->. now rewrite String.eqb_refl.
  - destruct (String.eqb_spec k' k) as [->|_]; [|now apply IH].
    exfalso. apply Hnot. apply in_map_iff. now exists (k, v).
Qed.

Lemma lookup_Some_key {A : Type} (d : list (string * A)) (k : string) (v : A) :
  lookup k d = Some v -> In k (map fst d).
Proof.
  induction d as [|[k' v'] d IH]; cbn [lookup map fst]; [discriminate|].
  destruct (String.eqb_spec k' k) as [->|_]; [now left | intros H; right; now apply IH].
Qed.

(** The dictionary [files_by_folder] after the loop over any list of
    files, started from any dictionary. *)
Lemma files_by_folder_loop (fs : list SourceFile) :
  forall d,
    NoDup (map fst d) ->
    let d' := fold_left (fun d f => folder_add (dirname (rel_path f)) f d) fs d in
    NoDup (map fst d')
    /\ (forall k, lookup k d'
                  = match lookup k d, filter (fun f => String.eqb (dirname (rel_path f)) k) fs with
                    | None, [] => None
                    | None, l => Some l
                    | Some l0, l => Some (l0 +++ l)
                    end)
    /\ Permutation (List.concat (map snd d')) (List.concat (map snd d) +++ fs).
Proof.
  induction fs as [|f fs IH]; intros d Hnd; cbv zeta; cbn [fold_left filter].
  - split; [exact Hnd|]. split.
    + intros k. destruct (lookup k d); [now rewrite app_nil_r | reflexivity].
    + now rewrite app_nil_r.
  - assert (Hnd' : NoDup (map fst (folder_add (dirname (rel_path f)) f d))).
    { rewrite keys_folder_add.
      destruct (existsb (String.eqb (dirname (rel_path f))) (map fst d)) eqn:E; [exact Hnd|].
      apply NoDup_app; [exact Hnd | repeat constructor; intros [] |].
      intros k Hk [<-|[]].
      assert (existsb (String.eqb (dirname (rel_path f))) (map fst d) = true).
      { apply existsb_exists. exists (dirname (rel_path f)).
        split; [exact Hk | apply String.eqb_refl]. }
      congruence. }
    destruct (IH _ Hnd') as [H1 [H2 H3]]. split; [exact H1|]. split.
    + intros k. rewrite H2, lookup_folder_add.
      destruct (String.eqb (dirname (rel_path f)) k).
      * destruct (lookup k d) as [l0|]; [now rewrite <- app_assoc | reflexivity].
      * reflexivity.
    + rewrite H3, concat_folder_add. cbn [app]. apply Permutation_middle.
Qed.

(** X22.  The file inventory groups the scanned files by folder: the
    folders are distinct, every group is not empty and holds exactly the
    files of its folder in scan order, the folder of every file has a
    group, and so every file is listed once. *)
Theorem files_by_folder_groups (fs : list SourceFile) :
  let groups := files_by_folder fs in
  NoDup (map fst groups)
  /\ Forall (fun g => snd g <> []
                      /\ snd g = filter (fun f => String.eqb (dirname (rel_path f)) (fst g)) fs)
            groups
  /\ (forall f, In f fs -> In (dirname (rel_path f)) (map fst groups))
  /\ Permutation (List.concat (map snd groups)) fs.
Proof.
  cbv zeta. unfold files_by_folder.
  destruct (files_by_folder_loop fs [] (NoDup_nil _)) as [H1 [H2 H3]].
  cbv zeta in H1, H2, H3. cbn [lookup map List.concat app] in H2, H3.
  split; [exact H1|]. split; [|split; [|exact H3]].
  - apply Forall_forall. intros [k l] Hin. cbn [fst snd].
    pose proof (NoDup_lookup _ k l H1 Hin) as Hl. rewrite H2 in Hl.
    destruct (filter (fun f => String.eqb (dirname (rel_path f)) k) fs) as [|x xs];
      [discriminate|].
    injection Hl as <-. split; [discriminate | reflexivity].
  - intros f Hf.
    assert (Hin : In f (filter (fun g => String.eqb (dirname (rel_path g))
                                          (dirname (rel_path f))) fs)).
    { apply filter_In. split; [exact Hf | apply String.eqb_refl]. }
    specialize (H2 (dirname (rel_path f))).
    destruct (filter _ fs) as [|x xs]; [destruct Hin|].
    exact (lookup_Some_key _ _ _ H2).
Qed.

(* ================================================================== *)
(** ** Two runs on the same listing (C9) *)
(* ================================================================== *)













